(** * mcprouter: a shallow embedding of the supervision and dispatch core

    The development follows the TypeScript sources:
    - [src/downstream-manager.ts]: [normalizeClusterUrl] and the
      [DownstreamManager] class (endpoint records, ping, reconnect,
      call-on-one, call-on-all);
    - [src/tool-router.ts]: the [ToolRouter] class (classification, schema
      rewriting, dispatch);
    - [src/health-monitor.ts]: the [HealthMonitor] class (ticker, reconnect
      timers, backoff).

    Modelling conventions.
    - A JavaScript string is a [string] of 8-bit characters; [trim] and
      [toLowerCase] are the ASCII fragments of the JavaScript operations
      (white space is TAB, LF, VT, FF, CR and SPACE; only [A-Z] change case).
      They are the JavaScript operations on ASCII strings, and a theorem
      about every input is stated for ASCII inputs.
    - A [Map] whose iteration order is observable ([_downstreams]) is an
      association list in insertion order; a [Map] or [Set] that is only
      probed is a [gmap] or a [gset]; an argument object
      ([Record<string, unknown>]) is a [gmap string json].
    - Objects that the router clones and then writes through (tool input
      schemas) live in an explicit heap of cells, so that aliasing is visible.
    - What a child process answers is not part of the program: it is an
      oracle, given as a Section variable or as an argument of the step.
    - An [async] method is modelled by the state it leaves once its promise
      has settled; the calls it makes are recorded in a trace of events.
      Where it matters what else runs while a method awaits, the method is
      split at its [await]: [ping] into [pingBegin] and [pingSettled], the
      callback of a reconnect timer into [timerFired] and
      [reconnectSettled], the health tick into the turns of its loop
      ([checkOne]); the steps of other callbacks come in between
      ([managerStep], [monitorStep]).
    - A timer holds the delay that Node waits ([timeoutDelay]), not the
      number that was passed to [setTimeout]. *)

From Stdlib Require Import Strings.String Strings.Ascii ZArith Lia.
From stdpp Require Import gmap strings list fin_maps.

Open Scope string_scope.
Open Scope list_scope.

(** ** JavaScript string primitives *)

Module JsString.

(** A string is a list of 8-bit characters. The primitives below are those of
    JavaScript on strings of ASCII characters (codes below 128): on these
    [trim] removes exactly TAB, LF, VT, FF, CR and SPACE, and [toLowerCase]
    maps exactly [A-Z]. White space and cased letters beyond ASCII are outside
    the model, and a statement about all inputs is stated for ASCII inputs
    ([isAscii]). *)
Definition isAscii (s : string) : bool :=
  forallb (fun c => (nat_of_ascii c <? 128)%nat) (list_ascii_of_string s).

(** White space removed by [String.prototype.trim] (ASCII fragment). *)
Definition is_ws (c : ascii) : bool :=
  let n := nat_of_ascii c in
  ((9 <=? n)%nat && (n <=? 13)%nat) || (n =? 32)%nat.

Definition is_slash (c : ascii) : bool := (nat_of_ascii c =? 47)%nat.

Definition lower_char (c : ascii) : ascii :=
  let n := nat_of_ascii c in
  if ((65 <=? n)%nat && (n <=? 90)%nat)%bool then ascii_of_nat (n + 32) else c.

(** [s.toLowerCase()], on ASCII strings *)
Fixpoint toLowerCase (s : string) : string :=
  match s with
  | EmptyString => EmptyString
  | String c s' => String (lower_char c) (toLowerCase s')
  end.

(** Drop the longest prefix of characters satisfying [p]. *)
Fixpoint dropStart (p : ascii -> bool) (s : string) : string :=
  match s with
  | EmptyString => EmptyString
  | String c s' => if p c then dropStart p s' else s
  end.

(** Drop the longest suffix of characters satisfying [p]. *)
Fixpoint dropEnd (p : ascii -> bool) (s : string) : string :=
  match s with
  | EmptyString => EmptyString
  | String c s' =>
      match dropEnd p s' with
      | EmptyString => if p c then EmptyString else String c EmptyString
      | r => String c r
      end
  end.

(** [s.trim()], on ASCII strings *)
Definition trim (s : string) : string := dropEnd is_ws (dropStart is_ws s).

(** [s.startsWith(p)] *)
Definition startsWith (s p : string) : bool := String.prefix p s.

(** [s.replace(/\/+$/, '')]: the only match of the pattern is the maximal
    run of slashes that ends the string. *)
Definition stripTrailingSlashes (s : string) : string := dropEnd is_slash s.

(** [parts.join(sep)] *)
Definition join (sep : string) (parts : list string) : string :=
  String.concat sep parts.

(** [s.includes(t)] *)
Fixpoint includes (s t : string) : bool :=
  String.prefix t s ||
  match s with
  | EmptyString => false
  | String _ s' => includes s' t
  end.

(** Truthiness of a string: only the empty string is falsy. *)
Definition truthy (s : string) : bool :=
  match s with EmptyString => false | _ => true end.

End JsString.

(** ** [normalizeClusterUrl] (downstream-manager.ts) *)

Definition normalizeClusterUrl (url : string) : string :=
  let normalized := JsString.toLowerCase (JsString.trim url) in
  let normalized :=
    if negb (JsString.startsWith normalized "https://")
       && negb (JsString.startsWith normalized "http://")
    then "https://" +:+ normalized
    else normalized in
  JsString.stripTrailingSlashes normalized.

(** ** Data model (types.ts) *)

(** A value of type [unknown], as it arrives in a JSON-RPC request. Numbers
    are the integer-valued ones. *)
#[local] Set Warnings "-register-all".
Inductive json : Type :=
  | JNull
  | JBool (b : bool)
  | JNum (n : Z)
  | JStr (s : string)
  | JArr (items : list json)
  | JObj (fields : list (string * json)).

(** The truthiness test that [if (v)] and [!v] apply to a value. *)
Definition js_truthy (v : json) : bool :=
  match v with
  | JNull => false
  | JBool b => b
  | JNum n => negb (n =? 0)%Z
  | JStr s => JsString.truthy s
  | JArr _ | JObj _ => true
  end.

(** [args[k]] is [undefined] when the key is absent, and [undefined] is
    falsy. *)
Definition truthy_opt (v : option json) : bool :=
  match v with Some x => js_truthy x | None => false end.

(** [Record<string, unknown>] *)
Abbreviation Args := (gmap string json).

Record ClusterMapping : Type := {
  clusterUrl : string;
  identity : string
}.

Inductive ConnectionStatus : Type :=
  Connected | Connecting | Failed | Disconnected.

#[global] Instance ConnectionStatus_eq_dec : EqDecision ConnectionStatus.
Proof. solve_decision. Defined.

(** The status as it is interpolated into a message. *)
Definition statusName (s : ConnectionStatus) : string :=
  match s with
  | Connected => "Connected"
  | Connecting => "Connecting"
  | Failed => "Failed"
  | Disconnected => "Disconnected"
  end.

Inductive ContentType : Type := CText | CImage | CResource.

Record ToolContent : Type := {
  c_type : ContentType;
  c_text : option string;
  c_data : option string;
  c_mimeType : option string
}.

Record ToolCallResult : Type := {
  content : list ToolContent;
  isError : option bool
}.

(** [{ type: 'text', text }] *)
Definition textContent (t : string) : ToolContent :=
  {| c_type := CText; c_text := Some t; c_data := None; c_mimeType := None |}.

(** [{ content: [{ type: 'text', text }], isError: true }] *)
Definition textError (t : string) : ToolCallResult :=
  {| content := [textContent t]; isError := Some true |}.

Record PropertySchema : Type := {
  p_type : option string;
  p_description : option string;
  p_enum : option (list string);
  (** every other key of the object ([default], [items], ...) *)
  p_rest : list (string * json)
}.

(** Objects that are written through after they were shared are heap cells,
    named by a location. *)
Definition loc := positive.

(** [ToolInputSchema]; its [type] is the constant ['object']. *)
Record ToolInputSchema : Type := {
  properties : option loc;
  required : option loc;
  additionalProperties : option bool
}.

Record ToolDefinition : Type := {
  name : string;
  description : option string;
  inputSchema : loc
}.

Record RouterConfig : Type := {
  mappings : list ClusterMapping;
  readOnly : bool;
  pingIntervalSeconds : Z;
  pingTimeoutSeconds : Z;
  maxReconnectBackoffSeconds : Z
}.

Definition dquote : string := String (ascii_of_nat 34) EmptyString.

(** ** The object heap

    A tool's input schema is an object with two mutable children, the
    [properties] record and the [required] array. The router clones a schema
    and then assigns to the clone and to its children, so the three kinds of
    object are cells. A property schema is never assigned to after it has been
    built (the router replaces the whole [cluster] entry by a new object), so
    it is stored by value inside the [properties] cell. *)

Inductive cell : Type :=
  | CSchema (s : ToolInputSchema)
  | CProps (m : gmap string PropertySchema)
  | CRequired (l : list string).

Abbreviation heap := (gmap loc cell).

(** Heap computations: a state monad over the heap that gets stuck ([None])
    on a dangling reference or on a cell of the wrong kind, where the
    JavaScript would raise a [TypeError] or read a field of another type. *)
Definition Heap (A : Type) : Type := heap -> option (A * heap).

Definition hret {A} (a : A) : Heap A := fun h => Some (a, h).

Definition hbind {A B} (m : Heap A) (k : A -> Heap B) : Heap B :=
  fun h => match m h with
           | Some (a, h') => k a h'
           | None => None
           end.

Declare Scope heap_scope.
Delimit Scope heap_scope with heap.
Notation "x <- m ;; k" := (hbind m (fun x => k))
  (at level 100, m at next level, right associativity) : heap_scope.
Notation "m ;;; k" := (hbind m (fun _ => k))
  (at level 100, right associativity) : heap_scope.

(** A new object. *)
Definition alloc (c : cell) : Heap loc :=
  fun h => let l := fresh (dom h) in Some (l, <[l := c]> h).

Definition readSchema (l : loc) : Heap ToolInputSchema :=
  fun h => match h !! l with Some (CSchema s) => Some (s, h) | _ => None end.

Definition readProps (l : loc) : Heap (gmap string PropertySchema) :=
  fun h => match h !! l with Some (CProps m) => Some (m, h) | _ => None end.

Definition readRequired (l : loc) : Heap (list string) :=
  fun h => match h !! l with Some (CRequired r) => Some (r, h) | _ => None end.

(** An assignment through a reference to an existing object. *)
Definition write (l : loc) (c : cell) : Heap unit :=
  fun h => match h !! l with Some _ => Some (tt, <[l := c]> h) | None => None end.

(** The copy that [structuredClone] makes of an optional [properties]
    child, and of an optional [required] child. *)
Definition cloneProps (r : option loc) : Heap (option loc) :=
  match r with
  | None => hret None
  | Some lp => (m <- readProps lp ;; lp' <- alloc (CProps m) ;; hret (Some lp'))%heap
  end.

Definition cloneRequired (r : option loc) : Heap (option loc) :=
  match r with
  | None => hret None
  | Some lr => (q <- readRequired lr ;; lr' <- alloc (CRequired q) ;; hret (Some lr'))%heap
  end.

(** [structuredClone(schema)]: a new schema object whose [properties] and
    [required] children are new objects with the same contents. *)
Definition structuredClone (l : loc) : Heap loc :=
  (s <- readSchema l ;;
   ps <- cloneProps (properties s) ;;
   rq <- cloneRequired (required s) ;;
   alloc (CSchema {| properties := ps; required := rq;
                     additionalProperties := additionalProperties s |}))%heap.

(** ** Reading a schema off the heap *)

(** A schema as a value: what [JSON.stringify] would show of it. *)
Record SchemaValue : Type := {
  v_properties : option (gmap string PropertySchema);
  v_required : option (list string);
  v_additionalProperties : option bool
}.

(** An optional child reference [r] leads to the contents [v]. *)
Definition childAt {A} (inj : A -> cell) (h : heap) (r : option loc) (v : option A)
    : Prop :=
  match r, v with
  | None, None => True
  | Some l, Some a => h !! l = Some (inj a)
  | _, _ => False
  end.

(** The schema object at [l] has the value [v]. *)
Definition schemaAt (h : heap) (l : loc) (v : SchemaValue) : Prop :=
  exists s, h !! l = Some (CSchema s)
            /\ childAt CProps h (properties s) (v_properties v)
            /\ childAt CRequired h (required s) (v_required v)
            /\ additionalProperties s = v_additionalProperties v.

(** Every object of [h] is in [h'] as it was: nothing that existed was
    assigned to. *)
Definition preserves (h h' : heap) : Prop :=
  forall l, l ∈ dom h -> h' !! l = h !! l.

(** A child like [childAt], made after the heap [h0] was. *)
Definition ownedChild {A} (inj : A -> cell) (h0 h : heap) (r : option loc)
    (v : option A) : Prop :=
  match r, v with
  | None, None => True
  | Some l, Some a => (l ∉ dom h0) /\ h !! l = Some (inj a)
  | _, _ => False
  end.

(** The state of a rewrite in progress: the schema at [ls], with children
    [rp] and [rr], was made after [h0], and nothing of [h0] has changed. *)
Definition rewriting (h0 h : heap) (ls : loc) (rp rr : option loc)
    (ps : option (gmap string PropertySchema)) (rq : option (list string))
    (ap : option bool) : Prop :=
  preserves h0 h
  /\ (ls ∉ dom h0)
  /\ h !! ls = Some (CSchema {| properties := rp; required := rr;
                               additionalProperties := ap |})
  /\ ownedChild CProps h0 h rp ps
  /\ ownedChild CRequired h0 h rr rq.

(** [xs.map(f)] for an [f] that works on the heap. *)
Fixpoint mapM {A B} (f : A -> Heap B) (xs : list A) : Heap (list B) :=
  match xs with
  | [] => hret []
  | x :: xs' => (y <- f x ;; ys <- mapM f xs' ;; hret (y :: ys))%heap
  end.

(** ** [DownstreamManager] (downstream-manager.ts) *)

(** A handle on an external resource: an MCP client, its transport, a child
    process. *)
Definition handle := nat.

Record DownstreamState : Type := {
  mapping : ClusterMapping;
  client : option handle;
  transport : option handle;
  process : option handle;
  status : ConnectionStatus;
  lastHeartbeat : option string;
  consecutiveFailures : nat;
  tools : list ToolDefinition;
  reconnecting : bool
}.

(** [Map<string, V>] in insertion order. *)
Module JsMap.
Section ops.
Context {V : Type}.
Definition t := list (string * V).

Fixpoint get (key : string) (m : t) : option V :=
  match m with
  | [] => None
  | (k, v) :: m' => if String.eqb k key then Some v else get key m'
  end.

Definition has (key : string) (m : t) : bool :=
  match get key m with Some _ => true | None => false end.

(** [m.set(key, v)]: a present key keeps its place, a new key goes last. *)
Fixpoint set (key : string) (v : V) (m : t) : t :=
  match m with
  | [] => [(key, v)]
  | (k, v') :: m' =>
      if String.eqb k key then (k, v) :: m' else (k, v') :: set key v m'
  end.

(** A field assignment through the reference stored under [key]. *)
Fixpoint update (key : string) (f : V -> V) (m : t) : t :=
  match m with
  | [] => []
  | (k, v) :: m' =>
      if String.eqb k key then (k, f v) :: m' else (k, v) :: update key f m'
  end.

Definition keys (m : t) : list string := map fst m.
Definition values (m : t) : list V := map snd m.
End ops.
Arguments t : clear implicits.
End JsMap.

Record DownstreamManager : Type := {
  _downstreams : JsMap.t DownstreamState;
  _config : RouterConfig
}.

(** What the manager and the router do to the outside, in order. *)
Inductive Event : Type :=
  (** [client.callTool({ name, arguments })] on a child *)
  | EvClientCallTool (c : handle) (toolName : string) (args : Args)
  (** [client.ping()] on a child *)
  | EvClientPing (c : handle)
  (** an invocation of [DownstreamManager.callTool] *)
  | EvCallTool (clusterUrl toolName : string) (args : Args)
  (** an invocation of [DownstreamManager.callToolOnAll] *)
  | EvCallToolOnAll (toolName : string) (args : Args).

(** How a request to a child ends. *)
Inductive CallOutcome : Type :=
  | CallReturned (content : option (list ToolContent)) (isError : option bool)
  | CallThrew (msg : string).

Inductive PingOutcome : Type :=
  | PingAnswered
  | PingThrew (msg : string)
  | PingTimedOut.

(** [_connectDownstream]: the spawn, the handshake and [tools/list] either
    all succeed or one of them throws. *)
Inductive ConnectOutcome : Type :=
  | ConnectOk (c tr : handle) (pr : option handle) (ts : list ToolDefinition)
  | ConnectThrew (msg : string).

Definition set_status (s : ConnectionStatus) (d : DownstreamState) : DownstreamState :=
  {| mapping := mapping d; client := client d; transport := transport d;
     process := process d; status := s; lastHeartbeat := lastHeartbeat d;
     consecutiveFailures := consecutiveFailures d; tools := tools d;
     reconnecting := reconnecting d |}.

Definition set_reconnecting (b : bool) (d : DownstreamState) : DownstreamState :=
  {| mapping := mapping d; client := client d; transport := transport d;
     process := process d; status := status d; lastHeartbeat := lastHeartbeat d;
     consecutiveFailures := consecutiveFailures d; tools := tools d;
     reconnecting := b |}.

(** [state.client = null; state.transport = null; state.process = null] *)
Definition drop_references (d : DownstreamState) : DownstreamState :=
  {| mapping := mapping d; client := None; transport := None;
     process := None; status := status d; lastHeartbeat := lastHeartbeat d;
     consecutiveFailures := consecutiveFailures d; tools := tools d;
     reconnecting := reconnecting d |}.

(** The assignments that end a successful [_connectDownstream]. *)
Definition connected_with (c tr : handle) (pr : option handle)
    (ts : list ToolDefinition) (now : string) (d : DownstreamState) : DownstreamState :=
  {| mapping := mapping d; client := Some c; transport := Some tr;
     process := pr; status := Connected; lastHeartbeat := Some now;
     consecutiveFailures := 0; tools := ts; reconnecting := reconnecting d |}.

(** The success branch of [ping]. *)
Definition heartbeat (now : string) (d : DownstreamState) : DownstreamState :=
  {| mapping := mapping d; client := client d; transport := transport d;
     process := process d; status := status d; lastHeartbeat := Some now;
     consecutiveFailures := 0; tools := tools d; reconnecting := reconnecting d |}.

(** The [catch] branch of [ping]. *)
Definition ping_failed (d : DownstreamState) : DownstreamState :=
  let n := S (consecutiveFailures d) in
  {| mapping := mapping d; client := client d; transport := transport d;
     process := process d;
     status := if (3 <=? n)%nat then Disconnected else Failed;
     lastHeartbeat := lastHeartbeat d;
     consecutiveFailures := n; tools := tools d; reconnecting := reconnecting d |}.

Definition with_downstreams (ds : JsMap.t DownstreamState) (m : DownstreamManager)
    : DownstreamManager :=
  {| _downstreams := ds; _config := _config m |}.

(** The state a new record starts in. *)
Definition initialState (mp : ClusterMapping) : DownstreamState :=
  {| mapping := mp; client := None; transport := None; process := None;
     status := Connecting; lastHeartbeat := None; consecutiveFailures := 0;
     tools := []; reconnecting := false |}.

(** [status === 'Connected' && client] *)
Definition isLive (d : DownstreamState) : bool :=
  bool_decide (status d = Connected) && bool_decide (is_Some (client d)).

(** The two refusals of [callTool], as the template strings word them. *)
Definition unknownClusterText (clusterUrl : string) (m : DownstreamManager) : string :=
  "Error: Unknown cluster " +:+ dquote +:+ clusterUrl +:+ dquote
  +:+ ". Available clusters: " +:+ JsString.join ", " (JsMap.keys (_downstreams m)).

Definition notConnectedText (clusterUrl : string) (st : ConnectionStatus) : string :=
  "Error: Downstream for cluster " +:+ dquote +:+ clusterUrl +:+ dquote
  +:+ " is not connected (status: " +:+ statusName st +:+ "). Try again later.".

(** The result of [callTool] when the client throws [msg]. *)
Definition callFailedText (toolName clusterUrl msg : string) : string :=
  "Error calling tool " +:+ dquote +:+ toolName +:+ dquote
  +:+ " on cluster " +:+ dquote +:+ clusterUrl +:+ dquote +:+ ": " +:+ msg.

(** The refusal of [callToolOnAll]. *)
Definition noEndpointsText : string :=
  "Error: No downstream MCP servers are currently connected.".

(** [Promise.allSettled] element. *)
Inductive Settled (A : Type) : Type :=
  | Fulfilled (value : A)
  | Rejected (reason : string).
Arguments Fulfilled {A} value.
Arguments Rejected {A} reason.

Section Manager.

(** The children, as oracles: what a client answers to a tool call and to
    a ping, and how a connection attempt for a key ends. [now] is the
    reading of the clock, [new Date().toISOString()]. *)
Variable clientCallTool : handle -> string -> Args -> CallOutcome.
Variable clientPing : handle -> PingOutcome.
Variable connectDownstream : string -> ConnectOutcome.
Variable now : string.

Definition getClusterUrls (m : DownstreamManager) : list string :=
  JsMap.keys (_downstreams m).

(** One callback of [this._config.mappings.map(async (mapping) => ...)] in
    [initializeAll]. The callbacks touch disjoint records, so the state
    after [Promise.allSettled] is the one reached by running them one after
    the other. *)
Definition initializeOne (m : DownstreamManager) (mp : ClusterMapping)
    : DownstreamManager :=
  let key := normalizeClusterUrl (clusterUrl mp) in
  if JsMap.has key (_downstreams m) then m
  else
    let ds := JsMap.set key (initialState mp) (_downstreams m) in
    match connectDownstream key with
    | ConnectOk c tr pr ts =>
        with_downstreams (JsMap.update key (connected_with c tr pr ts now) ds) m
    | ConnectThrew _ =>
        with_downstreams (JsMap.update key (set_status Failed) ds) m
    end.

Definition initializeAll (m : DownstreamManager) : DownstreamManager :=
  fold_left initializeOne (mappings (_config m)) m.

(** The ['exit'] listener that [_connectDownstream] installs on the child. *)
Definition onProcessExit (key : string) (m : DownstreamManager) : DownstreamManager :=
  with_downstreams
    (JsMap.update key (fun d => drop_references (set_status Disconnected d))
       (_downstreams m)) m.

Definition reconnect (clusterUrl : string) (m : DownstreamManager)
    : bool * DownstreamManager :=
  let key := normalizeClusterUrl clusterUrl in
  match JsMap.get key (_downstreams m) with
  | None => (false, m)
  | Some state =>
      if reconnecting state then (false, m)
      else
        (* state.reconnecting = true; _cleanupDownstream(state) *)
        let ds := JsMap.update key
                    (fun d => drop_references (set_reconnecting true d))
                    (_downstreams m) in
        match connectDownstream key with
        | ConnectOk c tr pr ts =>
            (true,
             with_downstreams
               (JsMap.update key
                  (fun d => set_reconnecting false (connected_with c tr pr ts now d))
                  ds) m)
        | ConnectThrew _ =>
            (false,
             with_downstreams
               (JsMap.update key
                  (fun d => set_reconnecting false (set_status Failed d)) ds) m)
        end
  end.

Definition ping (clusterUrl : string) (m : DownstreamManager)
    : bool * DownstreamManager * list Event :=
  let key := normalizeClusterUrl clusterUrl in
  match JsMap.get key (_downstreams m) with
  | None => (false, m, [])
  | Some state =>
      match client state with
      | None => (false, m, [])
      | Some c =>
          if bool_decide (status state = Connected) then
            match clientPing c with
            | PingAnswered =>
                (true,
                 with_downstreams
                   (JsMap.update key (heartbeat now) (_downstreams m)) m,
                 [EvClientPing c])
            | PingThrew _ | PingTimedOut =>
                (false,
                 with_downstreams
                   (JsMap.update key ping_failed (_downstreams m)) m,
                 [EvClientPing c])
            end
          else (false, m, [])
      end
  end.

Definition callTool (clusterUrl toolName : string) (args : Args)
    (m : DownstreamManager) : ToolCallResult * list Event :=
  let key := normalizeClusterUrl clusterUrl in
  match JsMap.get key (_downstreams m) with
  | None =>
      (textError (unknownClusterText clusterUrl m),
       [EvCallTool clusterUrl toolName args])
  | Some state =>
      match client state with
      | Some c =>
          if bool_decide (status state = Connected) then
            match clientCallTool c toolName args with
            | CallReturned cont err =>
                ({| content := default [] cont; isError := err |},
                 [EvCallTool clusterUrl toolName args;
                  EvClientCallTool c toolName args])
            | CallThrew msg =>
                (textError (callFailedText toolName clusterUrl msg),
                 [EvCallTool clusterUrl toolName args;
                  EvClientCallTool c toolName args])
            end
          else
            (textError (notConnectedText clusterUrl (status state)),
             [EvCallTool clusterUrl toolName args])
      | None =>
          (textError (notConnectedText clusterUrl (status state)),
           [EvCallTool clusterUrl toolName args])
      end
  end.

(** The entries that [callToolOnAll] keeps. *)
Definition connectedDownstreams (m : DownstreamManager)
    : list (string * DownstreamState) :=
  filter (fun e => isLive e.2) (_downstreams m).

(** The merging loop of [callToolOnAll] over the settled promises. *)
Fixpoint mergeResults (results : list (Settled ToolCallResult))
    (mergedContent : list ToolContent) (hasError : bool)
    : list ToolContent * bool :=
  match results with
  | [] => (mergedContent, hasError)
  | Fulfilled value :: rest =>
      mergeResults rest (mergedContent ++ content value)
        (if default false (isError value) then true else hasError)
  | Rejected reason :: rest =>
      mergeResults rest
        (mergedContent ++ [textContent ("Error from one downstream: " +:+ reason)])
        true
  end.

Definition callToolOnAll (toolName : string) (args : Args)
    (m : DownstreamManager) : ToolCallResult * list Event :=
  let connected := connectedDownstreams m in
  match connected with
  | [] =>
      (textError noEndpointsText,
       [EvCallToolOnAll toolName args])
  | _ =>
      (* [callTool] catches what the client throws, so every promise is
         fulfilled *)
      let calls := map (fun e => callTool e.1 toolName args m) connected in
      let results := map (fun r => Fulfilled r.1) calls in
      let '(mergedContent, hasError) := mergeResults results [] false in
      ({| content := mergedContent; isError := Some hasError |},
       EvCallToolOnAll toolName args :: concat (map snd calls))
  end.

Definition getToolDefinitions (m : DownstreamManager) : list ToolDefinition :=
  match
    List.find (fun d => bool_decide (status d = Connected)
                        && (0 <? length (tools d))%nat)
      (JsMap.values (_downstreams m))
  with
  | Some d => tools d
  | None => []
  end.

Definition getStatus (clusterUrl : string) (m : DownstreamManager)
    : option ConnectionStatus :=
  status <$> JsMap.get (normalizeClusterUrl clusterUrl) (_downstreams m).

Definition shutdownAll (m : DownstreamManager) : DownstreamManager :=
  with_downstreams [] m.

End Manager.

(** ** [ToolRouter] (tool-router.ts) *)

Record ToolRouter : Type := {
  _mergedTools : list ToolDefinition;
  _routableTools : gset string;
  _fanOutTools : gset string
}.

(** The router as its constructor leaves it. *)
Definition newToolRouter : ToolRouter :=
  {| _mergedTools := []; _routableTools := ∅; _fanOutTools := ∅ |}.

Definition with_properties (lp : loc) (s : ToolInputSchema) : ToolInputSchema :=
  {| properties := Some lp; required := required s;
     additionalProperties := additionalProperties s |}.

Definition with_required (lr : loc) (s : ToolInputSchema) : ToolInputSchema :=
  {| properties := properties s; required := Some lr;
     additionalProperties := additionalProperties s |}.

(** [if (!schema.properties) { schema.properties = {}; }], then the
    reference [schema.properties]. *)
Definition ensureProperties (schema : loc) : Heap loc :=
  (s <- readSchema schema ;;
   match properties s with
   | Some lp => hret lp
   | None =>
       lp <- alloc (CProps ∅) ;;
       write schema (CSchema (with_properties lp s)) ;;;
       hret lp
   end)%heap.

(** [if (!schema.required) { schema.required = []; }], then the reference
    [schema.required]. *)
Definition ensureRequired (schema : loc) : Heap loc :=
  (s <- readSchema schema ;;
   match required s with
   | Some lr => hret lr
   | None =>
       lr <- alloc (CRequired []) ;;
       write schema (CSchema (with_required lr s)) ;;;
       hret lr
   end)%heap.

Definition routableClusterDescription (clusterUrls : list string) : string :=
  "The Kusto cluster URL to query. Must be one of the available clusters: "
  +:+ JsString.join ", " clusterUrls.

Definition fanOutClusterDescription (clusterUrls : list string) : string :=
  "Optional: specify a Kusto cluster URL to query only that cluster. If omitted, queries all clusters. Available: "
  +:+ JsString.join ", " clusterUrls.

(** [tool.description ? `${tool.description}${suffix}` : fallback] *)
Definition describe (d : option string) (suffix fallback : string) : string :=
  match d with
  | Some t => if JsString.truthy t then t +:+ suffix else fallback
  | None => fallback
  end.

Definition _enhanceRoutableTool (tool : ToolDefinition) (clusterUrls : list string)
    : Heap ToolDefinition :=
  (schema <- structuredClone (inputSchema tool) ;;
   lp <- ensureProperties schema ;;
   props <- readProps lp ;;
   let existingCluster := props !! "cluster" in
   write lp
     (CProps (<["cluster" :=
                 {| p_type := Some "string";
                    p_description := Some (routableClusterDescription clusterUrls);
                    p_enum := Some clusterUrls;
                    p_rest := match existingCluster with
                              | Some p => p_rest p
                              | None => []
                              end |}]> props)) ;;;
   lr <- ensureRequired schema ;;
   req <- readRequired lr ;;
   (if bool_decide ("cluster" ∈ req) then hret tt
    else write lr (CRequired (req ++ ["cluster"]))) ;;;
   hret {| name := name tool;
           description :=
             Some (describe (description tool)
                     " (Routed to the specified cluster)"
                     "Kusto tool routed to the specified cluster");
           inputSchema := schema |})%heap.

Definition _enhanceFanOutTool (tool : ToolDefinition) (clusterUrls : list string)
    : Heap ToolDefinition :=
  (schema <- structuredClone (inputSchema tool) ;;
   lp <- ensureProperties schema ;;
   props <- readProps lp ;;
   write lp
     (CProps (<["cluster" :=
                 {| p_type := Some "string";
                    p_description := Some (fanOutClusterDescription clusterUrls);
                    p_enum := Some clusterUrls;
                    p_rest := [] |}]> props)) ;;;
   hret {| name := name tool;
           description :=
             Some (describe (description tool)
                     " (Queries all available clusters unless a specific cluster is specified)"
                     "Lists Kusto clusters across all available connections");
           inputSchema := schema |})%heap.

(** [tool.inputSchema.properties?.['cluster']], as a condition. A property
    schema is an object, and an object is truthy. *)
Definition hasClusterProperty (tool : ToolDefinition) : Heap bool :=
  (s <- readSchema (inputSchema tool) ;;
   match properties s with
   | None => hret false
   | Some lp =>
       props <- readProps lp ;;
       hret (bool_decide (is_Some (props !! "cluster")))
   end)%heap.

(** The classification loop of [refreshTools]. *)
Fixpoint classify (baseTools : list ToolDefinition) (routable fanOut : gset string)
    : Heap (gset string * gset string) :=
  match baseTools with
  | [] => hret (routable, fanOut)
  | tool :: rest =>
      (b <- hasClusterProperty tool ;;
       if b then classify rest ({[name tool]} ∪ routable) fanOut
       else classify rest routable ({[name tool]} ∪ fanOut))%heap
  end.

(** The callback of [baseTools.map] in [refreshTools]. *)
Definition enhance (routable : gset string) (clusterUrls : list string)
    (tool : ToolDefinition) : Heap ToolDefinition :=
  if bool_decide (name tool ∈ routable)
  then _enhanceRoutableTool tool clusterUrls
  else _enhanceFanOutTool tool clusterUrls.

Definition refreshTools (m : DownstreamManager) (r : ToolRouter) : Heap ToolRouter :=
  let baseTools := getToolDefinitions m in
  match baseTools with
  | [] =>
      hret {| _mergedTools := []; _routableTools := _routableTools r;
              _fanOutTools := _fanOutTools r |}
  | _ =>
      let clusterUrls := getClusterUrls m in
      (sets <- classify baseTools ∅ ∅ ;;
       merged <- mapM (enhance sets.1 clusterUrls) baseTools ;;
       hret {| _mergedTools := merged; _routableTools := sets.1;
               _fanOutTools := sets.2 |})%heap
  end.

Definition getTools (r : ToolRouter) : list ToolDefinition := _mergedTools r.

(** How a call of an [async] router method settles: with a result, or
    rejected by a [TypeError] raised on the way. *)
Inductive Completion (A : Type) : Type :=
  | Normal (value : A)
  | ThrewTypeError (msg : string).
Arguments Normal {A} value.
Arguments ThrewTypeError {A} msg.

Section Router.

Variable clientCallTool : handle -> string -> Args -> CallOutcome.

Definition notConfigured (cluster : string) (clusterUrls : list string)
    : ToolCallResult :=
  textError ("Error: Cluster " +:+ dquote +:+ cluster +:+ dquote
             +:+ " is not configured. Available clusters: "
             +:+ JsString.join ", " clusterUrls).

(** [clusterUrls.find((url) => url === normalizedCluster)] *)
Definition findCluster (normalizedCluster : string) (clusterUrls : list string)
    : option string :=
  List.find (fun url => String.eqb url normalizedCluster) clusterUrls.

Definition _routeToCluster (toolName : string) (args : Args)
    (m : DownstreamManager) : Completion ToolCallResult * list Event :=
  let cluster := args !! "cluster" in
  if negb (truthy_opt cluster) then
    (Normal
       (textError ("Error: The " +:+ dquote +:+ "cluster" +:+ dquote
                   +:+ " parameter is required for tool " +:+ dquote
                   +:+ toolName +:+ dquote +:+ ". Available clusters: "
                   +:+ JsString.join ", " (getClusterUrls m))),
     [])
  else
    match cluster with
    | Some (JStr c) =>
        let normalizedCluster := normalizeClusterUrl c in
        let clusterUrls := getClusterUrls m in
        match findCluster normalizedCluster clusterUrls with
        | Some matchedCluster =>
            if JsString.truthy matchedCluster then
              let r := callTool clientCallTool matchedCluster toolName args m in
              (Normal r.1, r.2)
            else (Normal (notConfigured c clusterUrls), [])
        | None => (Normal (notConfigured c clusterUrls), [])
        end
    | _ =>
        (* a truthy value that is not a string has no [trim] method *)
        (ThrewTypeError "url.trim is not a function", [])
    end.

Definition _routeFanOut (toolName : string) (args : Args)
    (m : DownstreamManager) : Completion ToolCallResult * list Event :=
  let cluster := args !! "cluster" in
  if truthy_opt cluster then
    match cluster with
    | Some (JStr c) =>
        let normalizedCluster := normalizeClusterUrl c in
        let clusterUrls := getClusterUrls m in
        match findCluster normalizedCluster clusterUrls with
        | Some matchedCluster =>
            if JsString.truthy matchedCluster then
              let forwardArgs := delete "cluster" args in
              let r := callTool clientCallTool matchedCluster toolName forwardArgs m in
              (Normal r.1, r.2)
            else (Normal (notConfigured c clusterUrls), [])
        | None => (Normal (notConfigured c clusterUrls), [])
        end
    | _ => (ThrewTypeError "url.trim is not a function", [])
    end
  else
    let forwardArgs := delete "cluster" args in
    let r := callToolOnAll clientCallTool toolName forwardArgs m in
    (Normal r.1, r.2).

Definition unknownTool (toolName : string) (r : ToolRouter) : ToolCallResult :=
  textError ("Error: Unknown tool " +:+ dquote +:+ toolName +:+ dquote
             +:+ ". Available tools: "
             +:+ JsString.join ", " (map name (_mergedTools r))).

Definition routeCall (r : ToolRouter) (toolName : string) (args : Args)
    (m : DownstreamManager) : Completion ToolCallResult * list Event :=
  let isRoutable := bool_decide (toolName ∈ _routableTools r) in
  let isFanOut := bool_decide (toolName ∈ _fanOutTools r) in
  if isRoutable then _routeToCluster toolName args m
  else if isFanOut then _routeFanOut toolName args m
  else if truthy_opt (args !! "cluster") then _routeToCluster toolName args m
  else (Normal (unknownTool toolName r), []).

End Router.

(** ** [HealthMonitor] (health-monitor.ts) *)

(** The delay that [setTimeout(callback, ms)] waits: Node replaces a delay
    below 1 ms or above 2^31-1 ms by 1 ms. *)
Definition timeoutDelay (ms : Z) : Z :=
  if ((ms <? 1) || (2147483647 <? ms))%Z then 1%Z else ms.

(** A pending [setTimeout]: the delay it waits, and the [currentBackoff] that
    its callback has captured. *)
Record ReconnectTimer : Type := {
  delayMs : Z;
  currentBackoff : Z
}.

Record HealthMonitor : Type := {
  _interval : option Z;
  _reconnectBackoffs : gmap string Z;
  _reconnectTimers : gmap string ReconnectTimer;
  _running : bool;
  h_config : RouterConfig
}.

Definition newHealthMonitor (cfg : RouterConfig) : HealthMonitor :=
  {| _interval := None; _reconnectBackoffs := ∅; _reconnectTimers := ∅;
     _running := false; h_config := cfg |}.

Definition with_backoffs (b : gmap string Z) (h : HealthMonitor) : HealthMonitor :=
  {| _interval := _interval h; _reconnectBackoffs := b;
     _reconnectTimers := _reconnectTimers h; _running := _running h;
     h_config := h_config h |}.

Definition with_timers (t : gmap string ReconnectTimer) (h : HealthMonitor)
    : HealthMonitor :=
  {| _interval := _interval h; _reconnectBackoffs := _reconnectBackoffs h;
     _reconnectTimers := t; _running := _running h; h_config := h_config h |}.

Definition start (h : HealthMonitor) : HealthMonitor :=
  if _running h then h
  else {| _interval := Some (timeoutDelay (pingIntervalSeconds (h_config h) * 1000));
          _reconnectBackoffs := _reconnectBackoffs h;
          _reconnectTimers := _reconnectTimers h;
          _running := true; h_config := h_config h |}.

Definition stop (h : HealthMonitor) : HealthMonitor :=
  if negb (_running h) then h
  else {| _interval := None; _reconnectBackoffs := ∅; _reconnectTimers := ∅;
          _running := false; h_config := h_config h |}.

(** [_scheduleReconnect], up to the moment the timer is armed. *)
Definition _scheduleReconnect (clusterUrl : string) (h : HealthMonitor)
    : HealthMonitor :=
  match _reconnectTimers h !! clusterUrl with
  | Some _ => h
  | None =>
      let currentBackoff := default 1%Z (_reconnectBackoffs h !! clusterUrl) in
      let backoffMs := (currentBackoff * 1000)%Z in
      with_timers
        (<[clusterUrl := {| delayMs := timeoutDelay backoffMs;
                            currentBackoff := currentBackoff |}]>
           (_reconnectTimers h)) h
  end.

(** The timer callback, from the moment the timer fires to its [await]: the
    timer leaves the pending set, and the callback goes on to ask for a
    reconnect ([Some currentBackoff]) unless the monitor was stopped. *)
Definition timerFired (clusterUrl : string) (h : HealthMonitor)
    : option Z * HealthMonitor :=
  match _reconnectTimers h !! clusterUrl with
  | None => (None, h)
  | Some t =>
      let h' := with_timers (delete clusterUrl (_reconnectTimers h)) h in
      if negb (_running h') then (None, h') else (Some (currentBackoff t), h')
  end.

(** The timer callback after [await this._downstreamManager.reconnect(...)]
    has produced [success]. *)
Definition reconnectSettled (clusterUrl : string) (currentBackoff : Z)
    (success : bool) (h : HealthMonitor) : HealthMonitor :=
  if success then
    with_backoffs (delete clusterUrl (_reconnectBackoffs h)) h
  else
    let nextBackoff :=
      Z.min (currentBackoff * 2) (maxReconnectBackoffSeconds (h_config h)) in
    let h' := with_backoffs (<[clusterUrl := nextBackoff]> (_reconnectBackoffs h)) h in
    if _running h' then _scheduleReconnect clusterUrl h' else h'.

(** The listener that the constructor registers with [onDownstreamExit]. *)
Definition onDownstreamExit (clusterUrl : string) (h : HealthMonitor) : HealthMonitor :=
  if _running h then _scheduleReconnect clusterUrl h else h.

(** One turn of the loop of [_checkAll] for a connection whose snapshot
    status is [st], from the point where [ping] has returned [ok] (for a
    connection that is not [Connected] there is no ping, and the turn runs
    without interruption). The loop awaits each ping, so between two turns
    the monitor goes through whatever else happens meanwhile. *)
Definition checkOne (clusterUrl : string) (st : ConnectionStatus) (ok : bool)
    (h : HealthMonitor) : HealthMonitor :=
  match st with
  | Connected =>
      if negb ok then _scheduleReconnect clusterUrl h
      else with_backoffs (delete clusterUrl (_reconnectBackoffs h)) h
  | Failed | Disconnected =>
      match _reconnectTimers h !! clusterUrl with
      | None => _scheduleReconnect clusterUrl h
      | Some _ => h
      end
  | Connecting => h
  end.

(** ** Observations on traces and messages *)

Definition isClientCall (e : Event) : bool :=
  match e with EvClientCallTool _ _ _ => true | _ => false end.

Definition isManagerCall (e : Event) : bool :=
  match e with EvCallTool _ _ _ | EvCallToolOnAll _ _ => true | _ => false end.

(** The arguments that an event carries to its callee. *)
Definition eventArgs (e : Event) : option Args :=
  match e with
  | EvClientCallTool _ _ a | EvCallTool _ _ a | EvCallToolOnAll _ a => Some a
  | EvClientPing _ => None
  end.

(** A message mentions every string of a list. *)
Definition mentionsAll (text : string) (items : list string) : Prop :=
  Forall (fun u => JsString.includes text u = true) items.

(** ** Sample configurations, used to run the definitions *)

Module Sample.

Definition c1 : string := "https://c1.example".
Definition c2 : string := "https://c2.example".

Definition cfg : RouterConfig :=
  {| mappings := [ {| clusterUrl := c1; identity := "id1" |};
                   {| clusterUrl := c2; identity := EmptyString |} ];
     readOnly := true; pingIntervalSeconds := 60; pingTimeoutSeconds := 10;
     maxReconnectBackoffSeconds := 300 |}.

Definition record (url : string) (c : option handle) (st : ConnectionStatus)
    (failures : nat) (ts : list ToolDefinition) : DownstreamState :=
  {| mapping := {| clusterUrl := url; identity := EmptyString |};
     client := c; transport := c; process := c; status := st;
     lastHeartbeat := None; consecutiveFailures := failures; tools := ts;
     reconnecting := false |}.

(** Both endpoints connected. *)
Definition bothUp (ts : list ToolDefinition) : DownstreamManager :=
  {| _downstreams := [ (c1, record c1 (Some 1) Connected 0 ts);
                       (c2, record c2 (Some 2) Connected 0 ts) ];
     _config := cfg |}.

(** The first endpoint has failed a ping, the second is connected. *)
Definition firstDown (ts : list ToolDefinition) : DownstreamManager :=
  {| _downstreams := [ (c1, record c1 (Some 1) Failed 1 ts);
                       (c2, record c2 (Some 2) Connected 0 ts) ];
     _config := cfg |}.

(** A child that answers every call with one text item naming its client. *)
Definition answering (c : handle) (toolName : string) (args : Args) : CallOutcome :=
  CallReturned
    (Some [textContent (if (c =? 1)%nat then "rows of c1" else "rows of c2")])
    None.

(** A child behind client 1 whose transport throws; the other answers. *)
Definition firstThrows (c : handle) (toolName : string) (args : Args) : CallOutcome :=
  if (c =? 1)%nat then CallThrew "connection closed" else answering c toolName args.

(** A configuration that names the first endpoint twice. *)
Definition dupCfg : RouterConfig :=
  {| mappings := [ {| clusterUrl := c1; identity := "id1" |};
                   {| clusterUrl := "HTTPS://C2.example/"; identity := EmptyString |};
                   {| clusterUrl := "https://C1.example"; identity := "id3" |} ];
     readOnly := true; pingIntervalSeconds := 60; pingTimeoutSeconds := 10;
     maxReconnectBackoffSeconds := 300 |}.

(** Every connection attempt succeeds; the client of [c1] is 1, any other
    is 2. No tools are reported. *)
Definition connects (key : string) : ConnectOutcome :=
  if String.eqb key c1 then ConnectOk 1 1 (Some 1) [] else ConnectOk 2 2 (Some 2) [].

(** A router that knows one routable and one fan-out tool, as after a
    refresh over the tools of scenario 3 of the specification. *)
Definition router : ToolRouter :=
  {| _mergedTools :=
       [ {| name := "kusto_query"; description := None; inputSchema := 1%positive |};
         {| name := "kusto_cluster_list"; description := None;
            inputSchema := 2%positive |} ];
     _routableTools := {["kusto_query"]};
     _fanOutTools := {["kusto_cluster_list"]} |}.

Definition queryArgs : Args :=
  <["cluster" := JStr "https://C1.EXAMPLE/"]>
    (<["database" := JStr "d"]> (<["query" := JStr "Q"]> ∅)).

Definition listArgs : Args := <["subscriptionId" := JStr "s"]> ∅.

Definition listArgsOn (cluster : string) : Args :=
  <["cluster" := JStr cluster]> listArgs.

(** The configuration of the health monitor's unit tests. *)
Definition testCfg : RouterConfig :=
  {| mappings := []; readOnly := true; pingIntervalSeconds := 1;
     pingTimeoutSeconds := 5; maxReconnectBackoffSeconds := 10 |}.

(** A running monitor with one reconnect scheduled for [c1]. *)
Definition scheduled : HealthMonitor :=
  _scheduleReconnect c1 (start (newHealthMonitor testCfg)).

(** The tools of the router's unit tests, and their schemas on a heap. *)
Definition stringProp (d : string) : PropertySchema :=
  {| p_type := Some "string"; p_description := Some d; p_enum := None;
     p_rest := [] |}.

Definition queryProps : gmap string PropertySchema :=
  <["cluster" := stringProp "Kusto cluster URL"]>
    (<["database" := stringProp "Database name"]>
       (<["query" := stringProp "KQL query"]> ∅)).

Definition listProps : gmap string PropertySchema :=
  <["subscriptionId" := stringProp "Azure subscription ID"]> ∅.

Definition queryValue : SchemaValue :=
  {| v_properties := Some queryProps;
     v_required := Some ["cluster"; "database"; "query"];
     v_additionalProperties := None |}.

Definition listValue : SchemaValue :=
  {| v_properties := Some listProps;
     v_required := Some ["subscriptionId"];
     v_additionalProperties := None |}.

Definition heap0 : heap :=
  <[1%positive := CSchema {| properties := Some 2%positive;
                              required := Some 3%positive;
                              additionalProperties := None |}]>
    (<[2%positive := CProps queryProps]>
       (<[3%positive := CRequired ["cluster"; "database"; "query"]]>
          (<[4%positive := CSchema {| properties := Some 5%positive;
                                      required := Some 6%positive;
                                      additionalProperties := None |}]>
             (<[5%positive := CProps listProps]>
                (<[6%positive := CRequired ["subscriptionId"]]> ∅))))).

Definition kusto_query : ToolDefinition :=
  {| name := "kusto_query";
     description := Some "Execute a KQL query against an Azure Data Explorer cluster";
     inputSchema := 1%positive |}.

Definition kusto_cluster_list : ToolDefinition :=
  {| name := "kusto_cluster_list";
     description := Some "List available Kusto clusters";
     inputSchema := 4%positive |}.

(** A tool that takes a [cluster] and comes without a description. *)
Definition kusto_sample : ToolDefinition :=
  {| name := "kusto_sample"; description := None; inputSchema := 1%positive |}.

Definition tools : list ToolDefinition := [kusto_query; kusto_cluster_list].

(** A configuration whose only mapping is a bare scheme. *)
Definition schemeOnlyCfg : RouterConfig :=
  {| mappings := [ {| clusterUrl := "https://"; identity := EmptyString |} ];
     readOnly := true; pingIntervalSeconds := 60; pingTimeoutSeconds := 10;
     maxReconnectBackoffSeconds := 300 |}.

End Sample.

(** The refusal that the specification describes for call-on-one: no call
    reaches a child, and the result is one text item, flagged as an error,
    that mentions every configured endpoint. *)
Definition refusesListingEndpoints (r : ToolCallResult * list Event)
    (m : DownstreamManager) : Prop :=
  filter isClientCall r.2 = []
  /\ isError r.1 = Some true
  /\ exists text, content r.1 = [textContent text]
                  /\ mentionsAll text (JsMap.keys (_downstreams m)).

(** [result.value.isError], as the condition of an [if]. *)
Definition flagged (r : ToolCallResult) : bool := default false (isError r).

(** The per-endpoint results of a fan-out, in the order of the calls. *)
Definition perEndpoint (clientCallTool : handle -> string -> Args -> CallOutcome)
    (toolName : string) (args : Args) (m : DownstreamManager)
    : list ToolCallResult :=
  map (fun e => (callTool clientCallTool e.1 toolName args m).1)
    (connectedDownstreams m).

(** The order in which [initializeAll] meets distinct keys: every key at its
    first occurrence. *)
Fixpoint keepFirst (l : list string) : list string :=
  match l with
  | [] => []
  | x :: rest => x :: filter (fun y => negb (String.eqb y x)) (keepFirst rest)
  end.

(** The normalized endpoint URLs of a configuration, duplicates dropped. *)
Definition configuredOrder (cfg : RouterConfig) : list string :=
  keepFirst (map (fun mp => normalizeClusterUrl (clusterUrl mp)) (mappings cfg)).

(** The record stored under a key is connected with a live client. *)
Definition liveAt (m : DownstreamManager) (key : string) : bool :=
  match JsMap.get key (_downstreams m) with
  | Some st => isLive st
  | None => false
  end.

(** The manager as its constructor leaves it. *)
Definition newDownstreamManager (cfg : RouterConfig) : DownstreamManager :=
  {| _downstreams := []; _config := cfg |}.

(** [ping] around its [await]. Up to it the record is looked up and tested,
    and the request goes to the client of the record; the manager is not
    written to. *)
Definition pingBegin (clusterUrl : string) (m : DownstreamManager) : option handle :=
  match JsMap.get (normalizeClusterUrl clusterUrl) (_downstreams m) with
  | None => None
  | Some state =>
      match client state with
      | None => None
      | Some c => if bool_decide (status state = Connected) then Some c else None
      end
  end.

(** After the [await] the record that was looked up is written to, whatever
    has happened to it in the meantime: the heartbeat and a zero count when
    the client answered, the [catch] branch when it threw or timed out. *)
Definition pingSettled (now : string) (clusterUrl : string) (answered : bool)
    (m : DownstreamManager) : DownstreamManager :=
  with_downstreams
    (JsMap.update (normalizeClusterUrl clusterUrl)
       (if answered then heartbeat now else ping_failed) (_downstreams m)) m.

(** What can happen to a manager after startup: a ping that settles, a
    reconnect, the exit of a child. Each comes with its own answers from the
    outside. Pings of one endpoint may overlap (the ticker does not wait for
    the previous tick), so a ping settles in a state that other steps have
    changed since it began. The relation does not record which pings are in
    flight: it lets a ping settle at any time, which admits every run of the
    program. *)
Inductive managerStep : DownstreamManager -> DownstreamManager -> Prop :=
  | step_ping_settled now url answered m :
      managerStep m (pingSettled now url answered m)
  | step_reconnect connect now url m :
      managerStep m (reconnect connect now url m).2
  | step_exit key m :
      managerStep m (onProcessExit key m).

(** The managers that a run of the program goes through. *)
Inductive reachable (cfg : RouterConfig) : DownstreamManager -> Prop :=
  | reach_init connect now :
      reachable cfg (initializeAll connect now (newDownstreamManager cfg))
  | reach_step m m' :
      reachable cfg m -> managerStep m m' -> reachable cfg m'.

(** What [initializeAll] does to the list of keys, one mapping at a time. *)
Definition addKey (keys : list string) (k : string) : list string :=
  if bool_decide (k ∈ keys) then keys else keys ++ [k].

(** The arguments that the downstream receives are the caller's without the
    key [cluster]. *)
Definition strippedOf (args fwd : Args) : Prop :=
  fwd !! "cluster" = None
  /\ forall k : string, k <> "cluster" -> fwd !! k = args !! k.

(** C7 as stated: an unknown tool called with a [cluster] key goes through
    route-to-one. *)
Definition unknownWithClusterIsRouted
    (clientCallTool : handle -> string -> Args -> CallOutcome)
    (r : ToolRouter) (toolName : string) (args : Args) (m : DownstreamManager)
    : Prop :=
  toolName ∉ _routableTools r -> toolName ∉ _fanOutTools r ->
  is_Some (args !! "cluster") ->
  routeCall clientCallTool r toolName args m
  = _routeToCluster clientCallTool toolName args m.

(** The delays of successive reconnect attempts that all fail, in seconds. *)
Fixpoint backoffAfter (maxBackoff : Z) (failures : nat) : Z :=
  match failures with
  | O => 1
  | S n => Z.min (backoffAfter maxBackoff n * 2) maxBackoff
  end.

(** The timer that [_scheduleReconnect] arms for a backoff of [b] seconds. *)
Definition timerFor (b : Z) : ReconnectTimer :=
  {| delayMs := timeoutDelay (b * 1000); currentBackoff := b |}.

(** What the routable rewrite makes of the [cluster] entry. *)
Definition routableClusterProperty (existingCluster : option PropertySchema)
    (clusterUrls : list string) : PropertySchema :=
  {| p_type := Some "string";
     p_description := Some (routableClusterDescription clusterUrls);
     p_enum := Some clusterUrls;
     p_rest := match existingCluster with
               | Some p => p_rest p
               | None => []
               end |}.

(** The routable rewrite, on a schema as a value. *)
Definition enhanceRoutableValue (clusterUrls : list string) (v : SchemaValue)
    : SchemaValue :=
  let props := default ∅ (v_properties v) in
  let req := default [] (v_required v) in
  {| v_properties :=
       Some (<["cluster" := routableClusterProperty (props !! "cluster") clusterUrls]>
               props);
     v_required :=
       Some (if bool_decide ("cluster" ∈ req) then req else req ++ ["cluster"]);
     v_additionalProperties := v_additionalProperties v |}.

(** What the fan-out rewrite puts under [cluster]. *)
Definition fanOutClusterProperty (clusterUrls : list string) : PropertySchema :=
  {| p_type := Some "string";
     p_description := Some (fanOutClusterDescription clusterUrls);
     p_enum := Some clusterUrls;
     p_rest := [] |}.

(** The fan-out rewrite, on a schema as a value. *)
Definition enhanceFanOutValue (clusterUrls : list string) (v : SchemaValue)
    : SchemaValue :=
  {| v_properties :=
       Some (<["cluster" := fanOutClusterProperty clusterUrls]>
               (default ∅ (v_properties v)));
     v_required := v_required v;
     v_additionalProperties := v_additionalProperties v |}.

(** The schema object at [l] and its children were made after [h0]. *)
Definition madeAfter (h0 h' : heap) (l : loc) : Prop :=
  (l ∉ dom h0)
  /\ forall s, h' !! l = Some (CSchema s) ->
       (forall lp, properties s = Some lp -> lp ∉ dom h0)
       /\ (forall lr, required s = Some lr -> lr ∉ dom h0).

(** The source tool [tool], whose schema is in [h0], and the tool [t'] that
    a refresh made of it, whose schema is in [h']. *)
Definition enhanced (routable : gset string) (clusterUrls : list string)
    (h0 h' : heap) (tool t' : ToolDefinition) : Prop :=
  name t' = name tool
  /\ madeAfter h0 h' (inputSchema t')
  /\ exists v,
       schemaAt h0 (inputSchema tool) v
       /\ if bool_decide (name tool ∈ routable)
          then schemaAt h' (inputSchema t') (enhanceRoutableValue clusterUrls v)
               /\ description t'
                  = Some (describe (description tool)
                            " (Routed to the specified cluster)"
                            "Kusto tool routed to the specified cluster")
          else schemaAt h' (inputSchema t') (enhanceFanOutValue clusterUrls v)
               /\ description t'
                  = Some (describe (description tool)
                            " (Queries all available clusters unless a specific cluster is specified)"
                            "Lists Kusto clusters across all available connections").

(** The schema of a tool declares a property named [cluster]. *)
Definition declaresCluster (h : heap) (tool : ToolDefinition) : Prop :=
  exists v props,
    schemaAt h (inputSchema tool) v
    /\ v_properties v = Some props
    /\ is_Some (props !! "cluster").

(** Every tool of a list has a schema in the heap. *)
Definition toolsIn (h : heap) (ts : list ToolDefinition) : Prop :=
  Forall (fun tool => exists v, schemaAt h (inputSchema tool) v) ts.

Definition routedPhrase : string := "(Routed to the specified cluster)".

(** C3 as stated about descriptions: every tool that a refresh classifies
    as routable comes out with the routed phrase in its description. *)
Definition refreshAppendsRoutedPhrase (m : DownstreamManager) (r : ToolRouter)
    (h : heap) : Prop :=
  forall r' h',
    refreshTools m r h = Some (r', h') ->
    Forall2 (fun tool t' =>
               name tool ∈ _routableTools r' ->
               exists d, description t' = Some d
                         /\ JsString.includes d routedPhrase = true)
      (getToolDefinitions m) (_mergedTools r').

(** A record that is [Connected] has no ping failure on its count. *)
Definition freshCount (d : DownstreamState) : Prop :=
  status d = Connected -> consecutiveFailures d = 0.

(** ** [parseMapping] (index.ts) *)

(** [s.indexOf(c)] for a one-character needle: [None] is [-1]. *)
Fixpoint indexOfChar (c : ascii) (s : string) : option nat :=
  match s with
  | EmptyString => None
  | String d s' =>
      if Ascii.eqb d c then Some 0
      else match indexOfChar c s' with
           | Some i => Some (S i)
           | None => None
           end
  end.

Definition equalsSign : ascii := ascii_of_nat 61.

(** [parseMapping(value, previous)]: [None] is the thrown [Error]. The
    accumulator is extended in place and returned. *)
Definition parseMapping (value : string) (previous : list ClusterMapping)
    : option (list ClusterMapping) :=
  let '(url, ident) :=
    match indexOfChar equalsSign value with
    | None => (value, EmptyString)
    | Some eqIndex =>
        (String.substring 0 eqIndex value,
         String.substring (eqIndex + 1) (String.length value - (eqIndex + 1)) value)
    end in
  if negb (JsString.truthy url) then None
  else Some (previous ++ [ {| clusterUrl := url; identity := ident |} ]).

(** ** Startup records *)

(** The mapping that supplies the record of a key: the first one of the
    configuration that normalizes to it. *)
Definition firstMappingFor (key : string) (cfg : RouterConfig) : option ClusterMapping :=
  List.find (fun mp => String.eqb (normalizeClusterUrl (clusterUrl mp)) key)
    (mappings cfg).

(** The record that [initializeAll] leaves for a mapping, given how the
    connection attempt for its key ends. *)
Definition initialRecord (connectDownstream : string -> ConnectOutcome) (now : string)
    (mp : ClusterMapping) : DownstreamState :=
  match connectDownstream (normalizeClusterUrl (clusterUrl mp)) with
  | ConnectOk c tr pr ts => connected_with c tr pr ts now (initialState mp)
  | ConnectThrew _ => set_status Failed (initialState mp)
  end.

(** What holds of every record of a run, under the key it is stored at. *)
Definition soundRecord (key : string) (d : DownstreamState) : Prop :=
  normalizeClusterUrl (clusterUrl (mapping d)) = key
  /\ status d <> Connecting
  /\ reconnecting d = false
  /\ (status d = Connected ->
      is_Some (client d) /\ is_Some (transport d) /\ is_Some (lastHeartbeat d)
      /\ consecutiveFailures d = 0).

Definition soundEntry (e : string * DownstreamState) : Prop := soundRecord e.1 e.2.

(** The refusal of route-to-one for a call without a usable [cluster]. *)
Definition clusterRequiredText (toolName : string) (m : DownstreamManager) : string :=
  "Error: The " +:+ dquote +:+ "cluster" +:+ dquote
  +:+ " parameter is required for tool " +:+ dquote +:+ toolName +:+ dquote
  +:+ ". Available clusters: " +:+ JsString.join ", " (JsMap.keys (_downstreams m)).

(** What the monitor can go through without [start] being called: a tick
    still in progress handling a connection, a timer firing, an attempt
    settling, a child exit being reported, a reconnect being scheduled, and
    [stop]. *)
Inductive monitorStep : HealthMonitor -> HealthMonitor -> Prop :=
  | ms_schedule url h : monitorStep h (_scheduleReconnect url h)
  | ms_fired url h : monitorStep h (timerFired url h).2
  | ms_settled url cur ok h : monitorStep h (reconnectSettled url cur ok h)
  | ms_exit url h : monitorStep h (onDownstreamExit url h)
  | ms_check url st ok h : monitorStep h (checkOne url st ok h)
  | ms_stop h : monitorStep h (stop h).

(** A step of the monitor that leaves the timer of [clusterUrl] as it is and
    does not stop the monitor. *)
Definition quietStep (clusterUrl : string) (h h' : HealthMonitor) : Prop :=
  monitorStep h h'
  /\ _reconnectTimers h' !! clusterUrl = _reconnectTimers h !! clusterUrl
  /\ _running h' = _running h.

(** One run of the timer callback of [clusterUrl] in which [reconnect]
    returns [false]: the timer fires, the callback awaits, and it settles.
    Before the timer fires and while the callback awaits, the monitor goes
    through steps that are quiet for [clusterUrl]. *)
Inductive failedAttempt (clusterUrl : string) : HealthMonitor -> HealthMonitor -> Prop :=
  | failed_attempt h h0 cur h1 h2 :
      rtc (quietStep clusterUrl) h h0 ->
      timerFired clusterUrl h0 = (Some cur, h1) ->
      rtc (quietStep clusterUrl) h1 h2 ->
      failedAttempt clusterUrl h (reconnectSettled clusterUrl cur false h2).

(** ** What a child is launched with ([_connectDownstream]) *)

Definition extractClientIdFromIdentity (identity : string) : option string :=
  let trimmed := JsString.trim identity in
  if negb (JsString.truthy trimmed) then None else Some trimmed.

(** [process.env]: the variables that are set, with their values. *)
Abbreviation Env := (gmap string string).

(** The [args] array handed to [npx]. *)
Definition childArgs (cfg : RouterConfig) : list string :=
  let args := ["-y"; "@azure/mcp@latest"; "server"; "start";
               "--mode"; "all"; "--namespace"; "kusto"] in
  if readOnly cfg then (args ++ ["--read-only"])%list else args.

(** The [env] object handed to the child's transport. *)
Definition childEnv (processEnv : Env) (mp : ClusterMapping) : Env :=
  let env :=
    <["AZURE_TOKEN_CREDENTIALS" :=
        default "managedidentitycredential" (processEnv !! "AZURE_TOKEN_CREDENTIALS")]>
      processEnv in
  let env :=
    match processEnv !! "IDENTITY_ENDPOINT" with
    | Some v => if JsString.truthy v then <["IDENTITY_ENDPOINT" := v]> env else env
    | None => env
    end in
  let env :=
    match processEnv !! "IDENTITY_HEADER" with
    | Some v => if JsString.truthy v then <["IDENTITY_HEADER" := v]> env else env
    | None => env
    end in
  if JsString.truthy (identity mp) then
    match extractClientIdFromIdentity (identity mp) with
    | Some clientId => <["AZURE_CLIENT_ID" := clientId]> env
    | None => env
    end
  else env.

(** ** Startup ([main], index.ts) *)

(** [DownstreamConnection] (types.ts) *)
Record DownstreamConnection : Type := {
  dc_clusterUrl : string;
  dc_identity : string;
  dc_status : ConnectionStatus;
  dc_lastHeartbeat : option string;
  dc_consecutiveFailures : nat;
  dc_tools : list ToolDefinition
}.

Definition getConnections (m : DownstreamManager) : list DownstreamConnection :=
  map (fun e => {| dc_clusterUrl := e.1;
                   dc_identity := identity (mapping e.2);
                   dc_status := status e.2;
                   dc_lastHeartbeat := lastHeartbeat e.2;
                   dc_consecutiveFailures := consecutiveFailures e.2;
                   dc_tools := tools e.2 |})
    (_downstreams m).

(** How [main] ends: with [process.exit(code)], the manager (if one was
    built) as it is left behind; or with the router serving. *)
Inductive Startup : Type :=
  | ProcessExit (code : Z) (left : option DownstreamManager)
  | Serving (downstreamManager : DownstreamManager) (toolRouter : ToolRouter)
            (healthMonitor : HealthMonitor).

(** [main] from the parsed options on. [createAndStartServer] tells whether
    the upstream server came up; when it throws, the [catch] of [main()]
    exits. *)
Definition main (connectDownstream : string -> ConnectOutcome) (now : string)
    (createAndStartServer : ToolRouter -> bool) (config : RouterConfig)
    : Heap Startup :=
  if (length (mappings config) =? 0)%nat then hret (ProcessExit 1 None)
  else
    let downstreamManager :=
      initializeAll connectDownstream now (newDownstreamManager config) in
    let connectedCount :=
      length (filter (fun c => dc_status c = Connected)
                (getConnections downstreamManager)) in
    if (connectedCount =? 0)%nat then
      hret (ProcessExit 1 (Some (shutdownAll downstreamManager)))
    else
      (toolRouter <- refreshTools downstreamManager newToolRouter ;;
       let tools := getTools toolRouter in
       if (length tools =? 0)%nat then
         hret (ProcessExit 1 (Some (shutdownAll downstreamManager)))
       else if createAndStartServer toolRouter then
         hret (Serving downstreamManager toolRouter
                 (start (newHealthMonitor config)))
       else hret (ProcessExit 1 (Some downstreamManager)))%heap.

(** The first endpoint cannot be started; the second comes up with the tools
    of the router's unit tests. *)
Definition secondUp (key : string) : ConnectOutcome :=
  if String.eqb key Sample.c1 then ConnectThrew "spawn npx ENOENT"
  else ConnectOk 2 2 (Some 2) Sample.tools.

(** ** The upstream tool handler ([registerTool], server.ts) *)

(** [{ content: result.content.map((c) => ({ type: c.type, text: c.text ?? '' })),
       isError: result.isError }] *)
Definition toReply (result : ToolCallResult) : ToolCallResult :=
  {| content :=
       map (fun c => {| c_type := c_type c;
                        c_text := Some (default EmptyString (c_text c));
                        c_data := None; c_mimeType := None |})
         (content result);
     isError := isError result |}.

(** The callback registered for [tool]. *)
Definition toolHandler (clientCallTool : handle -> string -> Args -> CallOutcome)
    (toolRouter : ToolRouter) (tool : ToolDefinition) (args : Args)
    (m : DownstreamManager) : Completion ToolCallResult * list Event :=
  match routeCall clientCallTool toolRouter (name tool) args m with
  | (Normal result, evs) => (Normal (toReply result), evs)
  | (ThrewTypeError msg, evs) => (ThrewTypeError msg, evs)
  end.

(** A content item that carries a text and nothing else. *)
Definition isPlainText (c : ToolContent) : bool :=
  match c_type c, c_text c, c_data c, c_mimeType c with
  | CText, Some _, None, None => true
  | _, _, _, _ => false
  end.

(** A result made by the router itself: flagged, and text only. *)
Definition routerMade (result : ToolCallResult) : Prop :=
  isError result = Some true
  /\ content result <> []
  /\ forallb isPlainText (content result) = true.

(* ================================================================= *)
(** * Properties *)

(** ** URL normalization *)

Section NormalizeFacts.
Import JsString.

Lemma lower_char_idem (c : ascii) : lower_char (lower_char c) = lower_char c.
Proof. destruct c as [[] [] [] [] [] [] [] []]; reflexivity. Qed.

Lemma lower_char_slash (c : ascii) : is_slash (lower_char c) = is_slash c.
Proof. destruct c as [[] [] [] [] [] [] [] []]; reflexivity. Qed.

Lemma toLowerCase_idem (s : string) : toLowerCase (toLowerCase s) = toLowerCase s.
Proof.
  induction s as [|c s IH]; simpl; [reflexivity|].
  now rewrite lower_char_idem, IH.
Qed.

Lemma toLowerCase_app (s t : string) :
  toLowerCase (s +:+ t) = toLowerCase s +:+ toLowerCase t.
Proof. induction s as [|c s IH]; simpl; [reflexivity | now rewrite IH]. Qed.

Lemma dropEnd_idem (p : ascii -> bool) (s : string) :
  dropEnd p (dropEnd p s) = dropEnd p s.
Proof.
  induction s as [|c s IH]; simpl; [reflexivity|].
  destruct (dropEnd p s) as [|d r] eqn:E.
  - destruct (p c) eqn:Hc; simpl; [reflexivity | now rewrite Hc].
  - simpl in *. now rewrite IH.
Qed.

Lemma toLowerCase_dropEnd_slash (s : string) :
  toLowerCase (dropEnd is_slash s) = dropEnd is_slash (toLowerCase s).
Proof.
  induction s as [|c s IH]; simpl; [reflexivity|].
  rewrite <- IH, lower_char_slash.
  destruct (dropEnd is_slash s) as [|d r]; simpl.
  - now destruct (is_slash c).
  - reflexivity.
Qed.

(** The normal form is in lower case. *)
Lemma normalize_lower (x : string) :
  toLowerCase (normalizeClusterUrl x) = normalizeClusterUrl x.
Proof.
  unfold normalizeClusterUrl, stripTrailingSlashes.
  rewrite toLowerCase_dropEnd_slash. f_equal.
  destruct (_ && _); [|apply toLowerCase_idem].
  rewrite toLowerCase_app, toLowerCase_idem. reflexivity.
Qed.

(** Where normalization is idempotent: on every input whose normal form
    still starts with its scheme and carries no white space at its end. *)
Lemma normalize_idempotent_on_stable (x : string) :
  startsWith (normalizeClusterUrl x) "https://"
    || startsWith (normalizeClusterUrl x) "http://" = true ->
  trim (normalizeClusterUrl x) = normalizeClusterUrl x ->
  normalizeClusterUrl (normalizeClusterUrl x) = normalizeClusterUrl x.
Proof.
  intros Hscheme Htrim.
  pose proof (normalize_lower x) as Hlow.
  remember (normalizeClusterUrl x) as y eqn:Hy.
  unfold normalizeClusterUrl. cbv zeta.
  rewrite Htrim, Hlow.
  apply orb_true_iff in Hscheme.
  assert (negb (startsWith y "https://") && negb (startsWith y "http://") = false) as ->.
  { destruct Hscheme as [-> | ->]; simpl; [reflexivity | apply andb_false_r]. }
  rewrite Hy. unfold normalizeClusterUrl, stripTrailingSlashes. apply dropEnd_idem.
Qed.

End NormalizeFacts.

(** The scenarios of the unit tests and of the specification. *)
Lemma normalize_scenarios :
  normalizeClusterUrl "https://MyCluster.Kusto.Windows.Net"
    = "https://mycluster.kusto.windows.net"
  /\ normalizeClusterUrl "https://mycluster.kusto.windows.net/"
    = "https://mycluster.kusto.windows.net"
  /\ normalizeClusterUrl "https://mycluster.kusto.windows.net///"
    = "https://mycluster.kusto.windows.net"
  /\ normalizeClusterUrl "mycluster.kusto.windows.net"
    = "https://mycluster.kusto.windows.net"
  /\ normalizeClusterUrl "  https://mycluster.kusto.windows.net  "
    = "https://mycluster.kusto.windows.net"
  /\ normalizeClusterUrl "http://x" = "http://x"
  /\ normalizeClusterUrl "http://mycluster.kusto.windows.net"
    = "http://mycluster.kusto.windows.net".
Proof. repeat split; reflexivity. Qed.

(** C8. Normalization is claimed idempotent on every string. It is not: a
    URL that is nothing but a scheme loses the slashes of its scheme to the
    trailing-slash removal, is then no longer recognised as having a scheme,
    and receives a second one on the next pass. The five literal scenarios of
    the claim do hold. *)
Theorem normalizeClusterUrl_not_idempotent :
  normalizeClusterUrl "https://" = "https:"
  /\ normalizeClusterUrl (normalizeClusterUrl "https://") = "https://https:"
  /\ normalizeClusterUrl (normalizeClusterUrl "https://")
     <> normalizeClusterUrl "https://"
  /\ normalizeClusterUrl "https://MyCluster.Kusto.Windows.Net"
     = "https://mycluster.kusto.windows.net"
  /\ normalizeClusterUrl "https://mycluster.kusto.windows.net/"
     = "https://mycluster.kusto.windows.net"
  /\ normalizeClusterUrl "mycluster.kusto.windows.net"
     = "https://mycluster.kusto.windows.net"
  /\ normalizeClusterUrl "  https://mycluster.kusto.windows.net  "
     = "https://mycluster.kusto.windows.net"
  /\ normalizeClusterUrl "http://x" = "http://x".
Proof. repeat split; try reflexivity. intros H; discriminate H. Qed.

(** The lemma above at work on a URL of the unit tests. *)
Lemma normalize_idempotent_example :
  normalizeClusterUrl (normalizeClusterUrl "https://MyCluster.EastUS.Kusto.Windows.Net/")
  = normalizeClusterUrl "https://MyCluster.EastUS.Kusto.Windows.Net/".
Proof. apply normalize_idempotent_on_stable; reflexivity. Qed.

(** A second family of inputs on which a second pass changes the result:
    white space in front of the trailing slashes is uncovered by their
    removal, after [trim] has already run. *)
Lemma normalize_uncovers_white_space :
  normalizeClusterUrl "a /" = "https://a "
  /\ normalizeClusterUrl (normalizeClusterUrl "a /") = "https://a".
Proof. split; reflexivity. Qed.

(** ** Call-on-one *)

Section IncludesFacts.
Import JsString.

Lemma prefix_app (u s : string) : String.prefix u (u +:+ s) = true.
Proof.
  induction u as [|c u IH]; simpl; [now destruct s|].
  destruct (ascii_dec c c); [exact IH | congruence].
Qed.

Lemma includes_unfold (s t : string) :
  includes s t
  = String.prefix t s
    || match s with EmptyString => false | String _ s' => includes s' t end.
Proof. destruct s; reflexivity. Qed.

Lemma includes_here (u s : string) : includes (u +:+ s) u = true.
Proof. rewrite includes_unfold, prefix_app. reflexivity. Qed.

Lemma includes_app_r (s t u : string) :
  includes t u = true -> includes (s +:+ t) u = true.
Proof.
  intros H. induction s as [|c s IH]; simpl; [exact H|].
  rewrite IH. apply orb_true_r.
Qed.

Lemma app_empty_r (u : string) : u +:+ EmptyString = u.
Proof.
  induction u as [|c u IH]; [reflexivity|].
  change (String c (u +:+ EmptyString) = String c u). now rewrite IH.
Qed.

Lemma includes_self (u : string) : includes u u = true.
Proof.
  pose proof (includes_here u EmptyString) as H.
  now rewrite app_empty_r in H.
Qed.

Lemma join_mentions (sep : string) (items : list string) (u : string) :
  In u items -> includes (join sep items) u = true.
Proof.
  induction items as [|x rest IH]; intros Hin; [destruct Hin|].
  destruct rest as [|y rest'].
  - destruct Hin as [-> | []]. apply includes_self.
  - change (join sep (x :: y :: rest'))
      with (x +:+ (sep +:+ join sep (y :: rest'))).
    destruct Hin as [-> | Hin].
    + apply includes_here.
    + do 2 apply includes_app_r. apply IH, Hin.
Qed.

Lemma mentionsAll_join (pre sep : string) (items : list string) :
  mentionsAll (pre +:+ join sep items) items.
Proof.
  apply Forall_forall. intros u Hu.
  apply includes_app_r, join_mentions. now apply list_elem_of_In.
Qed.

End IncludesFacts.

Lemma isLive_false_cases (d : DownstreamState) :
  isLive d = false -> client d = None \/ status d <> Connected.
Proof.
  unfold isLive. intros H. apply andb_false_iff in H as [H | H].
  - right. now apply bool_decide_eq_false in H.
  - left. apply bool_decide_eq_false in H. destruct (client d); [|reflexivity].
    exfalso. apply H. eauto.
Qed.

(** C2, as the code has it. When the endpoint is unknown, or its record is
    not connected with a live client, [callTool] reaches no child and returns
    one text item flagged [isError = true]. For an unknown endpoint the text
    lists every configured endpoint URL; for a known endpoint that is not
    connected the text names the requested URL and the record's status, and
    lists nothing else. *)
Theorem callTool_refuses_unavailable
    (clientCallTool : handle -> string -> Args -> CallOutcome)
    (m : DownstreamManager) (clusterUrl toolName : string) (args : Args) :
  (forall st, JsMap.get (normalizeClusterUrl clusterUrl) (_downstreams m) = Some st ->
              isLive st = false) ->
  exists text,
    callTool clientCallTool clusterUrl toolName args m
      = (textError text, [EvCallTool clusterUrl toolName args])
    /\ filter isClientCall (callTool clientCallTool clusterUrl toolName args m).2 = []
    /\ isError (callTool clientCallTool clusterUrl toolName args m).1 = Some true
    /\ match JsMap.get (normalizeClusterUrl clusterUrl) (_downstreams m) with
       | None => text = unknownClusterText clusterUrl m
                 /\ mentionsAll text (getClusterUrls m)
       | Some st => text = notConnectedText clusterUrl (status st)
       end.
Proof.
  intros Hdown. unfold callTool.
  destruct (JsMap.get (normalizeClusterUrl clusterUrl) (_downstreams m)) as [st|] eqn:Hget.
  - specialize (Hdown st eq_refl).
    exists (notConnectedText clusterUrl (status st)).
    destruct (isLive_false_cases st Hdown) as [Hc | Hs].
    + rewrite Hc. repeat split; reflexivity.
    + destruct (client st) as [c|]; [|repeat split; reflexivity].
      rewrite bool_decide_eq_false_2 by exact Hs. repeat split; reflexivity.
  - exists (unknownClusterText clusterUrl m).
    repeat split; try reflexivity.
    apply Forall_forall. intros u Hu. unfold unknownClusterText.
    do 5 apply includes_app_r. apply join_mentions, list_elem_of_In, Hu.
Qed.

Lemma callTool_refuses_unavailable_witness :
  exists text,
    callTool Sample.answering Sample.c1 "kusto_query" ∅ (Sample.firstDown [])
      = (textError text, [EvCallTool Sample.c1 "kusto_query" ∅])
    /\ text = notConnectedText Sample.c1 Failed.
Proof.
  destruct (callTool_refuses_unavailable Sample.answering (Sample.firstDown [])
              Sample.c1 "kusto_query" ∅) as (text & Hcall & _ & _ & Htext).
  - intros st Hst. vm_compute in Hst. injection Hst as <-. reflexivity.
  - exists text. split; [exact Hcall | exact Htext].
Defined.

(** C2, as stated, fails on a known endpoint that is not connected: the
    refusal names that endpoint and its status, and the other configured
    endpoint is nowhere in it. *)
Lemma callTool_not_connected_omits_endpoints :
  getStatus Sample.c1 (Sample.firstDown []) = Some Failed
  /\ ~ refusesListingEndpoints
         (callTool Sample.answering Sample.c1 "kusto_query" ∅ (Sample.firstDown []))
         (Sample.firstDown []).
Proof.
  split; [reflexivity|].
  intros (_ & _ & text & Hcontent & Hall).
  vm_compute in Hcontent. injection Hcontent as <-.
  apply Forall_cons in Hall as [_ Hall].
  apply Forall_cons in Hall as [Hc2 _].
  vm_compute in Hc2. discriminate Hc2.
Qed.

(** ** The ordered map *)

Section JsMapFacts.
Context {V : Type}.
Implicit Types (m : JsMap.t V) (key : string).

Lemma get_update key (f : V -> V) m k :
  JsMap.get k (JsMap.update key f m)
  = if String.eqb key k then f <$> JsMap.get k m else JsMap.get k m.
Proof.
  induction m as [|[k0 v0] m IH]; simpl.
  - now destruct (String.eqb key k).
  - destruct (String.eqb k0 key) eqn:E0; simpl.
    + apply String.eqb_eq in E0 as ->.
      destruct (String.eqb key k) eqn:E; reflexivity.
    + destruct (String.eqb k0 k) eqn:E1.
      * apply String.eqb_eq in E1 as ->. rewrite String.eqb_sym, E0. reflexivity.
      * exact IH.
Qed.

Lemma get_update_eq key (f : V -> V) m :
  JsMap.get key (JsMap.update key f m) = f <$> JsMap.get key m.
Proof. now rewrite get_update, String.eqb_refl. Qed.

Lemma get_update_ne key (f : V -> V) m k :
  key <> k -> JsMap.get k (JsMap.update key f m) = JsMap.get k m.
Proof.
  intros Hne. rewrite get_update.
  destruct (String.eqb key k) eqn:E; [|reflexivity].
  now apply String.eqb_eq in E.
Qed.

Lemma keys_update key (f : V -> V) m :
  JsMap.keys (JsMap.update key f m) = JsMap.keys m.
Proof.
  induction m as [|[k0 v0] m IH]; simpl; [reflexivity|].
  destruct (String.eqb k0 key); simpl; [reflexivity|].
  f_equal. exact IH.
Qed.

Lemma get_None_not_key key m :
  JsMap.get key m = None <-> ~ In key (JsMap.keys m).
Proof.
  induction m as [|[k0 v0] m IH]; simpl; [tauto|].
  destruct (String.eqb k0 key) eqn:E.
  - apply String.eqb_eq in E. split; [discriminate | intros H; exfalso; apply H; now left].
  - apply String.eqb_neq in E. rewrite IH. tauto.
Qed.

Lemma keys_set_new key v m :
  JsMap.has key m = false -> JsMap.keys (JsMap.set key v m) = (JsMap.keys m ++ [key])%list.
Proof.
  unfold JsMap.has.
  induction m as [|[k0 v0] m IH]; simpl; [reflexivity|].
  destruct (String.eqb k0 key); [discriminate|].
  intros H. simpl. f_equal. apply IH, H.
Qed.

End JsMapFacts.

(** ** Ping *)

Lemma ping_failed_fields (st : DownstreamState) :
  consecutiveFailures (ping_failed st) = consecutiveFailures st + 1
  /\ lastHeartbeat (ping_failed st) = lastHeartbeat st
  /\ (3 <= consecutiveFailures st + 1 -> status (ping_failed st) = Disconnected)
  /\ (consecutiveFailures st + 1 < 3 -> status (ping_failed st) = Failed).
Proof.
  unfold ping_failed. cbn [consecutiveFailures lastHeartbeat status].
  repeat split; try lia.
  - intros H. destruct (Nat.leb_spec 3 (S (consecutiveFailures st))); [reflexivity | lia].
  - intros H. destruct (Nat.leb_spec 3 (S (consecutiveFailures st))); [lia | reflexivity].
Qed.

(** C5. [ping] on an endpoint that is unknown, has no client or is not
    [Connected] returns [false], issues no ping and leaves the manager as it
    was. On a connected endpoint it issues exactly one ping to the endpoint's
    client; when the client answers, the record gets [lastHeartbeat = now]
    and [consecutiveFailures = 0] and [ping] returns [true]; when the client
    throws or the deadline passes, [consecutiveFailures] grows by one, the
    status becomes [Disconnected] if the new count is at least 3 and [Failed]
    otherwise, and [ping] returns [false]. No other record changes. *)
Theorem ping_spec (clientPing : handle -> PingOutcome) (now : string)
    (m : DownstreamManager) (clusterUrl : string) :
  let key := normalizeClusterUrl clusterUrl in
  ((forall st, JsMap.get key (_downstreams m) = Some st -> isLive st = false) ->
   ping clientPing now clusterUrl m = (false, m, []))
  /\ (forall st c,
        JsMap.get key (_downstreams m) = Some st ->
        client st = Some c -> status st = Connected ->
        exists ok m' st',
          ping clientPing now clusterUrl m = (ok, m', [EvClientPing c])
          /\ JsMap.get key (_downstreams m') = Some st'
          /\ (forall k, k <> key ->
                JsMap.get k (_downstreams m') = JsMap.get k (_downstreams m))
          /\ match clientPing c with
             | PingAnswered =>
                 ok = true
                 /\ lastHeartbeat st' = Some now
                 /\ consecutiveFailures st' = 0
                 /\ status st' = Connected
             | PingThrew _ | PingTimedOut =>
                 ok = false
                 /\ consecutiveFailures st' = consecutiveFailures st + 1
                 /\ lastHeartbeat st' = lastHeartbeat st
                 /\ (3 <= consecutiveFailures st + 1 -> status st' = Disconnected)
                 /\ (consecutiveFailures st + 1 < 3 -> status st' = Failed)
             end).
Proof.
  intros key. split.
  - intros Hdown. unfold ping. fold key.
    destruct (JsMap.get key (_downstreams m)) as [st|] eqn:Hget; [|reflexivity].
    destruct (isLive_false_cases st (Hdown st eq_refl)) as [Hc | Hs].
    + now rewrite Hc.
    + destruct (client st); [|reflexivity].
      now rewrite bool_decide_eq_false_2.
  - intros st c Hget Hc Hs. unfold ping. fold key.
    rewrite Hget, Hc, bool_decide_eq_true_2 by exact Hs.
    assert (forall f k, k <> key ->
              JsMap.get k (JsMap.update key f (_downstreams m))
              = JsMap.get k (_downstreams m)) as Hframe
      by (intros f k Hk; apply get_update_ne; congruence).
    destruct (clientPing c) as [|msg|].
    + exists true. eexists. exists (heartbeat now st). split; [reflexivity|].
      cbn [_downstreams with_downstreams]. rewrite get_update_eq, Hget.
      repeat split; [apply Hframe | exact Hs].
    + exists false. eexists. exists (ping_failed st). split; [reflexivity|].
      cbn [_downstreams with_downstreams]. rewrite get_update_eq, Hget.
      split; [reflexivity|]. split; [apply Hframe|]. split; [reflexivity|].
      apply ping_failed_fields.
    + exists false. eexists. exists (ping_failed st). split; [reflexivity|].
      cbn [_downstreams with_downstreams]. rewrite get_update_eq, Hget.
      split; [reflexivity|]. split; [apply Hframe|]. split; [reflexivity|].
      apply ping_failed_fields.
Qed.


Lemma ping_spec_witness :
  ping (fun _ => PingTimedOut) "2025-01-01T00:00:00.000Z" Sample.c1
    (Sample.firstDown []) = (false, Sample.firstDown [], [])
  /\ exists ok m' st',
       ping (fun _ => PingTimedOut) "2025-01-01T00:00:00.000Z" Sample.c2
         (Sample.firstDown []) = (ok, m', [EvClientPing 2])
       /\ JsMap.get Sample.c2 (_downstreams m') = Some st'
       /\ ok = false /\ consecutiveFailures st' = 1 /\ status st' = Failed.
Proof.
  pose proof (ping_spec (fun _ => PingTimedOut) "2025-01-01T00:00:00.000Z"
                (Sample.firstDown [])) as H.
  split.
  - apply (H Sample.c1).
    intros st Hst. vm_compute in Hst. injection Hst as <-. reflexivity.
  - destruct (H Sample.c2) as [_ H2].
    destruct (H2 (Sample.record Sample.c2 (Some 2) Connected 0 []) 2
                eq_refl eq_refl eq_refl)
      as (ok & m' & st' & Hp & Hg & _ & Hok & Hn & _ & _ & Hst).
    exists ok, m', st'. repeat split; try assumption.
    apply Hst. simpl. lia.
Defined.

(** ** Call-on-all *)

Section CallOnAll.
Variable clientCallTool : handle -> string -> Args -> CallOutcome.

Lemma mergeResults_fulfilled (rs : list ToolCallResult)
    (acc : list ToolContent) (b : bool) :
  mergeResults (map Fulfilled rs) acc b
  = ((acc ++ concat (map content rs))%list, b || existsb flagged rs).
Proof.
  revert acc b. induction rs as [|r rs IH]; intros acc b; simpl.
  - now rewrite app_nil_r, orb_false_r.
  - rewrite IH, <- app_assoc. f_equal. unfold flagged.
    destruct (default false (isError r)), b; reflexivity.
Qed.

Lemma callToolOnAll_nonempty (toolName : string) (args : Args)
    (m : DownstreamManager) :
  connectedDownstreams m <> [] ->
  (callToolOnAll clientCallTool toolName args m).1
  = {| content := concat (map content (perEndpoint clientCallTool toolName args m));
       isError := Some (existsb flagged (perEndpoint clientCallTool toolName args m)) |}.
Proof.
  intros Hne. unfold callToolOnAll, perEndpoint.
  destruct (connectedDownstreams m) as [|e es] eqn:E; [contradiction|].
  rewrite map_map.
  rewrite <- (map_map (fun e => (callTool clientCallTool e.1 toolName args m).1) Fulfilled).
  rewrite mergeResults_fulfilled. reflexivity.
Qed.

Lemma callTool_live (toolName : string) (args : Args) (m : DownstreamManager)
    (url : string) (st : DownstreamState) (c : handle) :
  JsMap.get (normalizeClusterUrl url) (_downstreams m) = Some st ->
  client st = Some c -> status st = Connected ->
  (callTool clientCallTool url toolName args m).1
  = match clientCallTool c toolName args with
    | CallReturned cont err => {| content := default [] cont; isError := err |}
    | CallThrew msg => textError (callFailedText toolName url msg)
    end.
Proof.
  intros Hget Hc Hs. unfold callTool.
  rewrite Hget, Hc, bool_decide_eq_true_2 by exact Hs.
  now destruct (clientCallTool c toolName args).
Qed.

End CallOnAll.

Lemma flagged_true (r : ToolCallResult) : flagged r = true <-> isError r = Some true.
Proof.
  unfold flagged. destruct (isError r) as [[]|]; simpl; split; congruence.
Qed.

(** C6. With no endpoint connected with a live client, [callToolOnAll]
    returns the single text item "No downstream MCP servers are currently
    connected" flagged [isError = true], and calls nobody. Otherwise the
    content is the concatenation of the per-endpoint results' contents, the
    aggregated [isError] is [true] exactly when some per-endpoint result is
    flagged and [false] exactly when none is, and an endpoint whose client
    threw contributes a text item naming the tool, the endpoint and the
    error, and makes the aggregate an error. *)
Theorem callToolOnAll_spec
    (clientCallTool : handle -> string -> Args -> CallOutcome)
    (toolName : string) (args : Args) (m : DownstreamManager) :
  (connectedDownstreams m = [] ->
   callToolOnAll clientCallTool toolName args m
   = (textError noEndpointsText, [EvCallToolOnAll toolName args]))
  /\ (connectedDownstreams m <> [] ->
      let per := perEndpoint clientCallTool toolName args m in
      let r := (callToolOnAll clientCallTool toolName args m).1 in
      content r = concat (map content per)
      /\ (isError r = Some true <-> exists p, In p per /\ isError p = Some true)
      /\ (isError r = Some false <-> forall p, In p per -> isError p <> Some true)
      /\ (forall url st c msg,
            In (url, st) (connectedDownstreams m) ->
            JsMap.get (normalizeClusterUrl url) (_downstreams m) = Some st ->
            client st = Some c ->
            clientCallTool c toolName args = CallThrew msg ->
            In (textContent (callFailedText toolName url msg)) (content r)
            /\ isError r = Some true)).
Proof.
  split.
  - intros Hnone. unfold callToolOnAll. now rewrite Hnone.
  - intros Hsome per r.
    assert (r = {| content := concat (map content per);
                   isError := Some (existsb flagged per) |}) as Hr
      by (apply callToolOnAll_nonempty, Hsome).
    assert (existsb flagged per = true <-> exists p, In p per /\ isError p = Some true)
      as Hex.
    { rewrite existsb_exists. split; intros (p & Hin & Hp); exists p;
        (split; [exact Hin | now apply flagged_true]). }
    rewrite Hr. cbn [content isError]. split; [reflexivity|]. split; [|split].
    + rewrite <- Hex. split; [now intros [= ->] | now intros ->].
    + split.
      * intros [= Hf] p Hin Hp.
        assert (existsb flagged per = true) as Ht by (apply Hex; eauto).
        congruence.
      * intros Hall. f_equal. apply not_true_is_false. intros E.
        apply Hex in E as (p & Hin & Hp). now destruct (Hall p Hin).
    + intros url st c msg Hin Hget Hc Hthrew.
      assert (status st = Connected) as Hs.
      { unfold connectedDownstreams in Hin.
        apply list_elem_of_In, list_elem_of_filter in Hin as [Hlive _].
        unfold isLive in Hlive. simpl in Hlive.
        apply Is_true_true, andb_true_iff in Hlive as [Hlive _].
        now apply bool_decide_eq_true in Hlive. }
      pose proof (callTool_live clientCallTool toolName args m url st c Hget Hc Hs)
        as Hcall.
      rewrite Hthrew in Hcall.
      assert (In (textError (callFailedText toolName url msg)) per) as Hper.
      { unfold per, perEndpoint. rewrite <- Hcall.
        apply (in_map (fun e => (callTool clientCallTool e.1 toolName args m).1)
                 _ (url, st)), Hin. }
      split.
      * apply in_concat. exists [textContent (callFailedText toolName url msg)].
        split; [|now left].
        apply (in_map content _ _ Hper).
      * f_equal. apply Hex. eauto.
Qed.

Lemma callToolOnAll_spec_witness :
  callToolOnAll Sample.firstThrows "kusto_cluster_list" ∅
    (with_downstreams [] (Sample.bothUp []))
  = (textError noEndpointsText, [EvCallToolOnAll "kusto_cluster_list" ∅])
  /\ content (callToolOnAll Sample.firstThrows "kusto_cluster_list" ∅
                (Sample.bothUp [])).1
     = [ textContent (callFailedText "kusto_cluster_list" Sample.c1 "connection closed");
         textContent "rows of c2" ]
  /\ isError (callToolOnAll Sample.firstThrows "kusto_cluster_list" ∅
                (Sample.bothUp [])).1 = Some true.
Proof.
  split.
  - apply (callToolOnAll_spec Sample.firstThrows "kusto_cluster_list" ∅
             (with_downstreams [] (Sample.bothUp []))). reflexivity.
  - destruct (callToolOnAll_spec Sample.firstThrows "kusto_cluster_list" ∅
                (Sample.bothUp [])) as [_ H].
    destruct H as (Hcontent & _ & _ & Hthrew); [discriminate|].
    split; [rewrite Hcontent; reflexivity|].
    apply (Hthrew Sample.c1 (Sample.record Sample.c1 (Some 1) Connected 0 []) 1
             "connection closed"); [now left | reflexivity..].
Defined.

(** ** The order of the endpoints *)

Section KeyOrder.

Lemma differs_iff (y x : string) : negb (String.eqb y x) <-> y <> x.
Proof. now rewrite Is_true_true, negb_true_iff, String.eqb_neq. Qed.

Lemma negb_decide_iff (P : Prop) `{Decision P} : negb (bool_decide P) <-> ~ P.
Proof. now rewrite Is_true_true, negb_true_iff, bool_decide_eq_false. Qed.

Lemma keepFirst_fold (l keys : list string) :
  fold_left addKey l keys
  = keys ++ filter (fun y => negb (bool_decide (y ∈ keys))) (keepFirst l).
Proof.
  revert keys. induction l as [|x l IH]; intros keys; simpl.
  - now rewrite filter_nil, app_nil_r.
  - rewrite IH. unfold addKey. rewrite filter_cons.
    destruct (bool_decide (x ∈ keys)) eqn:Hx; simpl.
    + apply bool_decide_eq_true in Hx.
      f_equal. rewrite list_filter_filter. apply list_filter_iff.
      intros y. rewrite differs_iff, negb_decide_iff.
      split; [|tauto]. intros Hy. split; [exact Hy | congruence].
    + apply bool_decide_eq_false in Hx.
      rewrite <- app_assoc. simpl. do 2 f_equal.
      rewrite list_filter_filter. apply list_filter_iff.
      intros y. rewrite differs_iff, !negb_decide_iff.
      rewrite elem_of_app, list_elem_of_singleton. tauto.
Qed.

Lemma keepFirst_elem (l : list string) (x : string) :
  x ∈ keepFirst l <-> x ∈ l.
Proof.
  induction l as [|y l IH]; simpl; [reflexivity|].
  rewrite !elem_of_cons, list_elem_of_filter, IH, differs_iff.
  destruct (decide (x = y)); tauto.
Qed.

Lemma keepFirst_NoDup (l : list string) : NoDup (keepFirst l).
Proof.
  induction l as [|x l IH]; simpl; constructor.
  - rewrite list_elem_of_filter, differs_iff. tauto.
  - now apply NoDup_filter.
Qed.

End KeyOrder.

Section ManagerOrder.

Lemma has_iff_key {V} (key : string) (m : JsMap.t V) :
  JsMap.has key m = bool_decide (key ∈ JsMap.keys m).
Proof.
  unfold JsMap.has.
  destruct (JsMap.get key m) eqn:E.
  - symmetry. apply bool_decide_eq_true. apply list_elem_of_In.
    destruct (in_dec string_dec key (JsMap.keys m)) as [Hin | Hout]; [exact Hin|].
    apply get_None_not_key in Hout. congruence.
  - symmetry. apply bool_decide_eq_false. rewrite list_elem_of_In.
    now apply get_None_not_key.
Qed.

Lemma filter_all {A} (P : A -> Prop) `{forall x, Decision (P x)} (l : list A) :
  (forall x, P x) -> filter P l = l.
Proof.
  intros HP. induction l as [|x l IH]; [reflexivity|].
  rewrite filter_cons_True by apply HP. now rewrite IH.
Qed.

Lemma initializeOne_keys connect now m mp :
  getClusterUrls (initializeOne connect now m mp)
  = addKey (getClusterUrls m) (normalizeClusterUrl (clusterUrl mp)).
Proof.
  unfold initializeOne, addKey, getClusterUrls.
  rewrite has_iff_key.
  destruct (bool_decide _) eqn:E; [reflexivity|].
  rewrite <- has_iff_key in E.
  destruct (connect _); cbn [_downstreams with_downstreams];
    now rewrite keys_update, keys_set_new.
Qed.

Lemma initializeOne_config connect now m mp :
  _config (initializeOne connect now m mp) = _config m.
Proof.
  unfold initializeOne. destruct (JsMap.has _ _); [reflexivity|].
  now destruct (connect _).
Qed.

Lemma initialize_fold_keys connect now (l : list ClusterMapping) m :
  getClusterUrls (fold_left (initializeOne connect now) l m)
  = fold_left addKey
      (map (fun mp => normalizeClusterUrl (clusterUrl mp)) l) (getClusterUrls m).
Proof.
  revert m. induction l as [|mp l IH]; intros m; simpl; [reflexivity|].
  now rewrite IH, initializeOne_keys.
Qed.

Lemma initialize_fold_config connect now (l : list ClusterMapping) m :
  _config (fold_left (initializeOne connect now) l m) = _config m.
Proof.
  revert m. induction l as [|mp l IH]; intros m; simpl; [reflexivity|].
  now rewrite IH, initializeOne_config.
Qed.

(** After [initializeAll] on a new manager the keys of [_downstreams] are
    the normalized URLs of the configuration, each at its first
    occurrence. *)
Lemma initializeAll_keys connect now cfg :
  getClusterUrls (initializeAll connect now (newDownstreamManager cfg))
  = configuredOrder cfg.
Proof.
  unfold initializeAll. rewrite initialize_fold_keys, keepFirst_fold.
  change (getClusterUrls (newDownstreamManager cfg)) with (@nil string).
  rewrite app_nil_l.
  unfold configuredOrder. apply filter_all.
  intros y. apply negb_decide_iff. apply not_elem_of_nil.
Qed.

Lemma managerStep_keys m m' :
  managerStep m m' -> getClusterUrls m' = getClusterUrls m /\ _config m' = _config m.
Proof.
  intros [now url answered m0 | connect now url m0 | key m0];
    unfold getClusterUrls.
  - unfold pingSettled. cbn [_downstreams with_downstreams _config].
    now rewrite keys_update.
  - unfold reconnect.
    destruct (JsMap.get _ _) as [st|]; [|now split].
    destruct (reconnecting st); [now split|].
    destruct (connect _); cbn [fst snd _downstreams with_downstreams _config];
      now rewrite !keys_update.
  - unfold onProcessExit. cbn [_downstreams with_downstreams _config].
    now rewrite keys_update.
Qed.

(** The key order is an invariant of the run. *)
Lemma reachable_keys cfg m :
  reachable cfg m -> getClusterUrls m = configuredOrder cfg.
Proof.
  induction 1 as [connect now | m m' _ IH Hstep].
  - apply initializeAll_keys.
  - apply managerStep_keys in Hstep as [-> _]. exact IH.
Qed.

Lemma get_of_elem {V} (ds : JsMap.t V) (k : string) (v : V) :
  NoDup (JsMap.keys ds) -> (k, v) ∈ ds -> JsMap.get k ds = Some v.
Proof.
  induction ds as [|[k0 v0] ds IH]; intros Hnd Hin; [now apply elem_of_nil in Hin|].
  simpl in Hnd. apply NoDup_cons in Hnd as [Hk0 Hnd].
  apply elem_of_cons in Hin as [[= -> ->] | Hin]; simpl.
  - now rewrite String.eqb_refl.
  - destruct (String.eqb k0 k) eqn:E; [|now apply IH].
    apply String.eqb_eq in E as ->. exfalso. apply Hk0.
    apply list_elem_of_fmap. now exists (k, v).
Qed.

Lemma live_keys_filter (ds : JsMap.t DownstreamState) (f : string -> bool) :
  (forall k v, (k, v) ∈ ds -> f k = isLive v) ->
  map fst (filter (fun e => isLive e.2) ds) = filter f (JsMap.keys ds).
Proof.
  induction ds as [|[k v] ds IH]; intros Hf; [reflexivity|].
  change (JsMap.keys ((k, v) :: ds)) with (k :: JsMap.keys ds).
  assert (f k = isLive v) as Hk by (apply Hf; left).
  assert (map fst (filter (fun e => isLive e.2) ds) = filter f (JsMap.keys ds)) as IH'
    by (apply IH; intros k' v' Hin; apply Hf; now right).
  destruct (isLive v) eqn:E.
  - rewrite (filter_cons_True (fun e : string * DownstreamState => isLive e.2))
      by (cbn [snd]; now rewrite E).
    rewrite (filter_cons_True f) by now rewrite Hk.
    cbn [map fst]. now rewrite IH'.
  - rewrite (filter_cons_False (fun e : string * DownstreamState => isLive e.2))
      by (cbn [snd]; now rewrite E).
    rewrite (filter_cons_False f) by now rewrite Hk.
    exact IH'.
Qed.

Lemma connected_keys (m : DownstreamManager) :
  NoDup (getClusterUrls m) ->
  map fst (connectedDownstreams m) = filter (liveAt m) (getClusterUrls m).
Proof.
  intros Hnd. apply live_keys_filter. intros k v Hin.
  unfold liveAt. now rewrite (get_of_elem _ k v Hnd Hin).
Qed.

End ManagerOrder.

(** C10. In every manager that a run reaches from [initializeAll], a fan-out
    with at least one connected endpoint merges the per-endpoint contents in
    the order in which the records were inserted, which is the order of the
    configuration with duplicates dropped: the merged content is the
    concatenation, over the configured endpoints in that order that are
    connected, of the content that call-on-one returns for each. The result
    is a function of the state, the same for any two runs over it. *)
Theorem callToolOnAll_order
    (clientCallTool : handle -> string -> Args -> CallOutcome)
    (cfg : RouterConfig) (m : DownstreamManager) (toolName : string) (args : Args) :
  reachable cfg m ->
  connectedDownstreams m <> [] ->
  getClusterUrls m = configuredOrder cfg
  /\ content (callToolOnAll clientCallTool toolName args m).1
     = concat (map (fun url => content (callTool clientCallTool url toolName args m).1)
                 (filter (liveAt m) (configuredOrder cfg))).
Proof.
  intros Hreach Hsome.
  pose proof (reachable_keys cfg m Hreach) as Hkeys.
  split; [exact Hkeys|].
  rewrite callToolOnAll_nonempty by exact Hsome. cbn [content].
  unfold perEndpoint. rewrite <- Hkeys, <- connected_keys.
  - now rewrite !map_map.
  - rewrite Hkeys. apply keepFirst_NoDup.
Qed.


Lemma callToolOnAll_order_witness :
  getClusterUrls (initializeAll Sample.connects "t0" (newDownstreamManager Sample.dupCfg))
  = [Sample.c1; Sample.c2]
  /\ content (callToolOnAll Sample.answering "kusto_cluster_list" ∅
                (initializeAll Sample.connects "t0"
                   (newDownstreamManager Sample.dupCfg))).1
     = [textContent "rows of c1"; textContent "rows of c2"].
Proof.
  destruct (callToolOnAll_order Sample.answering Sample.dupCfg
              (initializeAll Sample.connects "t0" (newDownstreamManager Sample.dupCfg))
              "kusto_cluster_list" ∅) as [Hkeys Hcontent].
  - apply reach_init.
  - discriminate.
  - split; [rewrite Hkeys | rewrite Hcontent]; reflexivity.
Defined.

(** What a key that normalization does not fix costs: the record is stored
    under ["https:"], connects, and counts as connected, but [callTool], which
    normalizes the key it is given once more, looks under ["https://https:"]
    and refuses; a fan-out reaches no child. *)
Lemma unstable_key_is_unreachable :
  let m := initializeAll Sample.connects "t0" (newDownstreamManager Sample.schemeOnlyCfg) in
  getClusterUrls m = ["https:"]
  /\ liveAt m "https:" = true
  /\ callToolOnAll Sample.answering "kusto_cluster_list" ∅ m
     = ({| content := [textContent (unknownClusterText "https:" m)];
           isError := Some true |},
        [ EvCallToolOnAll "kusto_cluster_list" ∅;
          EvCallTool "https:" "kusto_cluster_list" ∅ ]).
Proof. repeat split. Qed.

(** ** The failure count of a connected record *)

Section FailureCount.

Lemma update_Forall {V} (P : V -> Prop) (key : string) (f : V -> V) (m : JsMap.t V) :
  (forall v, P v -> P (f v)) ->
  Forall (fun e => P e.2) m -> Forall (fun e => P e.2) (JsMap.update key f m).
Proof.
  intros Hf. induction 1 as [|[k v] m Hv Hm IH]; cbn [JsMap.update]; [constructor|].
  destruct (String.eqb k key); constructor; try assumption.
  cbn [snd] in *. now apply Hf.
Qed.

Lemma set_Forall {V} (P : V -> Prop) (key : string) (v : V) (m : JsMap.t V) :
  P v -> Forall (fun e => P e.2) m -> Forall (fun e => P e.2) (JsMap.set key v m).
Proof.
  intros Hv. induction 1 as [|[k v'] m Hv' Hm IH]; cbn [JsMap.set].
  - now repeat constructor.
  - destruct (String.eqb k key); constructor; assumption.
Qed.

Lemma get_Forall {V} (P : V -> Prop) (key : string) (v : V) (m : JsMap.t V) :
  Forall (fun e => P e.2) m -> JsMap.get key m = Some v -> P v.
Proof.
  induction 1 as [|[k v'] m Hv' _ IH]; cbn [JsMap.get]; [discriminate|].
  destruct (String.eqb k key); [now intros [= <-] | exact IH].
Qed.

Lemma initializeOne_freshCount connect now m mp :
  Forall (fun e => freshCount e.2) (_downstreams m) ->
  Forall (fun e => freshCount e.2) (_downstreams (initializeOne connect now m mp)).
Proof.
  intros H. unfold initializeOne.
  destruct (JsMap.has _ _); [exact H|].
  destruct (connect _); cbn [_downstreams with_downstreams];
    apply update_Forall; try (intros v _ Hs; try reflexivity; discriminate Hs);
    apply set_Forall; try exact H; intros Hs; discriminate Hs.
Qed.

Lemma managerStep_freshCount m m' :
  managerStep m m' ->
  Forall (fun e => freshCount e.2) (_downstreams m) ->
  Forall (fun e => freshCount e.2) (_downstreams m').
Proof.
  intros [now url answered m0 | connect now url m0 | key m0] H.
  - unfold pingSettled. cbn [_downstreams with_downstreams].
    destruct answered; apply update_Forall; try exact H; intros v _ Hs;
      try reflexivity;
      unfold ping_failed in Hs; cbn [status] in Hs;
      destruct (3 <=? S (consecutiveFailures v))%nat; discriminate Hs.
  - unfold reconnect.
    destruct (JsMap.get _ _) as [st|]; [|exact H].
    destruct (reconnecting st); [exact H|].
    destruct (connect _); cbn [fst snd _downstreams with_downstreams].
    + apply update_Forall; [intros v _ _; reflexivity|].
      apply update_Forall; [intros v Hv; exact Hv | exact H].
    + apply update_Forall; [intros v _ Hs; discriminate Hs|].
      apply update_Forall; [intros v Hv; exact Hv | exact H].
  - unfold onProcessExit. cbn [_downstreams with_downstreams].
    apply update_Forall; [intros v _ Hs; discriminate Hs | exact H].
Qed.

(** In every manager of a run, a connected record counts no failure: a
    ping that fails takes the record out of [Connected], whenever it
    settles, and only a reconnect, which zeroes the count, brings it
    back. *)
Lemma reachable_freshCount cfg m :
  reachable cfg m -> Forall (fun e => freshCount e.2) (_downstreams m).
Proof.
  induction 1 as [connect now | m m' _ IH Hstep].
  - unfold initializeAll.
    assert (forall l m0, Forall (fun e => freshCount e.2) (_downstreams m0) ->
              Forall (fun e => freshCount e.2)
                (_downstreams (fold_left (initializeOne connect now) l m0))) as Hfold.
    { induction l as [|mp l IHl]; intros m0 H0; [exact H0|].
      apply IHl, initializeOne_freshCount, H0. }
    apply Hfold. constructor.
  - eapply managerStep_freshCount; eassumption.
Qed.

(** [ping] is its two halves run without anything in between. *)
Lemma ping_halves clientPing now clusterUrl m :
  ping clientPing now clusterUrl m
  = match pingBegin clusterUrl m with
    | None => (false, m, [])
    | Some c =>
        match clientPing c with
        | PingAnswered => (true, pingSettled now clusterUrl true m, [EvClientPing c])
        | PingThrew _ | PingTimedOut =>
            (false, pingSettled now clusterUrl false m, [EvClientPing c])
        end
    end.
Proof.
  unfold ping, pingBegin, pingSettled.
  destruct (JsMap.get _ _) as [st|]; [|reflexivity].
  destruct (client st) as [c|]; [|reflexivity].
  destruct (bool_decide _); [|reflexivity].
  now destruct (clientPing c).
Qed.

Lemma failed_ping_counts now clusterUrl m st :
  JsMap.get (normalizeClusterUrl clusterUrl) (_downstreams m) = Some st ->
  JsMap.get (normalizeClusterUrl clusterUrl)
    (_downstreams (pingSettled now clusterUrl false m)) = Some (ping_failed st).
Proof.
  intros Hget. unfold pingSettled. cbn [_downstreams with_downstreams].
  now rewrite get_update_eq, Hget.
Qed.

(** X7. Pings of one endpoint overlap when a tick begins before the ping of
    an earlier tick has settled. In a run, for a record that is [Connected]
    with a client: a ping that is called reaches the client, and so does
    every further ping called before one has failed; a ping that fails
    leaves the record [Failed] with a count of one, and from then on a ping
    is refused before it reaches the client, so pings that do not overlap
    never count beyond one; when three pings that were under way together
    fail, the second leaves the record [Failed] with a count of two and the
    third [Disconnected] with a count of three. *)
Theorem overlapping_pings_disconnect cfg m now clusterUrl st c :
  reachable cfg m ->
  JsMap.get (normalizeClusterUrl clusterUrl) (_downstreams m) = Some st ->
  client st = Some c -> status st = Connected ->
  let key := normalizeClusterUrl clusterUrl in
  let m1 := pingSettled now clusterUrl false m in
  let m2 := pingSettled now clusterUrl false m1 in
  let m3 := pingSettled now clusterUrl false m2 in
  pingBegin clusterUrl m = Some c
  /\ (exists st1, JsMap.get key (_downstreams m1) = Some st1
                  /\ status st1 = Failed /\ consecutiveFailures st1 = 1)
  /\ pingBegin clusterUrl m1 = None
  /\ (exists st2, JsMap.get key (_downstreams m2) = Some st2
                  /\ status st2 = Failed /\ consecutiveFailures st2 = 2)
  /\ (exists st3, JsMap.get key (_downstreams m3) = Some st3
                  /\ status st3 = Disconnected /\ consecutiveFailures st3 = 3)
  /\ reachable cfg m3.
Proof.
  intros Hreach Hget Hc Hs key m1 m2 m3.
  pose proof (get_Forall _ _ _ _ (reachable_freshCount cfg m Hreach) Hget Hs) as Hzero.
  pose proof (failed_ping_counts now clusterUrl m st Hget) as H1.
  pose proof (failed_ping_counts now clusterUrl _ _ H1) as H2.
  pose proof (failed_ping_counts now clusterUrl _ _ H2) as H3.
  fold m1 in H1, H2, H3. fold m2 in H2, H3. fold m3 in H3.
  assert (status (ping_failed st) = Failed
          /\ consecutiveFailures (ping_failed st) = 1) as [Hs1 Hn1].
  { unfold ping_failed. cbn [status consecutiveFailures]. now rewrite Hzero. }
  assert (status (ping_failed (ping_failed st)) = Failed
          /\ consecutiveFailures (ping_failed (ping_failed st)) = 2) as [Hs2 Hn2].
  { unfold ping_failed at 1 3. cbn [status consecutiveFailures]. now rewrite Hn1. }
  assert (status (ping_failed (ping_failed (ping_failed st))) = Disconnected
          /\ consecutiveFailures (ping_failed (ping_failed (ping_failed st))) = 3)
    as [Hs3 Hn3].
  { unfold ping_failed at 1 4. cbn [status consecutiveFailures]. now rewrite Hn2. }
  split.
  { unfold pingBegin. now rewrite Hget, Hc, bool_decide_eq_true_2 by exact Hs. }
  split; [eauto|]. split.
  { unfold pingBegin. rewrite H1.
    destruct (client (ping_failed st)); [|reflexivity].
    rewrite bool_decide_eq_false_2; [reflexivity|]. rewrite Hs1. discriminate. }
  split; [eauto|]. split; [eauto|].
  do 3 (eapply reach_step; [|apply step_ping_settled]). exact Hreach.
Qed.

End FailureCount.

(** ** Dispatch *)

Section Dispatch.
Variable clientCallTool : handle -> string -> Args -> CallOutcome.

Lemma callTool_events (url toolName : string) (args : Args) (m : DownstreamManager) :
  exists rest,
    (callTool clientCallTool url toolName args m).2
    = EvCallTool url toolName args :: rest
    /\ Forall (fun e => eventArgs e = Some args) rest.
Proof.
  unfold callTool.
  destruct (JsMap.get _ _) as [st|]; [|exists []; now split].
  destruct (client st) as [c|]; [|exists []; now split].
  destruct (bool_decide _); [|exists []; now split].
  destruct (clientCallTool c toolName args);
    (eexists; split; [reflexivity | repeat constructor]).
Qed.

Lemma callTool_eventArgs (url toolName : string) (args : Args) (m : DownstreamManager) :
  Forall (fun e => eventArgs e = Some args)
    (callTool clientCallTool url toolName args m).2.
Proof.
  destruct (callTool_events url toolName args m) as (rest & -> & Hrest).
  now constructor.
Qed.

Lemma callToolOnAll_events (toolName : string) (args : Args) (m : DownstreamManager) :
  exists rest,
    (callToolOnAll clientCallTool toolName args m).2
    = EvCallToolOnAll toolName args :: rest
    /\ Forall (fun e => eventArgs e = Some args) rest.
Proof.
  unfold callToolOnAll.
  destruct (connectedDownstreams m) as [|e es]; [exists []; now split|].
  destruct (mergeResults _ _ _) as [merged hasError].
  eexists. split; [reflexivity|].
  apply Forall_concat, Forall_fmap, Forall_fmap, Forall_forall.
  intros x _. apply callTool_eventArgs.
Qed.

Lemma strippedOf_delete (args : Args) : strippedOf args (delete "cluster" args).
Proof.
  split; [apply lookup_delete_eq|].
  intros k Hk. apply lookup_delete_ne. congruence.
Qed.

Lemma routeToCluster_eventArgs (toolName : string) (args : Args) (m : DownstreamManager) :
  Forall (fun e => eventArgs e = Some args)
    (_routeToCluster clientCallTool toolName args m).2.
Proof.
  unfold _routeToCluster.
  destruct (negb (truthy_opt (args !! "cluster"))); [constructor|].
  destruct (args !! "cluster") as [[| | |c| |]|]; try constructor.
  destruct (findCluster _ _) as [u|]; [|constructor].
  destruct (JsString.truthy u); [|constructor].
  apply callTool_eventArgs.
Qed.

Lemma routeFanOut_eventArgs (toolName : string) (args : Args) (m : DownstreamManager) :
  Forall (fun e => eventArgs e = Some (delete "cluster" args))
    (_routeFanOut clientCallTool toolName args m).2.
Proof.
  unfold _routeFanOut.
  destruct (truthy_opt (args !! "cluster")).
  - destruct (args !! "cluster") as [[| | |c| |]|]; try constructor.
    destruct (findCluster _ _) as [u|]; [|constructor].
    destruct (JsString.truthy u); [|constructor].
    apply callTool_eventArgs.
  - destruct (callToolOnAll_events toolName (delete "cluster" args) m)
      as (rest & Hev & Hrest).
    cbn [snd]. rewrite Hev. now constructor.
Qed.

(** C4. Whatever [routeCall] hands to the manager, and whatever the manager
    hands to a child on its behalf, carries for a routable tool the caller's
    arguments unchanged ([cluster] included), and for a fan-out tool the
    caller's arguments with exactly the key [cluster] removed. The calls are
    made: a fan-out tool without a usable [cluster] is passed to
    [callToolOnAll], and a tool with a [cluster] that normalizes to a
    configured endpoint is passed to [callTool] for that endpoint. A name in
    both sets is treated as routable, the first test of [routeCall]. *)
Theorem routeCall_forwarded_args (r : ToolRouter) (toolName : string) (args : Args)
    (m : DownstreamManager) :
  let evs := (routeCall clientCallTool r toolName args m).2 in
  (toolName ∈ _routableTools r ->
     Forall (fun e => eventArgs e = Some args) evs)
  /\ (toolName ∉ _routableTools r -> toolName ∈ _fanOutTools r ->
        Forall (fun e => exists fwd, eventArgs e = Some fwd /\ strippedOf args fwd) evs)
  /\ (toolName ∉ _routableTools r -> toolName ∈ _fanOutTools r ->
      truthy_opt (args !! "cluster") = false ->
        exists fwd rest, evs = EvCallToolOnAll toolName fwd :: rest
                         /\ strippedOf args fwd)
  /\ (forall c u,
        args !! "cluster" = Some (JStr c) -> JsString.truthy c = true ->
        findCluster (normalizeClusterUrl c) (getClusterUrls m) = Some u ->
        JsString.truthy u = true ->
        (toolName ∈ _routableTools r ->
           exists rest, evs = EvCallTool u toolName args :: rest)
        /\ (toolName ∉ _routableTools r -> toolName ∈ _fanOutTools r ->
              exists fwd rest, evs = EvCallTool u toolName fwd :: rest
                               /\ strippedOf args fwd)).
Proof.
  intros evs. unfold evs, routeCall. split; [|split; [|split]].
  - intros Hr. rewrite bool_decide_eq_true_2 by exact Hr.
    apply routeToCluster_eventArgs.
  - intros Hr Hf.
    rewrite bool_decide_eq_false_2, bool_decide_eq_true_2 by assumption.
    eapply Forall_impl; [apply routeFanOut_eventArgs|].
    intros e He. exists (delete "cluster" args).
    split; [exact He | apply strippedOf_delete].
  - intros Hr Hf Hc.
    rewrite bool_decide_eq_false_2, bool_decide_eq_true_2 by assumption.
    unfold _routeFanOut. rewrite Hc.
    destruct (callToolOnAll_events toolName (delete "cluster" args) m)
      as (rest & Hev & _).
    exists (delete "cluster" args), rest. cbn [snd].
    split; [exact Hev | apply strippedOf_delete].
  - intros c u Hcl Hc Hfind Hu. split.
    + intros Hr. rewrite bool_decide_eq_true_2 by exact Hr.
      unfold _routeToCluster. rewrite Hcl. cbn [truthy_opt js_truthy].
      rewrite Hc. cbn [negb]. rewrite Hfind, Hu.
      destruct (callTool_events u toolName args m) as (rest & Hev & _).
      exists rest. exact Hev.
    + intros Hr Hf.
      rewrite bool_decide_eq_false_2, bool_decide_eq_true_2 by assumption.
      unfold _routeFanOut. rewrite Hcl. cbn [truthy_opt js_truthy].
      rewrite Hc, Hfind, Hu.
      destruct (callTool_events u toolName (delete "cluster" args) m)
        as (rest & Hev & _).
      exists (delete "cluster" args), rest.
      split; [exact Hev | apply strippedOf_delete].
Qed.

End Dispatch.


Lemma routeCall_forwarded_args_witness :
  (exists rest,
     (routeCall Sample.answering Sample.router "kusto_query" Sample.queryArgs
        (Sample.bothUp [])).2
     = EvCallTool Sample.c1 "kusto_query" Sample.queryArgs :: rest)
  /\ (exists fwd rest,
        (routeCall Sample.answering Sample.router "kusto_cluster_list"
           (Sample.listArgsOn Sample.c1) (Sample.bothUp [])).2
        = EvCallTool Sample.c1 "kusto_cluster_list" fwd :: rest
        /\ strippedOf (Sample.listArgsOn Sample.c1) fwd)
  /\ (exists fwd rest,
        (routeCall Sample.answering Sample.router "kusto_cluster_list"
           Sample.listArgs (Sample.bothUp [])).2
        = EvCallToolOnAll "kusto_cluster_list" fwd :: rest
        /\ strippedOf Sample.listArgs fwd).
Proof.
  assert ("kusto_query" ∈ _routableTools Sample.router) as Hq
    by (change ("kusto_query" ∈ ({["kusto_query"]} : gset string));
        apply elem_of_singleton; reflexivity).
  assert ("kusto_cluster_list" ∉ _routableTools Sample.router) as Hl
    by (change ("kusto_cluster_list" ∉ ({["kusto_query"]} : gset string));
        intros H; apply elem_of_singleton in H; discriminate H).
  assert ("kusto_cluster_list" ∈ _fanOutTools Sample.router) as Hf
    by (change ("kusto_cluster_list" ∈ ({["kusto_cluster_list"]} : gset string));
        apply elem_of_singleton; reflexivity).
  split; [|split].
  - destruct (routeCall_forwarded_args Sample.answering Sample.router "kusto_query"
                Sample.queryArgs (Sample.bothUp [])) as (_ & _ & _ & H).
    destruct (H "https://C1.EXAMPLE/" Sample.c1) as [H1 _]; try reflexivity.
    exact (H1 Hq).
  - destruct (routeCall_forwarded_args Sample.answering Sample.router
                "kusto_cluster_list" (Sample.listArgsOn Sample.c1)
                (Sample.bothUp [])) as (_ & _ & _ & H).
    destruct (H Sample.c1 Sample.c1) as [_ H2]; try reflexivity.
    exact (H2 Hl Hf).
  - destruct (routeCall_forwarded_args Sample.answering Sample.router
                "kusto_cluster_list" Sample.listArgs (Sample.bothUp []))
      as (_ & _ & H & _).
    apply H; [exact Hl | exact Hf | reflexivity].
Defined.

(** The three dispatch scenarios of the specification, run. *)
Lemma dispatch_scenarios :
  (routeCall Sample.answering Sample.router "kusto_query" Sample.queryArgs
     (Sample.bothUp [])).2
  = [ EvCallTool Sample.c1 "kusto_query" Sample.queryArgs;
      EvClientCallTool 1 "kusto_query" Sample.queryArgs ]
  /\ (routeCall Sample.answering Sample.router "kusto_cluster_list"
        (Sample.listArgsOn Sample.c1) (Sample.bothUp [])).2
     = [ EvCallTool Sample.c1 "kusto_cluster_list" Sample.listArgs;
         EvClientCallTool 1 "kusto_cluster_list" Sample.listArgs ]
  /\ (routeCall Sample.answering Sample.router "kusto_cluster_list"
        Sample.listArgs (Sample.bothUp []))
     = (Normal {| content := [textContent "rows of c1"; textContent "rows of c2"];
                  isError := Some false |},
        [ EvCallToolOnAll "kusto_cluster_list" Sample.listArgs;
          EvCallTool Sample.c1 "kusto_cluster_list" Sample.listArgs;
          EvClientCallTool 1 "kusto_cluster_list" Sample.listArgs;
          EvCallTool Sample.c2 "kusto_cluster_list" Sample.listArgs;
          EvClientCallTool 2 "kusto_cluster_list" Sample.listArgs ]).
Proof. repeat split; vm_compute; reflexivity. Qed.

(** C7, as the code has it. For a tool name in neither set, [routeCall]
    tests the truthiness of [args.cluster]: with a truthy value (a non-empty
    string, a non-zero number, [true], an array or an object) the call is
    handed to route-to-one, whatever that then does with it; with no
    [cluster], or a falsy one (the empty string, [null], [false], [0]), the
    result is a text item flagged [isError = true] that names the tool and
    every tool of the merged list, and the manager is not called. *)
Theorem routeCall_unknown_tool
    (clientCallTool : handle -> string -> Args -> CallOutcome)
    (r : ToolRouter) (toolName : string) (args : Args) (m : DownstreamManager) :
  toolName ∉ _routableTools r -> toolName ∉ _fanOutTools r ->
  (truthy_opt (args !! "cluster") = true ->
     routeCall clientCallTool r toolName args m
     = _routeToCluster clientCallTool toolName args m)
  /\ (truthy_opt (args !! "cluster") = false ->
        routeCall clientCallTool r toolName args m
        = (Normal (unknownTool toolName r), [])
        /\ isError (unknownTool toolName r) = Some true
        /\ exists text,
             content (unknownTool toolName r) = [textContent text]
             /\ JsString.includes text toolName = true
             /\ mentionsAll text (map name (_mergedTools r))).
Proof.
  intros Hr Hf. unfold routeCall.
  rewrite !bool_decide_eq_false_2 by assumption.
  split; intros Hc; rewrite Hc; [reflexivity|].
  split; [reflexivity|]. split; [reflexivity|].
  eexists. split; [reflexivity|]. split.
  - do 2 apply includes_app_r. apply includes_here.
  - apply Forall_forall. intros u Hu.
    do 5 apply includes_app_r. apply join_mentions, list_elem_of_In, Hu.
Qed.

Lemma routeCall_unknown_tool_witness :
  routeCall Sample.answering Sample.router "mystery" ∅ (Sample.bothUp [])
  = (Normal (unknownTool "mystery" Sample.router), [])
  /\ routeCall Sample.answering Sample.router "mystery" (Sample.listArgsOn Sample.c2)
       (Sample.bothUp [])
     = _routeToCluster Sample.answering "mystery" (Sample.listArgsOn Sample.c2)
         (Sample.bothUp []).
Proof.
  assert ("mystery" ∉ _routableTools Sample.router) as Hr
    by (change ("mystery" ∉ ({["kusto_query"]} : gset string));
        intros H; apply elem_of_singleton in H; discriminate H).
  assert ("mystery" ∉ _fanOutTools Sample.router) as Hf
    by (change ("mystery" ∉ ({["kusto_cluster_list"]} : gset string));
        intros H; apply elem_of_singleton in H; discriminate H).
  split.
  - apply (routeCall_unknown_tool Sample.answering Sample.router "mystery" ∅
             (Sample.bothUp []) Hr Hf). reflexivity.
  - apply (routeCall_unknown_tool Sample.answering Sample.router "mystery"
             (Sample.listArgsOn Sample.c2) (Sample.bothUp []) Hr Hf). reflexivity.
Defined.

(** C7, as stated, fails when [cluster] is present and empty: the call does
    not go through route-to-one, whose answer would be "cluster parameter is
    required"; the answer is "Unknown tool". *)
Lemma routeCall_unknown_tool_empty_cluster :
  ~ unknownWithClusterIsRouted Sample.answering Sample.router "mystery"
      (Sample.listArgsOn EmptyString) (Sample.bothUp []).
Proof.
  intros H.
  assert (routeCall Sample.answering Sample.router "mystery"
            (Sample.listArgsOn EmptyString) (Sample.bothUp [])
          = _routeToCluster Sample.answering "mystery"
              (Sample.listArgsOn EmptyString) (Sample.bothUp [])) as E.
  { apply H.
    - change ("mystery" ∉ ({["kusto_query"]} : gset string)).
      intros Hin. apply elem_of_singleton in Hin. discriminate Hin.
    - change ("mystery" ∉ ({["kusto_cluster_list"]} : gset string)).
      intros Hin. apply elem_of_singleton in Hin. discriminate Hin.
    - exists (JStr EmptyString). reflexivity. }
  vm_compute in E. discriminate E.
Qed.

(** ** Reconnect backoff *)

Section Backoff.
Variable clusterUrl : string.
Implicit Type h : HealthMonitor.

Lemma schedule_arms h :
  _reconnectTimers h !! clusterUrl = None ->
  _reconnectTimers (_scheduleReconnect clusterUrl h) !! clusterUrl
  = Some (timerFor (default 1%Z (_reconnectBackoffs h !! clusterUrl)))
  /\ _reconnectBackoffs (_scheduleReconnect clusterUrl h) = _reconnectBackoffs h
  /\ _running (_scheduleReconnect clusterUrl h) = _running h
  /\ h_config (_scheduleReconnect clusterUrl h) = h_config h.
Proof.
  intros Hnone. unfold _scheduleReconnect. rewrite Hnone.
  cbn [_reconnectTimers with_timers _reconnectBackoffs _running h_config].
  now rewrite lookup_insert_eq.
Qed.

(** Scheduling is idempotent: a pending timer is left alone. *)
Lemma schedule_pending h t :
  _reconnectTimers h !! clusterUrl = Some t -> _scheduleReconnect clusterUrl h = h.
Proof. intros Hsome. unfold _scheduleReconnect. now rewrite Hsome. Qed.

(** The callback after its [await], whatever happened to the monitor in the
    meantime: a success clears the stored backoff; a failure stores the
    doubled, capped backoff, and arms a timer for it unless one is pending or
    the monitor was stopped. *)
Lemma reconnectSettled_spec h (cur : Z) :
  _reconnectBackoffs (reconnectSettled clusterUrl cur true h) !! clusterUrl = None
  /\ _reconnectBackoffs (reconnectSettled clusterUrl cur false h) !! clusterUrl
     = Some (Z.min (cur * 2) (maxReconnectBackoffSeconds (h_config h)))
  /\ (_running h = true -> _reconnectTimers h !! clusterUrl = None ->
      _reconnectTimers (reconnectSettled clusterUrl cur false h) !! clusterUrl
      = Some (timerFor (Z.min (cur * 2) (maxReconnectBackoffSeconds (h_config h))))).
Proof.
  unfold reconnectSettled. cbn [_running with_backoffs]. repeat split.
  - cbn [_reconnectBackoffs with_backoffs]. apply lookup_delete_eq.
  - destruct (_running h).
    + unfold _scheduleReconnect. cbn [_reconnectTimers with_backoffs].
      destruct (_reconnectTimers h !! clusterUrl);
        cbn [_reconnectBackoffs with_backoffs with_timers]; apply lookup_insert_eq.
    + cbn [_reconnectBackoffs with_backoffs]. apply lookup_insert_eq.
  - intros -> Hnone.
    match goal with
    | |- _reconnectTimers (_scheduleReconnect _ ?x) !! _ = _ =>
        destruct (schedule_arms x Hnone) as [-> _]
    end.
    cbn [_reconnectBackoffs with_backoffs]. now rewrite lookup_insert_eq.
Qed.

(** The first half of the timer callback, for a pending timer of a running
    monitor: the timer leaves the pending set and the callback goes on to
    [reconnect], holding the backoff that the timer was armed with. *)
Lemma timerFired_pending h t :
  _running h = true ->
  _reconnectTimers h !! clusterUrl = Some t ->
  timerFired clusterUrl h
  = (Some (currentBackoff t),
     with_timers (delete clusterUrl (_reconnectTimers h)) h).
Proof.
  intros Hrun Ht. unfold timerFired. rewrite Ht.
  cbn [_running with_timers]. now rewrite Hrun.
Qed.

(** The second half leaves a pending timer, the running flag and the
    configuration as they are. *)
Lemma reconnectSettled_frame h (cur : Z) (ok : bool) :
  _running (reconnectSettled clusterUrl cur ok h) = _running h
  /\ h_config (reconnectSettled clusterUrl cur ok h) = h_config h
  /\ (forall t, _reconnectTimers h !! clusterUrl = Some t ->
        _reconnectTimers (reconnectSettled clusterUrl cur ok h) !! clusterUrl = Some t).
Proof.
  unfold reconnectSettled. destruct ok.
  - now repeat split.
  - cbn [_running with_backoffs]. destruct (_running h) eqn:Hrun.
    + unfold _scheduleReconnect. cbn [_reconnectTimers with_backoffs].
      destruct (_reconnectTimers h !! clusterUrl) eqn:E.
      * cbn [_running h_config _reconnectTimers with_backoffs]. rewrite E.
        now repeat split.
      * cbn [_running h_config with_timers with_backoffs].
        repeat split; [exact Hrun | discriminate].
    + cbn [_running h_config _reconnectTimers with_backoffs]. now repeat split.
Qed.

Lemma ping_success_clears h :
  let h' := checkOne clusterUrl Connected true h in
  _reconnectBackoffs h' !! clusterUrl = None
  /\ (_reconnectTimers h !! clusterUrl = None ->
      _reconnectTimers (_scheduleReconnect clusterUrl h') !! clusterUrl
      = Some (timerFor 1)).
Proof.
  intros h'. unfold h', checkOne. cbn [negb].
  set (h2 := with_backoffs _ _).
  assert (_reconnectBackoffs h2 !! clusterUrl = None) as Hb
    by apply lookup_delete_eq.
  split; [exact Hb|]. intros Hnone.
  destruct (schedule_arms h2 Hnone) as [-> _]. now rewrite Hb.
Qed.

(** C9. The recurrence holds of every call that arms a timer, and not of
    the attempt that follows a failure. For a running monitor with a timer
    pending for an endpoint: when the timer fires, the callback removes it
    and awaits [reconnect]; [reconnect] ends the child of the endpoint if it
    has one, and the exit listener of that child has the monitor schedule a
    reconnect while the callback still awaits. That timer is armed for the
    backoff stored at that moment (1 second if none is stored). When the
    attempt then fails, the stored backoff becomes
    [min (d * 2) maxReconnectBackoffSeconds], where [d] is what the fired
    timer was armed for, but the call that should arm the next attempt for
    it finds the timer of the exit listener pending and does nothing: the
    next attempt waits the old backoff, and when it fails in turn the stored
    backoff is computed from the old backoff again. When the attempt
    succeeds, the stored backoff is cleared, but the timer of the exit
    listener stays pending, and when it fires it starts another reconnect of
    the endpoint that has just been reconnected. *)
Theorem reconnect_backoff_stale_timer h t :
  _running h = true ->
  _reconnectTimers h !! clusterUrl = Some t ->
  let cur := currentBackoff t in
  let stored := default 1%Z (_reconnectBackoffs h !! clusterUrl) in
  let maxBackoff := maxReconnectBackoffSeconds (h_config h) in
  let awaiting := onDownstreamExit clusterUrl (timerFired clusterUrl h).2 in
  let failed := reconnectSettled clusterUrl cur false awaiting in
  let succeeded := reconnectSettled clusterUrl cur true awaiting in
  let failedAgain :=
    reconnectSettled clusterUrl stored false (timerFired clusterUrl failed).2 in
  (timerFired clusterUrl h).1 = Some cur
  /\ _reconnectTimers awaiting !! clusterUrl = Some (timerFor stored)
  /\ _reconnectBackoffs failed !! clusterUrl = Some (Z.min (cur * 2) maxBackoff)
  /\ _reconnectTimers failed !! clusterUrl = Some (timerFor stored)
  /\ (timerFired clusterUrl failed).1 = Some stored
  /\ _reconnectBackoffs failedAgain !! clusterUrl
     = Some (Z.min (stored * 2) maxBackoff)
  /\ _reconnectTimers failedAgain !! clusterUrl
     = Some (timerFor (Z.min (stored * 2) maxBackoff))
  /\ _reconnectBackoffs succeeded !! clusterUrl = None
  /\ _reconnectTimers succeeded !! clusterUrl = Some (timerFor stored)
  /\ (timerFired clusterUrl succeeded).1 = Some stored.
Proof.
  intros Hrun Ht cur stored maxBackoff awaiting failed succeeded failedAgain.
  pose proof (timerFired_pending h t Hrun Ht) as Hfired.
  set (h1 := with_timers (delete clusterUrl (_reconnectTimers h)) h) in *.
  assert (_reconnectTimers h1 !! clusterUrl = None) as Hnone by apply lookup_delete_eq.
  assert (awaiting = _scheduleReconnect clusterUrl h1) as Hawait.
  { unfold awaiting. rewrite Hfired. cbn [snd]. unfold onDownstreamExit.
    change (_running h1) with (_running h). now rewrite Hrun. }
  destruct (schedule_arms h1 Hnone) as (Harm & Hb1 & Hr1 & Hc1).
  change (_reconnectBackoffs h1) with (_reconnectBackoffs h) in Harm.
  fold stored in Harm. rewrite <- Hawait in Harm, Hr1, Hc1.
  change (_running h1) with (_running h) in Hr1. rewrite Hrun in Hr1.
  change (h_config h1) with (h_config h) in Hc1.
  destruct (reconnectSettled_spec awaiting cur) as (Hok & Hfail & _).
  rewrite Hc1 in Hfail. fold maxBackoff in Hfail.
  destruct (reconnectSettled_frame awaiting cur false) as (Hrf & Hcf & Htf).
  destruct (reconnectSettled_frame awaiting cur true) as (Hrs & _ & Hts).
  specialize (Htf _ Harm). specialize (Hts _ Harm).
  fold failed in Hrf, Hcf, Htf, Hfail. fold succeeded in Hrs, Hts, Hok.
  rewrite Hr1 in Hrf, Hrs. rewrite Hc1 in Hcf.
  pose proof (timerFired_pending failed _ Hrf Htf) as Hfired2.
  pose proof (timerFired_pending succeeded _ Hrs Hts) as Hfired3.
  cbn [currentBackoff timerFor] in Hfired2, Hfired3.
  set (f1 := with_timers (delete clusterUrl (_reconnectTimers failed)) failed) in *.
  assert (_reconnectTimers f1 !! clusterUrl = None) as Hnone2 by apply lookup_delete_eq.
  destruct (reconnectSettled_spec f1 stored) as (_ & Hfail2 & Harm2).
  change (h_config f1) with (h_config failed) in Hfail2, Harm2.
  rewrite Hcf in Hfail2, Harm2. fold maxBackoff in Hfail2, Harm2.
  change (_running f1) with (_running failed) in Harm2.
  specialize (Harm2 Hrf Hnone2).
  unfold failedAgain. rewrite Hfired, Hfired2, Hfired3. cbn [fst snd].
  repeat split; assumption.
Qed.

End Backoff.

Lemma reconnect_backoff_stale_timer_witness :
  let awaiting := onDownstreamExit Sample.c1 (timerFired Sample.c1 Sample.scheduled).2 in
  let failed := reconnectSettled Sample.c1 1 false awaiting in
  let failedAgain :=
    reconnectSettled Sample.c1 1 false (timerFired Sample.c1 failed).2 in
  _reconnectTimers Sample.scheduled !! Sample.c1 = Some (timerFor 1)
  /\ _reconnectBackoffs failed !! Sample.c1 = Some 2%Z
  /\ _reconnectTimers failed !! Sample.c1 = Some (timerFor 1)
  /\ _reconnectBackoffs failedAgain !! Sample.c1 = Some 2%Z
  /\ _reconnectTimers failedAgain !! Sample.c1 = Some (timerFor 2).
Proof.
  intros awaiting failed failedAgain.
  destruct (reconnect_backoff_stale_timer Sample.c1 Sample.scheduled (timerFor 1)
              eq_refl eq_refl)
    as (_ & _ & Hb & Ht & _ & Hb2 & Ht2 & _).
  split; [reflexivity|].
  split; [exact Hb|]. split; [exact Ht|]. split; [exact Hb2 | exact Ht2].
Defined.

Section BackoffSequence.
Variable clusterUrl : string.

Lemma monitorStep_config h h' : monitorStep h h' -> h_config h' = h_config h.
Proof.
  intros [url h0 | url h0 | url cur ok h0 | url h0 | url st ok h0 | h0].
  - unfold _scheduleReconnect. now destruct (_reconnectTimers h0 !! url).
  - unfold timerFired. destruct (_reconnectTimers h0 !! url); [|reflexivity].
    cbn [_running with_timers]. now destruct (negb (_running h0)).
  - apply reconnectSettled_frame.
  - unfold onDownstreamExit. destruct (_running h0); [|reflexivity].
    unfold _scheduleReconnect. now destruct (_reconnectTimers h0 !! url).
  - unfold checkOne. destruct st; try reflexivity.
    + destruct ok; cbn [negb]; [reflexivity|].
      unfold _scheduleReconnect. now destruct (_reconnectTimers h0 !! url).
    + destruct (_reconnectTimers h0 !! url) eqn:E; [reflexivity|].
      unfold _scheduleReconnect. now rewrite E.
    + destruct (_reconnectTimers h0 !! url) eqn:E; [reflexivity|].
      unfold _scheduleReconnect. now rewrite E.
  - unfold stop. now destruct (negb (_running h0)).
Qed.

(** Quiet steps keep the timer of the endpoint, the running flag and the
    configuration. *)
Lemma quiet_frame h h' :
  rtc (quietStep clusterUrl) h h' ->
  _reconnectTimers h' !! clusterUrl = _reconnectTimers h !! clusterUrl
  /\ _running h' = _running h
  /\ h_config h' = h_config h.
Proof.
  induction 1 as [|x y z (Hstep & Ht & Hr) _ (IHt & IHr & IHc)]; [now repeat split|].
  rewrite IHt, IHr, IHc, Ht, Hr. repeat split.
  now apply monitorStep_config.
Qed.

(** One failed attempt takes the timer from [d] seconds to
    [min (d * 2) maxReconnectBackoffSeconds]. *)
Lemma failedAttempt_doubles (h h' : HealthMonitor) (d : Z) :
  _running h = true ->
  _reconnectTimers h !! clusterUrl = Some (timerFor d) ->
  failedAttempt clusterUrl h h' ->
  _running h' = true
  /\ h_config h' = h_config h
  /\ _reconnectTimers h' !! clusterUrl
     = Some (timerFor (Z.min (d * 2) (maxReconnectBackoffSeconds (h_config h)))).
Proof.
  intros Hrun Ht Hatt.
  destruct Hatt as [h h0 cur h1 h2 Hq0 Hfire Hq1].
  destruct (quiet_frame _ _ Hq0) as (Ht0 & Hr0 & Hc0).
  rewrite Ht in Ht0. rewrite Hrun in Hr0.
  rewrite (timerFired_pending clusterUrl h0 _ Hr0 Ht0) in Hfire.
  injection Hfire as <- <-. cbn [currentBackoff timerFor] in *.
  destruct (quiet_frame _ _ Hq1) as (Ht1 & Hr1 & Hc1).
  cbn [_reconnectTimers _running h_config with_timers] in Ht1, Hr1, Hc1.
  rewrite lookup_delete_eq in Ht1. rewrite Hr0 in Hr1. rewrite Hc0 in Hc1.
  destruct (reconnectSettled_frame clusterUrl h2 d false) as (Hr & Hc & _).
  destruct (reconnectSettled_spec clusterUrl h2 d) as (_ & _ & Harm).
  rewrite Hr, Hc, Hr1, Hc1. split; [reflexivity|]. split; [reflexivity|].
  rewrite (Harm Hr1 Ht1), Hc1. reflexivity.
Qed.

(** The delays of a run of failures: 1 second, then doubled and capped
    after each failure. *)
Lemma backoff_sequence (n : nat) (h hn : HealthMonitor) :
  nsteps (failedAttempt clusterUrl) n h hn ->
  forall (k : nat) (maxBackoff : Z),
    _running h = true ->
    maxReconnectBackoffSeconds (h_config h) = maxBackoff ->
    _reconnectTimers h !! clusterUrl = Some (timerFor (backoffAfter maxBackoff k)) ->
    _reconnectTimers hn !! clusterUrl
    = Some (timerFor (backoffAfter maxBackoff (k + n))).
Proof.
  induction 1 as [x | n x y z Hatt _ IH]; intros k maxBackoff Hrun Hmax Ht.
  - now rewrite Nat.add_0_r.
  - destruct (failedAttempt_doubles x y _ Hrun Ht Hatt) as (Hr' & Hc' & Ht').
    rewrite Hmax in Ht'.
    replace (k + S n) with (S k + n) by lia.
    apply (IH (S k) maxBackoff Hr'); [now rewrite Hc' | exact Ht'].
Qed.

(** With a ceiling of at least one second the [n]-th delay is
    [min (2 ^ n) maxReconnectBackoffSeconds]. *)
Lemma backoffAfter_closed (maxBackoff : Z) (n : nat) :
  (1 <= maxBackoff)%Z ->
  backoffAfter maxBackoff n = Z.min (2 ^ Z.of_nat n) maxBackoff.
Proof.
  intros Hmax. induction n as [|n IH]; cbn [backoffAfter].
  - change (2 ^ Z.of_nat 0)%Z with 1%Z. lia.
  - rewrite IH, Nat2Z.inj_succ, Z.pow_succ_r by lia.
    assert (0 < 2 ^ Z.of_nat n)%Z by (apply Z.pow_pos_nonneg; lia). lia.
Qed.

(** A delay between 1 ms and 2^31-1 ms is waited as it is. *)
Lemma timeoutDelay_in_range (ms : Z) :
  (1 <= ms <= 2147483647)%Z -> timeoutDelay ms = ms.
Proof.
  intros [H1 H2]. unfold timeoutDelay.
  destruct (Z.ltb_spec ms 1); [lia|].
  destruct (Z.ltb_spec 2147483647 ms); [lia | reflexivity].
Qed.

End BackoffSequence.

(** ** The heap *)

Section HeapFacts.
Implicit Types (h : heap) (l : loc).

Lemma hbind_Some {A B} (m : Heap A) (k : A -> Heap B) h a h1 :
  m h = Some (a, h1) -> hbind m k h = k a h1.
Proof. unfold hbind. now intros ->. Qed.

Lemma preserves_refl h : preserves h h.
Proof. now intros l _. Qed.

Lemma preserves_dom h h' l : preserves h h' -> l ∈ dom h -> l ∈ dom h'.
Proof.
  intros Hp Hl. apply elem_of_dom. rewrite Hp by exact Hl. now apply elem_of_dom.
Qed.

Lemma preserves_trans h1 h2 h3 : preserves h1 h2 -> preserves h2 h3 -> preserves h1 h3.
Proof.
  intros H12 H23 l Hl. rewrite H23 by (eapply preserves_dom; eassumption).
  now apply H12.
Qed.

Lemma preserves_insert h0 h l c :
  l ∉ dom h0 -> preserves h0 h -> preserves h0 (<[l := c]> h).
Proof.
  intros Hl Hp l' Hl'. rewrite lookup_insert_ne; [now apply Hp|].
  intros ->. contradiction.
Qed.

Lemma fresh_lookup h : h !! fresh (dom h) = None.
Proof. apply not_elem_of_dom, is_fresh. Qed.

Lemma preserves_fresh h0 h : preserves h0 h -> fresh (dom h) ∉ dom h0.
Proof.
  intros Hp Hin. apply (preserves_dom _ _ _ Hp) in Hin. exact (is_fresh _ Hin).
Qed.

Lemma lookup_dom h l c : h !! l = Some c -> l ∈ dom h.
Proof. intros H. apply elem_of_dom. eauto. Qed.

Lemma childAt_preserved {A} (inj : A -> cell) h h' r (v : option A) :
  preserves h h' -> childAt inj h r v -> childAt inj h' r v.
Proof.
  destruct r as [l|], v as [a|]; simpl; try tauto.
  intros Hp Hc. rewrite Hp; [exact Hc | eapply lookup_dom, Hc].
Qed.

Lemma schemaAt_preserved h h' l v : preserves h h' -> schemaAt h l v -> schemaAt h' l v.
Proof.
  intros Hp (s & Hs & Hps & Hrq & Hap). exists s. repeat split.
  - rewrite Hp; [exact Hs | eapply lookup_dom, Hs].
  - eapply childAt_preserved; eassumption.
  - eapply childAt_preserved; eassumption.
  - exact Hap.
Qed.

Lemma ownedChild_preserved {A} (inj : A -> cell) h0 h h' r (v : option A) :
  preserves h h' -> ownedChild inj h0 h r v -> ownedChild inj h0 h' r v.
Proof.
  destruct r as [l|], v as [a|]; simpl; try tauto.
  intros Hp [Hn Hc]. split; [exact Hn|].
  rewrite Hp; [exact Hc | eapply lookup_dom, Hc].
Qed.

Lemma ownedChild_base {A} (inj : A -> cell) h0 h1 h r (v : option A) :
  preserves h0 h1 -> ownedChild inj h1 h r v -> ownedChild inj h0 h r v.
Proof.
  destruct r as [l|], v as [a|]; simpl; try tauto.
  intros Hp [Hn Hc]. split; [|exact Hc].
  intros Hin. apply Hn. eapply preserves_dom; eassumption.
Qed.

Lemma ownedChild_insert_other {A} (inj : A -> cell) h0 h r (v : option A) l c :
  (forall a, h !! l <> Some (inj a)) ->
  ownedChild inj h0 h r v -> ownedChild inj h0 (<[l := c]> h) r v.
Proof.
  destruct r as [l'|], v as [a|]; simpl; try tauto.
  intros Hl [Hn Hc]. split; [exact Hn|].
  rewrite lookup_insert_ne; [exact Hc|]. intros ->. exact (Hl a Hc).
Qed.

Lemma ownedChild_childAt {A} (inj : A -> cell) h0 h r (v : option A) :
  ownedChild inj h0 h r v -> childAt inj h r v.
Proof. destruct r, v; simpl; tauto. Qed.

Lemma cloneProps_spec h r v :
  childAt CProps h r v ->
  exists r' h', cloneProps r h = Some (r', h')
                /\ preserves h h' /\ ownedChild CProps h h' r' v.
Proof.
  destruct r as [lp|], v as [m|]; simpl; try tauto; intros Hc.
  - exists (Some (fresh (dom h))), (<[fresh (dom h) := CProps m]> h).
    unfold hbind, readProps. rewrite Hc. split; [reflexivity|]. split.
    + apply preserves_insert; [apply is_fresh | apply preserves_refl].
    + simpl. split; [apply is_fresh | apply lookup_insert_eq].
  - exists None, h. split; [reflexivity|]. split; [apply preserves_refl | exact I].
Qed.

Lemma cloneRequired_spec h r v :
  childAt CRequired h r v ->
  exists r' h', cloneRequired r h = Some (r', h')
                /\ preserves h h' /\ ownedChild CRequired h h' r' v.
Proof.
  destruct r as [lr|], v as [q|]; simpl; try tauto; intros Hc.
  - exists (Some (fresh (dom h))), (<[fresh (dom h) := CRequired q]> h).
    unfold hbind, readRequired. rewrite Hc. split; [reflexivity|]. split.
    + apply preserves_insert; [apply is_fresh | apply preserves_refl].
    + simpl. split; [apply is_fresh | apply lookup_insert_eq].
  - exists None, h. split; [reflexivity|]. split; [apply preserves_refl | exact I].
Qed.

(** [structuredClone] copies: the clone has the value of the original, is
    made of new objects, and the heap it was taken from is as it was. *)
Lemma structuredClone_spec h l v :
  schemaAt h l v ->
  exists ls h' rp rr,
    structuredClone l h = Some (ls, h')
    /\ rewriting h h' ls rp rr (v_properties v) (v_required v)
         (v_additionalProperties v).
Proof.
  intros (s & Hs & Hps & Hrq & Hap).
  destruct (cloneProps_spec h _ _ Hps) as (rp & h1 & E1 & P1 & O1).
  destruct (cloneRequired_spec h1 (required s) (v_required v)) as (rr & h2 & E2 & P2 & O2);
    [eapply childAt_preserved; eassumption|].
  exists (fresh (dom h2)), (<[fresh (dom h2) := CSchema
             {| properties := rp; required := rr;
                additionalProperties := v_additionalProperties v |}]> h2), rp, rr.
  split.
  - unfold structuredClone.
    rewrite (hbind_Some _ _ h s h) by (unfold readSchema; now rewrite Hs).
    rewrite (hbind_Some _ _ _ _ _ E1), (hbind_Some _ _ _ _ _ E2), Hap. reflexivity.
  - assert (preserves h h2) as P by (eapply preserves_trans; eassumption).
    repeat split.
    + apply preserves_insert; [now apply preserves_fresh | exact P].
    + now apply preserves_fresh.
    + apply lookup_insert_eq.
    + apply ownedChild_insert_other; [intros a; now rewrite fresh_lookup|].
      apply (ownedChild_preserved _ _ h1); [exact P2 | exact O1].
    + apply ownedChild_insert_other; [intros a; now rewrite fresh_lookup|].
      apply (ownedChild_base _ _ h1); [exact P1 | exact O2].
Qed.

End HeapFacts.

Section RewriteFacts.
Implicit Types (h : heap) (l : loc).

Lemma ensureProperties_spec h0 h ls rp rr ps rq ap :
  rewriting h0 h ls rp rr ps rq ap ->
  exists lp h',
    ensureProperties ls h = Some (lp, h')
    /\ rewriting h0 h' ls (Some lp) rr (Some (default ∅ ps)) rq ap.
Proof.
  intros (Hp & Hls & Hs & Ops & Orq).
  unfold ensureProperties.
  rewrite (hbind_Some _ _ h _ h) by (unfold readSchema; now rewrite Hs).
  cbn [properties].
  destruct rp as [lp|], ps as [m|]; simpl in Ops; try tauto.
  - exists lp, h. split; [reflexivity|]. now repeat split.
  - pose proof (fresh_lookup h) as Hfresh.
    pose proof (preserves_fresh h0 h Hp) as Hnew.
    set (lp := fresh (dom h)) in *.
    exists lp, (<[ls := CSchema {| properties := Some lp; required := rr;
                                  additionalProperties := ap |}]>
                 (<[lp := CProps ∅]> h)).
    assert (lp <> ls) as Hne by congruence.
    split.
    + unfold hbind, alloc, write. fold lp.
      rewrite lookup_insert_ne, Hs by exact Hne. reflexivity.
    + repeat split.
      * apply preserves_insert; [exact Hls|].
        apply preserves_insert; [exact Hnew | exact Hp].
      * exact Hls.
      * apply lookup_insert_eq.
      * exact Hnew.
      * rewrite lookup_insert_ne by congruence. apply lookup_insert_eq.
      * apply ownedChild_insert_other.
        { intros a. rewrite lookup_insert_ne, Hs by exact Hne. discriminate. }
        apply ownedChild_insert_other; [intros a; now rewrite Hfresh|].
        exact Orq.
Qed.

Lemma ensureRequired_spec h0 h ls rp rr ps rq ap :
  rewriting h0 h ls rp rr ps rq ap ->
  exists lr h',
    ensureRequired ls h = Some (lr, h')
    /\ rewriting h0 h' ls rp (Some lr) ps (Some (default [] rq)) ap.
Proof.
  intros (Hp & Hls & Hs & Ops & Orq).
  unfold ensureRequired.
  rewrite (hbind_Some _ _ h _ h) by (unfold readSchema; now rewrite Hs).
  cbn [required].
  destruct rr as [lr|], rq as [q|]; simpl in Orq; try tauto.
  - exists lr, h. split; [reflexivity|]. now repeat split.
  - pose proof (fresh_lookup h) as Hfresh.
    pose proof (preserves_fresh h0 h Hp) as Hnew.
    set (lr := fresh (dom h)) in *.
    exists lr, (<[ls := CSchema {| properties := rp; required := Some lr;
                                  additionalProperties := ap |}]>
                 (<[lr := CRequired []]> h)).
    assert (lr <> ls) as Hne by congruence.
    split.
    + unfold hbind, alloc, write. fold lr.
      rewrite lookup_insert_ne, Hs by exact Hne. reflexivity.
    + repeat split.
      * apply preserves_insert; [exact Hls|].
        apply preserves_insert; [exact Hnew | exact Hp].
      * exact Hls.
      * apply lookup_insert_eq.
      * apply ownedChild_insert_other.
        { intros a. rewrite lookup_insert_ne, Hs by exact Hne. discriminate. }
        apply ownedChild_insert_other; [intros a; now rewrite Hfresh|].
        exact Ops.
      * exact Hnew.
      * rewrite lookup_insert_ne by congruence. apply lookup_insert_eq.
Qed.

Lemma writeProps_spec h0 h ls lp rr m m' rq ap :
  rewriting h0 h ls (Some lp) rr (Some m) rq ap ->
  readProps lp h = Some (m, h)
  /\ write lp (CProps m') h = Some (tt, <[lp := CProps m']> h)
  /\ rewriting h0 (<[lp := CProps m']> h) ls (Some lp) rr (Some m') rq ap.
Proof.
  intros (Hp & Hls & Hs & [Hlp Hm] & Orq).
  unfold readProps, write. rewrite Hm. repeat split.
  - now apply preserves_insert.
  - exact Hls.
  - rewrite lookup_insert_ne by congruence. exact Hs.
  - exact Hlp.
  - apply lookup_insert_eq.
  - apply ownedChild_insert_other; [|exact Orq].
    intros a. rewrite Hm. discriminate.
Qed.

Lemma writeRequired_spec h0 h ls rp lr ps q q' ap :
  rewriting h0 h ls rp (Some lr) ps (Some q) ap ->
  readRequired lr h = Some (q, h)
  /\ write lr (CRequired q') h = Some (tt, <[lr := CRequired q']> h)
  /\ rewriting h0 (<[lr := CRequired q']> h) ls rp (Some lr) ps (Some q') ap.
Proof.
  intros (Hp & Hls & Hs & Ops & [Hlr Hq]).
  unfold readRequired, write. rewrite Hq. repeat split.
  - now apply preserves_insert.
  - exact Hls.
  - rewrite lookup_insert_ne by congruence. exact Hs.
  - apply ownedChild_insert_other; [|exact Ops].
    intros a. rewrite Hq. discriminate.
  - exact Hlr.
  - apply lookup_insert_eq.
Qed.

(** A finished rewrite, read back as a value. *)
Lemma rewriting_schemaAt h0 h ls rp rr ps rq ap :
  rewriting h0 h ls rp rr ps rq ap ->
  schemaAt h ls {| v_properties := ps; v_required := rq;
                   v_additionalProperties := ap |}.
Proof.
  intros (_ & _ & Hs & Ops & Orq). eexists. split; [exact Hs|].
  repeat split; cbn; eauto using ownedChild_childAt.
Qed.

(** [_enhanceRoutableTool] on the heap does to the clone what
    [enhanceRoutableValue] does to the value, and to nothing else. *)
Lemma enhanceRoutable_refines (tool : ToolDefinition) (clusterUrls : list string)
    (h : heap) (v : SchemaValue) :
  schemaAt h (inputSchema tool) v ->
  exists t' h' lp lr,
    _enhanceRoutableTool tool clusterUrls h = Some (t', h')
    /\ name t' = name tool
    /\ description t'
       = Some (describe (description tool) " (Routed to the specified cluster)"
                 "Kusto tool routed to the specified cluster")
    /\ rewriting h h' (inputSchema t') (Some lp) (Some lr)
         (v_properties (enhanceRoutableValue clusterUrls v))
         (v_required (enhanceRoutableValue clusterUrls v))
         (v_additionalProperties v).
Proof.
  intros Hv.
  destruct (structuredClone_spec h _ v Hv) as (ls & h1 & rp & rr & E1 & R1).
  destruct (ensureProperties_spec _ _ _ _ _ _ _ _ R1) as (lp & h2 & E2 & R2).
  destruct (writeProps_spec _ _ _ _ _ _
              (<["cluster" := routableClusterProperty
                                (default ∅ (v_properties v) !! "cluster") clusterUrls]>
                 (default ∅ (v_properties v))) _ _ R2) as (E3 & E4 & R4).
  destruct (ensureRequired_spec _ _ _ _ _ _ _ _ R4) as (lr & h5 & E5 & R5).
  set (req := default [] (v_required v)) in *.
  destruct (writeRequired_spec _ _ _ _ _ _ _ (req ++ ["cluster"]) _ R5)
    as (E6 & E7 & R7).
  unfold _enhanceRoutableTool.
  rewrite (hbind_Some _ _ _ _ _ E1), (hbind_Some _ _ _ _ _ E2),
    (hbind_Some _ _ _ _ _ E3).
  unfold routableClusterProperty in E4.
  rewrite (hbind_Some _ _ _ _ _ E4), (hbind_Some _ _ _ _ _ E5),
    (hbind_Some _ _ _ _ _ E6).
  unfold enhanceRoutableValue. cbn [v_properties v_required]. fold req.
  destruct (bool_decide ("cluster" ∈ req)).
  - eexists _, h5, lp, lr. split; [reflexivity|]. repeat split; try apply R5.
  - rewrite (hbind_Some _ _ _ _ _ E7).
    eexists _, _, lp, lr. split; [reflexivity|]. repeat split; try apply R7.
Qed.

End RewriteFacts.

Section RefreshFacts.
Implicit Types (h : heap) (l : loc).

Lemma rewriting_madeAfter h0 h h' ls rp rr ps rq ap :
  preserves h0 h ->
  rewriting h h' ls rp rr ps rq ap ->
  madeAfter h0 h' ls.
Proof.
  intros Hp (_ & Hls & Hs & Ops & Orq).
  assert (forall l, l ∉ dom h -> l ∉ dom h0) as Hsub
    by (intros l Hl Hin; apply Hl; eapply preserves_dom; eassumption).
  split; [now apply Hsub|].
  intros s Hs'. rewrite Hs in Hs'. injection Hs' as <-. cbn. split.
  - intros lp ->. destruct ps; cbn in Ops; [apply Hsub, Ops | contradiction].
  - intros lr ->. destruct rq; cbn in Orq; [apply Hsub, Orq | contradiction].
Qed.

Lemma madeAfter_preserved h0 h1 h2 l :
  preserves h1 h2 -> l ∈ dom h1 -> madeAfter h0 h1 l -> madeAfter h0 h2 l.
Proof.
  intros Hp Hin [Hl Hs]. split; [exact Hl|].
  intros s Hs2. apply Hs. now rewrite <- (Hp l Hin).
Qed.

Lemma enhanceFanOut_refines (tool : ToolDefinition) (clusterUrls : list string)
    (h : heap) (v : SchemaValue) :
  schemaAt h (inputSchema tool) v ->
  exists t' h' lp rr,
    _enhanceFanOutTool tool clusterUrls h = Some (t', h')
    /\ name t' = name tool
    /\ description t'
       = Some (describe (description tool)
                 " (Queries all available clusters unless a specific cluster is specified)"
                 "Lists Kusto clusters across all available connections")
    /\ rewriting h h' (inputSchema t') (Some lp) rr
         (v_properties (enhanceFanOutValue clusterUrls v))
         (v_required v) (v_additionalProperties v).
Proof.
  intros Hv.
  destruct (structuredClone_spec h _ v Hv) as (ls & h1 & rp & rr & E1 & R1).
  destruct (ensureProperties_spec _ _ _ _ _ _ _ _ R1) as (lp & h2 & E2 & R2).
  destruct (writeProps_spec _ _ _ _ _ _
              (<["cluster" := fanOutClusterProperty clusterUrls]>
                 (default ∅ (v_properties v))) _ _ R2) as (E3 & E4 & R4).
  unfold _enhanceFanOutTool.
  rewrite (hbind_Some _ _ _ _ _ E1), (hbind_Some _ _ _ _ _ E2),
    (hbind_Some _ _ _ _ _ E3).
  unfold fanOutClusterProperty in E4. rewrite (hbind_Some _ _ _ _ _ E4).
  eexists _, _, lp, rr. split; [reflexivity|]. repeat split; try apply R4.
Qed.

(** One step of the map of [refreshTools], from a heap [h] that still holds
    the source schemas of [h0] as they were. *)
Lemma enhance_step (routable : gset string) (clusterUrls : list string)
    (tool : ToolDefinition) (h0 h : heap) (v : SchemaValue) :
  preserves h0 h ->
  schemaAt h0 (inputSchema tool) v ->
  exists t' h',
    enhance routable clusterUrls tool h = Some (t', h')
    /\ preserves h h'
    /\ (inputSchema t' ∈ dom h')
    /\ enhanced routable clusterUrls h0 h' tool t'.
Proof.
  intros Hp Hv0.
  assert (schemaAt h (inputSchema tool) v) as Hv
    by (eapply schemaAt_preserved; eassumption).
  unfold enhance, enhanced.
  destruct (bool_decide (name tool ∈ routable)).
  - destruct (enhanceRoutable_refines tool clusterUrls h v Hv)
      as (t' & h' & lp & lr & E & Hn & Hd & R).
    exists t', h'. split; [exact E|]. split; [apply R|].
    split; [eapply lookup_dom; apply R|].
    split; [exact Hn|]. split.
    + eapply rewriting_madeAfter; eassumption.
    + exists v. split; [exact Hv0|]. split; [|exact Hd].
      apply (rewriting_schemaAt _ _ _ _ _ _ _ _ R).
  - destruct (enhanceFanOut_refines tool clusterUrls h v Hv)
      as (t' & h' & lp & rr & E & Hn & Hd & R).
    exists t', h'. split; [exact E|]. split; [apply R|].
    split; [eapply lookup_dom; apply R|].
    split; [exact Hn|]. split.
    + eapply rewriting_madeAfter; eassumption.
    + exists v. split; [exact Hv0|]. split; [|exact Hd].
      apply (rewriting_schemaAt _ _ _ _ _ _ _ _ R).
Qed.

Lemma schemaAt_dom h l v : schemaAt h l v -> l ∈ dom h.
Proof. intros (s & Hs & _). eapply lookup_dom, Hs. Qed.

Lemma schemaAt_functional h l v v' : schemaAt h l v -> schemaAt h l v' -> v = v'.
Proof.
  intros (s & Hs & Hp & Hr & Ha) (s' & Hs' & Hp' & Hr' & Ha').
  assert (s' = s) as -> by congruence.
  destruct v as [ps rq ap], v' as [ps' rq' ap']. cbn in *.
  f_equal; [| |congruence].
  - destruct (properties s), ps, ps'; cbn in *; try tauto; congruence.
  - destruct (required s), rq, rq'; cbn in *; try tauto; congruence.
Qed.

Lemma enhanced_preserved routable clusterUrls h0 h1 h2 tool t' :
  preserves h1 h2 -> inputSchema t' ∈ dom h1 ->
  enhanced routable clusterUrls h0 h1 tool t' ->
  enhanced routable clusterUrls h0 h2 tool t'.
Proof.
  intros Hp Hin (Hn & Hnew & v & Hv & H). split; [exact Hn|].
  split; [eapply madeAfter_preserved; eassumption|].
  exists v. split; [exact Hv|].
  destruct (bool_decide (name tool ∈ routable)); destruct H as [Hs Hd];
    (split; [eapply schemaAt_preserved; eassumption | exact Hd]).
Qed.

Lemma mapM_enhance (routable : gset string) (clusterUrls : list string)
    (ts : list ToolDefinition) (h0 : heap) :
  toolsIn h0 ts ->
  forall h, preserves h0 h ->
  exists ts' h',
    mapM (enhance routable clusterUrls) ts h = Some (ts', h')
    /\ preserves h h'
    /\ Forall2 (enhanced routable clusterUrls h0 h') ts ts'.
Proof.
  induction 1 as [|tool ts [v Hv] _ IH]; intros h Hp.
  - exists [], h. split; [reflexivity|]. split; [apply preserves_refl | constructor].
  - destruct (enhance_step routable clusterUrls tool h0 h v Hp Hv)
      as (t' & h1 & E1 & P1 & Hin & He).
    destruct (IH h1) as (ts' & h2 & E2 & P2 & Hall);
      [eapply preserves_trans; eassumption|].
    exists (t' :: ts'), h2. split; [|split].
    + cbn [mapM]. rewrite (hbind_Some _ _ _ _ _ E1), (hbind_Some _ _ _ _ _ E2).
      reflexivity.
    + eapply preserves_trans; eassumption.
    + constructor; [|exact Hall].
      eapply enhanced_preserved; eassumption.
Qed.

End RefreshFacts.

Section ClassifyFacts.
Implicit Types (h : heap) (tool : ToolDefinition).

Lemma declaresCluster_iff h tool v :
  schemaAt h (inputSchema tool) v ->
  declaresCluster h tool <-> is_Some (default ∅ (v_properties v) !! "cluster").
Proof.
  intros Hv. split.
  - intros (v' & props & Hv' & Hps & Hc).
    rewrite (schemaAt_functional _ _ _ _ Hv Hv'), Hps. exact Hc.
  - intros Hc. destruct (v_properties v) as [props|] eqn:Hps.
    + exists v, props. now repeat split.
    + cbn in Hc. rewrite lookup_empty in Hc. now destruct Hc.
Qed.

Lemma hasClusterProperty_spec h tool v :
  schemaAt h (inputSchema tool) v ->
  hasClusterProperty tool h
  = Some (bool_decide (is_Some (default ∅ (v_properties v) !! "cluster")), h).
Proof.
  intros (s & Hs & Hps & _). unfold hasClusterProperty.
  rewrite (hbind_Some _ _ h s h) by (unfold readSchema; now rewrite Hs).
  destruct (properties s) as [lp|], (v_properties v) as [props|]; cbn in Hps;
    [|contradiction|contradiction|].
  - rewrite (hbind_Some _ _ h props h) by (unfold readProps; now rewrite Hps).
    reflexivity.
  - reflexivity.
Qed.

(** The classification loop puts every source name into the set that its
    own schema selects, and reads the heap without changing it. *)
Lemma classify_spec (ts : list ToolDefinition) h :
  toolsIn h ts ->
  forall ro fo,
  exists ro' fo',
    classify ts ro fo h = Some ((ro', fo'), h)
    /\ (forall n, n ∈ ro' <->
          n ∈ ro \/ exists tool, tool ∈ ts /\ name tool = n /\ declaresCluster h tool)
    /\ (forall n, n ∈ fo' <->
          n ∈ fo \/ exists tool, tool ∈ ts /\ name tool = n /\ ~ declaresCluster h tool).
Proof.
  induction 1 as [|tool ts [v Hv] _ IH]; intros ro fo.
  - exists ro, fo. split; [reflexivity|].
    split; intros n; (split; [tauto | intros [H | (tool & Hin & _)]; [exact H|]]);
      now apply elem_of_nil in Hin.
  - pose proof (declaresCluster_iff h tool v Hv) as Hd.
    cbn [classify]. rewrite (hbind_Some _ _ _ _ _ (hasClusterProperty_spec h tool v Hv)).
    destruct (bool_decide _) eqn:E.
    + apply bool_decide_eq_true in E. apply Hd in E.
      destruct (IH ({[name tool]} ∪ ro) fo) as (ro' & fo' & Ec & Hro & Hfo).
      exists ro', fo'. split; [exact Ec|]. split; intros n.
      * rewrite Hro, elem_of_union, elem_of_singleton. split.
        -- intros [[-> | H] | (t & Hin & Hn & Ht)];
             [right; exists tool; split; [left | now split]
             | now left
             | right; exists t; split; [now right | now split]].
        -- intros [H | (t & Hin & Hn & Ht)]; [now left; right|].
           apply elem_of_cons in Hin as [-> | Hin];
             [left; left; now symmetry | right; exists t; now repeat split].
      * rewrite Hfo. split.
        -- intros [H | (t & Hin & Hn & Ht)];
             [now left | right; exists t; split; [now right | now split]].
        -- intros [H | (t & Hin & Hn & Ht)]; [now left|].
           apply elem_of_cons in Hin as [-> | Hin];
             [contradiction | right; exists t; now repeat split].
    + apply bool_decide_eq_false in E. rewrite <- Hd in E.
      destruct (IH ro ({[name tool]} ∪ fo)) as (ro' & fo' & Ec & Hro & Hfo).
      exists ro', fo'. split; [exact Ec|]. split; intros n.
      * rewrite Hro. split.
        -- intros [H | (t & Hin & Hn & Ht)];
             [now left | right; exists t; split; [now right | now split]].
        -- intros [H | (t & Hin & Hn & Ht)]; [now left|].
           apply elem_of_cons in Hin as [-> | Hin];
             [contradiction | right; exists t; now repeat split].
      * rewrite Hfo, elem_of_union, elem_of_singleton. split.
        -- intros [[-> | H] | (t & Hin & Hn & Ht)];
             [right; exists tool; split; [left | now split]
             | now left
             | right; exists t; split; [now right | now split]].
        -- intros [H | (t & Hin & Hn & Ht)]; [now left; right|].
           apply elem_of_cons in Hin as [-> | Hin];
             [left; left; now symmetry | right; exists t; now repeat split].
Qed.

(** A refresh over an empty source list empties the merged list and leaves
    both sets as they were. *)
Lemma refreshTools_empty (m : DownstreamManager) (r : ToolRouter) h :
  getToolDefinitions m = [] ->
  refreshTools m r h
  = Some ({| _mergedTools := []; _routableTools := _routableTools r;
             _fanOutTools := _fanOutTools r |}, h).
Proof. intros E. unfold refreshTools. now rewrite E. Qed.

(** A refresh over a non-empty source list succeeds, replaces both sets by
    the classification of the source list, and builds the merged list tool
    by tool; no object that existed before is assigned to. *)
Lemma refreshTools_nonempty (m : DownstreamManager) (r : ToolRouter) h :
  getToolDefinitions m <> [] ->
  toolsIn h (getToolDefinitions m) ->
  exists r' h',
    refreshTools m r h = Some (r', h')
    /\ preserves h h'
    /\ (forall n, n ∈ _routableTools r' <->
          exists tool, tool ∈ getToolDefinitions m /\ name tool = n
                       /\ declaresCluster h tool)
    /\ (forall n, n ∈ _fanOutTools r' <->
          exists tool, tool ∈ getToolDefinitions m /\ name tool = n
                       /\ ~ declaresCluster h tool)
    /\ Forall2 (enhanced (_routableTools r') (getClusterUrls m) h h')
         (getToolDefinitions m) (_mergedTools r').
Proof.
  intros Hne Hin. unfold refreshTools.
  destruct (getToolDefinitions m) as [|t0 ts] eqn:Ets; [contradiction|].
  destruct (classify_spec _ h Hin ∅ ∅) as (ro & fo & Ec & Hro & Hfo).
  destruct (mapM_enhance ro (getClusterUrls m) _ h Hin h (preserves_refl h))
    as (ts' & h' & Em & Hp & Hall).
  rewrite (hbind_Some _ _ _ _ _ Ec). cbn [fst snd].
  rewrite (hbind_Some _ _ _ _ _ Em).
  eexists _, h'. split; [reflexivity|]. cbn [_routableTools _fanOutTools _mergedTools].
  split; [exact Hp|]. split; [|split; [|exact Hall]].
  - intros n. rewrite Hro. split; [intros [H | H]; [now apply elem_of_empty in H | exact H]
                                  | now right].
  - intros n. rewrite Hfo. split; [intros [H | H]; [now apply elem_of_empty in H | exact H]
                                  | now right].
Qed.

End ClassifyFacts.

(** ** Refresh *)

Lemma enhanceRoutableValue_cluster (clusterUrls : list string) (v : SchemaValue) :
  exists props p d req,
    v_properties (enhanceRoutableValue clusterUrls v) = Some props
    /\ props !! "cluster" = Some p
    /\ p_type p = Some "string"
    /\ p_enum p = Some clusterUrls
    /\ p_description p = Some d
    /\ mentionsAll d clusterUrls
    /\ (forall k : string, k <> "cluster" ->
          props !! k = default ∅ (v_properties v) !! k)
    /\ v_required (enhanceRoutableValue clusterUrls v) = Some req
    /\ "cluster" ∈ req
    /\ (forall x, x ∈ default [] (v_required v) -> x ∈ req).
Proof.
  unfold enhanceRoutableValue. cbn [v_properties v_required].
  eexists _, _, _, _. split; [reflexivity|].
  split; [apply lookup_insert_eq|].
  split; [reflexivity|]. split; [reflexivity|]. split; [reflexivity|].
  split; [apply mentionsAll_join|].
  split; [intros k Hk; apply lookup_insert_ne; congruence|].
  split; [reflexivity|].
  destruct (bool_decide ("cluster" ∈ default [] (v_required v))) eqn:E.
  - apply bool_decide_eq_true in E. now split.
  - split; [apply elem_of_app; right; apply list_elem_of_singleton; reflexivity|].
    intros x Hx. apply elem_of_app. now left.
Qed.

Lemma describe_cases (d : option string) (suffix fallback : string) :
  (forall t, d = Some t -> t <> EmptyString -> describe d suffix fallback = t +:+ suffix)
  /\ (d = None \/ d = Some EmptyString -> describe d suffix fallback = fallback).
Proof.
  split.
  - intros t -> Ht. unfold describe. destruct t; [contradiction | reflexivity].
  - intros [-> | ->]; reflexivity.
Qed.

(** C3, as the code has it. A refresh over source tools whose schemas are on
    the heap succeeds, and for every source tool that it
    classifies as routable the merged tool at the same position has: a schema
    made of new objects, in which [cluster] has type ["string"], the list of
    configured endpoint URLs as its [enum] and a description that mentions
    each of them, every other property is as in the source, and [required]
    holds [cluster] after the source's entries; the source schema is on the
    new heap with the value it had, and no object of the old heap has
    changed. The description is the source description followed by
    " (Routed to the specified cluster)" when the source has a non-empty
    description, and the fixed text "Kusto tool routed to the specified
    cluster" when it has none. *)
Theorem refreshTools_routable_rewrite (m : DownstreamManager) (r : ToolRouter)
    (h : heap) :
  toolsIn h (getToolDefinitions m) ->
  exists r' h',
    refreshTools m r h = Some (r', h')
    /\ preserves h h'
    /\ (forall tool, tool ∈ getToolDefinitions m -> declaresCluster h tool ->
          name tool ∈ _routableTools r')
    /\ forall i tool,
         getToolDefinitions m !! i = Some tool ->
         name tool ∈ _routableTools r' ->
         exists t' v v' props p d req,
           _mergedTools r' !! i = Some t'
           /\ name t' = name tool
           /\ schemaAt h (inputSchema tool) v
           /\ schemaAt h' (inputSchema tool) v
           /\ madeAfter h h' (inputSchema t')
           /\ schemaAt h' (inputSchema t') v'
           /\ v_properties v' = Some props
           /\ props !! "cluster" = Some p
           /\ p_type p = Some "string"
           /\ p_enum p = Some (getClusterUrls m)
           /\ p_description p = Some d
           /\ mentionsAll d (getClusterUrls m)
           /\ (forall k : string, k <> "cluster" ->
                 props !! k = default ∅ (v_properties v) !! k)
           /\ v_required v' = Some req
           /\ "cluster" ∈ req
           /\ (forall x, x ∈ default [] (v_required v) -> x ∈ req)
           /\ v_additionalProperties v' = v_additionalProperties v
           /\ (forall t, description tool = Some t -> t <> EmptyString ->
                 description t' = Some (t +:+ " (Routed to the specified cluster)"))
           /\ (description tool = None \/ description tool = Some EmptyString ->
                 description t' = Some "Kusto tool routed to the specified cluster").
Proof.
  intros Hin.
  destruct (getToolDefinitions m) as [|t0 ts] eqn:Ets.
  { eexists _, h. split; [apply refreshTools_empty, Ets|].
    split; [apply preserves_refl|]. split.
    - intros tool Ht. now apply elem_of_nil in Ht.
    - intros i tool Hi. now destruct i. }
  rewrite <- Ets in *.
  assert (getToolDefinitions m <> []) as Hne by (rewrite Ets; discriminate).
  destruct (refreshTools_nonempty m r h Hne Hin) as (r' & h' & E & Hp & Hcl & _ & Hall).
  exists r', h'. split; [exact E|]. split; [exact Hp|]. split.
  { intros tool Ht Hd. apply Hcl. exists tool. now repeat split. }
  intros i tool Hi Hro.
  destruct (Forall2_lookup_l _ _ _ _ _ Hall Hi) as (t' & Hi' & Hn & Hnew & v & Hv & He).
  rewrite bool_decide_eq_true_2 in He by exact Hro. destruct He as [Hs' Hd].
  destruct (enhanceRoutableValue_cluster (getClusterUrls m) v)
    as (props & p & d & req & Hps & Hc & Hty & Hen & Hde & Hm & Hk & Hrq & Hcr & Hold).
  destruct (describe_cases (description tool) " (Routed to the specified cluster)"
              "Kusto tool routed to the specified cluster") as [Hd1 Hd2].
  exists t', v, (enhanceRoutableValue (getClusterUrls m) v), props, p, d, req.
  split; [exact Hi'|]. split; [exact Hn|]. split; [exact Hv|].
  split; [eapply schemaAt_preserved; eassumption|].
  split; [exact Hnew|]. split; [exact Hs'|].
  repeat split; try assumption.
  - intros t Ht Hnon. rewrite Hd. f_equal. now apply Hd1.
  - intros Hnone. rewrite Hd. f_equal. now apply Hd2.
Qed.


Lemma sample_tools_in : toolsIn Sample.heap0 Sample.tools.
Proof.
  repeat constructor.
  - exists Sample.queryValue. eexists. split; [reflexivity|]. now repeat split.
  - exists Sample.listValue. eexists. split; [reflexivity|]. now repeat split.
Qed.

Lemma sample_query_declares (t : ToolDefinition) :
  inputSchema t = 1%positive -> declaresCluster Sample.heap0 t.
Proof.
  intros Hl. exists Sample.queryValue, Sample.queryProps. rewrite Hl.
  split; [|split; [reflexivity | eexists; reflexivity]].
  eexists. split; [reflexivity|]. now repeat split.
Qed.

Lemma sample_list_declares_not : ~ declaresCluster Sample.heap0 Sample.kusto_cluster_list.
Proof.
  assert (schemaAt Sample.heap0 (inputSchema Sample.kusto_cluster_list) Sample.listValue)
    as Hv by (eexists; split; [reflexivity|]; now repeat split).
  intros Hd. apply (declaresCluster_iff _ _ _ Hv) in Hd.
  destruct Hd as [p Hp]. vm_compute in Hp. discriminate Hp.
Qed.

Lemma refreshTools_routable_rewrite_witness :
  exists r' h' t',
    refreshTools (Sample.bothUp Sample.tools) newToolRouter Sample.heap0 = Some (r', h')
    /\ _mergedTools r' !! 0 = Some t'
    /\ name t' = "kusto_query"
    /\ description t'
       = Some "Execute a KQL query against an Azure Data Explorer cluster (Routed to the specified cluster)".
Proof.
  destruct (refreshTools_routable_rewrite (Sample.bothUp Sample.tools) newToolRouter
              Sample.heap0 sample_tools_in) as (r' & h' & E & _ & Hcl & H).
  destruct (H 0 Sample.kusto_query eq_refl) as (t' & v & v' & props & p & d & req & Hi & Hn & Hrest).
  - apply Hcl; [left | now apply sample_query_declares].
  - exists r', h', t'. split; [exact E|]. split; [exact Hi|]. split; [exact Hn|].
    decompose [and] Hrest.
    match goal with
    | Hd : forall t, description Sample.kusto_query = Some t -> _ |- _ =>
        apply (Hd _ eq_refl); discriminate
    end.
Defined.

(** C3, as stated, fails for a routable tool that comes without a
    description: its merged description is the fixed text, in which the
    routed phrase does not occur. *)
Lemma refreshTools_undescribed_tool :
  ~ refreshAppendsRoutedPhrase (Sample.bothUp [Sample.kusto_sample]) newToolRouter
      Sample.heap0.
Proof.
  intros H.
  assert (toolsIn Sample.heap0 [Sample.kusto_sample]) as Hin.
  { repeat constructor. exists Sample.queryValue.
    eexists. split; [reflexivity|]. now repeat split. }
  destruct (refreshTools_nonempty (Sample.bothUp [Sample.kusto_sample]) newToolRouter
              Sample.heap0) as (r' & h' & E & _ & Hro & _ & Hall);
    [discriminate | exact Hin |].
  specialize (H r' h' E).
  change (getToolDefinitions (Sample.bothUp [Sample.kusto_sample]))
    with [Sample.kusto_sample] in *.
  assert (name Sample.kusto_sample ∈ _routableTools r') as Hr.
  { apply Hro. exists Sample.kusto_sample. split; [left|].
    split; [reflexivity | now apply sample_query_declares]. }
  destruct (_mergedTools r') as [|t' ts']; [inversion Hall|].
  apply Forall2_cons in Hall as [(_ & _ & v & _ & He) _].
  apply Forall2_cons in H as [H _].
  rewrite bool_decide_eq_true_2 in He by exact Hr. destruct He as [_ Hd].
  destruct (H Hr) as (d & Hd' & Hinc).
  rewrite Hd in Hd'. injection Hd' as <-.
  vm_compute in Hinc. discriminate Hinc.
Qed.

(** X24. The classification after a refresh over source tools with distinct
    names: a name is routable iff its tool declares [cluster] and fan-out
    iff it does not, every source name is in exactly one set, and the sets
    hold nothing else. *)
Lemma refreshTools_classification (m : DownstreamManager) (r : ToolRouter) (h : heap) :
  getToolDefinitions m <> [] ->
  toolsIn h (getToolDefinitions m) ->
  NoDup (map name (getToolDefinitions m)) ->
  exists r' h',
    refreshTools m r h = Some (r', h')
    /\ (forall tool, tool ∈ getToolDefinitions m ->
          (name tool ∈ _routableTools r' <-> declaresCluster h tool)
          /\ (name tool ∈ _fanOutTools r' <-> ~ declaresCluster h tool))
    /\ _routableTools r' ## _fanOutTools r'
    /\ (forall n, n ∈ _routableTools r' ∪ _fanOutTools r'
                  <-> n ∈ map name (getToolDefinitions m))
    /\ map name (_mergedTools r') = map name (getToolDefinitions m).
Proof.
  intros Hne Hin Hnd.
  destruct (refreshTools_nonempty m r h Hne Hin) as (r' & h' & E & _ & Hro & Hfo & Hall).
  exists r', h'. split; [exact E|].
  assert (forall t1 t2, t1 ∈ getToolDefinitions m -> t2 ∈ getToolDefinitions m ->
            name t1 = name t2 -> t1 = t2) as Hinj.
  { intros t1 t2 H1 H2 Hn.
    apply list_elem_of_lookup in H1 as [i Hi], H2 as [j Hj].
    assert (i = j) as ->.
    { apply (NoDup_lookup _ i j (name t1) Hnd).
      - now rewrite list_lookup_fmap, Hi.
      - now rewrite list_lookup_fmap, Hj, Hn. }
    congruence. }
  assert (forall tool, tool ∈ getToolDefinitions m ->
            (name tool ∈ _routableTools r' <-> declaresCluster h tool)
            /\ (name tool ∈ _fanOutTools r' <-> ~ declaresCluster h tool)) as Hcl.
  { intros tool Ht. split.
    - rewrite Hro. split.
      + intros (t & Hin' & Hn & Hd). now rewrite <- (Hinj t tool Hin' Ht Hn).
      + intros Hd. exists tool. now repeat split.
    - rewrite Hfo. split.
      + intros (t & Hin' & Hn & Hd). now rewrite <- (Hinj t tool Hin' Ht Hn).
      + intros Hd. exists tool. now repeat split. }
  split; [exact Hcl|]. split; [|split].
  - intros n Hr Hf. apply Hro in Hr as (t & Ht & <- & Hd).
    apply (Hcl t Ht) in Hf. contradiction.
  - intros n. rewrite elem_of_union, Hro, Hfo, list_elem_of_fmap. split.
    + intros [(t & Ht & Hn & _) | (t & Ht & Hn & _)]; exists t; now split.
    + intros (t & -> & Ht).
      destruct (Forall_forall (fun tool => exists v, schemaAt h (inputSchema tool) v)
                  (getToolDefinitions m)) as [Hf _].
      destruct (Hf Hin t Ht) as [v Hv].
      destruct (decide (is_Some (default ∅ (v_properties v) !! "cluster"))) as [Hd | Hd];
        rewrite <- (declaresCluster_iff h t v Hv) in Hd;
        [left | right]; exists t; now repeat split.
  - clear -Hall. induction Hall as [|tool t' ts ts' (Hn & _) _ IH]; [reflexivity|].
    cbn. now rewrite Hn, IH.
Qed.

(** C1. A refresh over an empty source list is claimed to leave both sets
    empty. [refreshTools] returns before it clears them: after a refresh that
    classified two tools, a refresh at a moment when no endpoint is connected
    (the source list is empty) empties the merged list and still has
    [kusto_query] routable and [kusto_cluster_list] fan-out. *)
Theorem refreshTools_empty_source_keeps_sets :
  let up := Sample.bothUp Sample.tools in
  let down := onProcessExit Sample.c1 (onProcessExit Sample.c2 up) in
  exists r1 h1 r2,
    refreshTools up newToolRouter Sample.heap0 = Some (r1, h1)
    /\ getToolDefinitions down = []
    /\ refreshTools down r1 h1 = Some (r2, h1)
    /\ _mergedTools r2 = []
    /\ "kusto_query" ∈ _routableTools r2
    /\ "kusto_cluster_list" ∈ _fanOutTools r2.
Proof.
  intros up down.
  destruct (refreshTools_nonempty up newToolRouter Sample.heap0)
    as (r1 & h1 & E & _ & Hro & Hfo & _);
    [discriminate | exact sample_tools_in |].
  exists r1, h1. eexists. split; [exact E|]. split; [reflexivity|].
  split; [apply refreshTools_empty; reflexivity|].
  cbn [_mergedTools _routableTools _fanOutTools]. split; [reflexivity|]. split.
  - apply Hro. exists Sample.kusto_query. split; [left|].
    split; [reflexivity | now apply sample_query_declares].
  - apply Hfo. exists Sample.kusto_cluster_list. split; [right; left|].
    split; [reflexivity | apply sample_list_declares_not].
Qed.

(* ================================================================= *)
(** * Further properties of the code *)

(** ** The shape of a normalized URL *)

Section NormalizeShape.
Import JsString.

Lemma prefix_true_app (p s : string) :
  String.prefix p s = true -> exists w, s = p +:+ w.
Proof.
  revert s. induction p as [|c p IH]; intros s H.
  - exists s. reflexivity.
  - destruct s as [|d s]; [discriminate H|]. simpl in H.
    destruct (ascii_dec c d) as [->|]; [|discriminate H].
    destruct (IH s H) as [w ->]. exists w. reflexivity.
Qed.

Lemma dropEnd_nonempty (f : ascii -> bool) (c : ascii) (s : string) :
  dropEnd f (String c s) = String c s -> s <> EmptyString -> dropEnd f s = s.
Proof.
  cbn [dropEnd]. intros H Hs.
  destruct (dropEnd f s) as [|d r] eqn:E.
  - destruct (f c); [discriminate H | injection H as <-; contradiction].
  - now injection H.
Qed.

Lemma dropEnd_keeps_clean_prefix (f : ascii -> bool) (p w : string) :
  p <> EmptyString -> dropEnd f p = p ->
  exists w', dropEnd f (p +:+ w) = p +:+ w'.
Proof.
  induction p as [|c p IH]; intros Hne Hclean; [contradiction|].
  change (String c p +:+ w) with (String c (p +:+ w)). cbn [dropEnd].
  destruct p as [|d p].
  - change (EmptyString +:+ w) with w.
    cbn [dropEnd] in Hclean.
    destruct (f c) eqn:Hc; [discriminate Hclean|].
    destruct (dropEnd f w) as [|e r]; [exists EmptyString | exists (String e r)];
      reflexivity.
  - destruct (IH ltac:(discriminate)) as [w' Hw'].
    { eapply dropEnd_nonempty; [exact Hclean | discriminate]. }
    rewrite Hw'. exists w'. reflexivity.
Qed.

End NormalizeShape.

Lemma normalize_starts_http (x : string) :
  JsString.startsWith (normalizeClusterUrl x) "https:"
  || JsString.startsWith (normalizeClusterUrl x) "http:" = true.
Proof.
  unfold normalizeClusterUrl, JsString.stripTrailingSlashes, JsString.startsWith.
  set (t := JsString.toLowerCase (JsString.trim x)).
  apply orb_true_iff.
  destruct (String.prefix "https://" t) eqn:E1; cbn [negb andb].
  - apply prefix_true_app in E1 as [w ->]. left.
    destruct (dropEnd_keeps_clean_prefix JsString.is_slash "https:" ("//" +:+ w))
      as [w' Hw']; [discriminate | reflexivity |].
    change ("https://" +:+ w) with ("https:" +:+ ("//" +:+ w)).
    rewrite Hw'. apply prefix_app.
  - destruct (String.prefix "http://" t) eqn:E2; cbn [negb].
    + apply prefix_true_app in E2 as [w ->]. right.
      destruct (dropEnd_keeps_clean_prefix JsString.is_slash "http:" ("//" +:+ w))
        as [w' Hw']; [discriminate | reflexivity |].
      change ("http://" +:+ w) with ("http:" +:+ ("//" +:+ w)).
      rewrite Hw'. apply prefix_app.
    + left.
      destruct (dropEnd_keeps_clean_prefix JsString.is_slash "https:" ("//" +:+ t))
        as [w' Hw']; [discriminate | reflexivity |].
      change ("https://" +:+ t) with ("https:" +:+ ("//" +:+ t)).
      rewrite Hw'. apply prefix_app.
Qed.

Lemma normalize_truthy (x : string) : JsString.truthy (normalizeClusterUrl x) = true.
Proof.
  pose proof (normalize_starts_http x) as H.
  destruct (normalizeClusterUrl x); [discriminate H | reflexivity].
Qed.

Lemma isAscii_cons (c : ascii) (s : string) :
  JsString.isAscii (String c s)
  = ((nat_of_ascii c <? 128)%nat && JsString.isAscii s).
Proof. reflexivity. Qed.

Lemma isAscii_app (u v : string) :
  JsString.isAscii (u +:+ v) = JsString.isAscii u && JsString.isAscii v.
Proof.
  induction u as [|c u IH]; [reflexivity|].
  change (String c u +:+ v) with (String c (u +:+ v)).
  now rewrite !isAscii_cons, IH, andb_assoc.
Qed.

Lemma isAscii_dropStart (p : ascii -> bool) (s : string) :
  JsString.isAscii s = true -> JsString.isAscii (JsString.dropStart p s) = true.
Proof.
  induction s as [|c s IH]; [reflexivity|]. intros H. cbn [JsString.dropStart].
  destruct (p c); [|exact H].
  rewrite isAscii_cons in H. apply andb_true_iff in H as [_ H]. now apply IH.
Qed.

Lemma isAscii_dropEnd (p : ascii -> bool) (s : string) :
  JsString.isAscii s = true -> JsString.isAscii (JsString.dropEnd p s) = true.
Proof.
  induction s as [|c s IH]; [reflexivity|]. intros H.
  rewrite isAscii_cons in H. apply andb_true_iff in H as [Hc H].
  specialize (IH H). cbn [JsString.dropEnd].
  destruct (JsString.dropEnd p s) as [|c' r].
  - destruct (p c); [reflexivity|]. rewrite isAscii_cons, Hc. reflexivity.
  - rewrite isAscii_cons, Hc. exact IH.
Qed.

Lemma lower_char_ascii (c : ascii) :
  (nat_of_ascii c <? 128)%nat = true ->
  (nat_of_ascii (JsString.lower_char c) <? 128)%nat = true.
Proof.
  intros H. unfold JsString.lower_char.
  destruct ((65 <=? nat_of_ascii c)%nat && (nat_of_ascii c <=? 90)%nat) eqn:E;
    [|exact H].
  apply andb_true_iff in E as [_ E]. apply Nat.leb_le in E.
  rewrite nat_ascii_embedding by lia. apply Nat.ltb_lt. lia.
Qed.

Lemma isAscii_toLowerCase (s : string) :
  JsString.isAscii s = true -> JsString.isAscii (JsString.toLowerCase s) = true.
Proof.
  induction s as [|c s IH]; [reflexivity|]. intros H.
  rewrite isAscii_cons in H. apply andb_true_iff in H as [Hc H].
  cbn [JsString.toLowerCase]. rewrite isAscii_cons, (lower_char_ascii c Hc).
  now apply IH.
Qed.

(** X1. For every ASCII input, the normalized URL is an ASCII string again,
    is in lower case, does not end in a slash (stripping again changes
    nothing), starts with ["https:"] or ["http:"], and so is never empty. *)
Theorem normalizeClusterUrl_shape (x : string) :
  JsString.isAscii x = true ->
  JsString.isAscii (normalizeClusterUrl x) = true
  /\ JsString.toLowerCase (normalizeClusterUrl x) = normalizeClusterUrl x
  /\ JsString.stripTrailingSlashes (normalizeClusterUrl x) = normalizeClusterUrl x
  /\ (JsString.startsWith (normalizeClusterUrl x) "https:"
      || JsString.startsWith (normalizeClusterUrl x) "http:" = true)
  /\ normalizeClusterUrl x <> EmptyString.
Proof.
  intros Hx. split.
  { unfold normalizeClusterUrl, JsString.stripTrailingSlashes.
    apply isAscii_dropEnd.
    assert (JsString.isAscii (JsString.toLowerCase (JsString.trim x)) = true) as Hl.
    { apply isAscii_toLowerCase. unfold JsString.trim.
      now apply isAscii_dropEnd, isAscii_dropStart. }
    destruct (negb _ && negb _); [|exact Hl].
    rewrite isAscii_app, Hl. reflexivity. }
  split; [apply normalize_lower|]. split; [apply dropEnd_idem|].
  split; [apply normalize_starts_http|].
  intros E. pose proof (normalize_truthy x) as H. rewrite E in H. discriminate H.
Qed.

Lemma normalizeClusterUrl_shape_witness :
  JsString.isAscii (normalizeClusterUrl "  HTTPS://MyCluster.Kusto.Windows.Net//  ") = true
  /\ normalizeClusterUrl "  HTTPS://MyCluster.Kusto.Windows.Net//  "
     = "https://mycluster.kusto.windows.net".
Proof.
  destruct (normalizeClusterUrl_shape "  HTTPS://MyCluster.Kusto.Windows.Net//  " eq_refl)
    as (Ha & _).
  split; [exact Ha | reflexivity].
Defined.

(** ** Mapping arguments *)

Section ParseMappingFacts.

Lemma substring_whole (w : string) : String.substring 0 (String.length w) w = w.
Proof. induction w as [|c w IH]; cbn; [reflexivity | now rewrite IH]. Qed.

Lemma substring_app_l (u v : string) :
  String.substring 0 (String.length u) (u +:+ v) = u.
Proof.
  induction u as [|c u IH]; [now destruct v|].
  change (String c u +:+ v) with (String c (u +:+ v)). cbn. now rewrite IH.
Qed.

Lemma length_app (u v : string) :
  String.length (u +:+ v) = String.length u + String.length v.
Proof.
  induction u as [|c u IH]; [reflexivity|].
  change (String c u +:+ v) with (String c (u +:+ v)). cbn. now rewrite IH.
Qed.

Lemma substring_app_r (u w : string) (c : ascii) :
  String.substring (String.length u + 1)
    (String.length (u +:+ String c w) - (String.length u + 1)) (u +:+ String c w)
  = w.
Proof.
  rewrite length_app. cbn [String.length].
  replace (String.length u + S (String.length w) - (String.length u + 1))
    with (String.length w) by lia.
  induction u as [|d u IH].
  - change (EmptyString +:+ String c w) with (String c w). cbn. apply substring_whole.
  - change (String d u +:+ String c w) with (String d (u +:+ String c w)).
    cbn. exact IH.
Qed.

Lemma indexOfChar_app (c : ascii) (u w : string) :
  indexOfChar c u = None ->
  indexOfChar c (u +:+ String c w) = Some (String.length u).
Proof.
  induction u as [|d u IH]; intros Hnone.
  - change (EmptyString +:+ String c w) with (String c w). cbn.
    now rewrite Ascii.eqb_refl.
  - change (String d u +:+ String c w) with (String d (u +:+ String c w)).
    cbn in *. destruct (Ascii.eqb d c); [discriminate Hnone|].
    destruct (indexOfChar c u); [discriminate Hnone|].
    now rewrite IH.
Qed.

Lemma indexOfChar_none_app (c : ascii) (u : string) :
  indexOfChar c u = None -> indexOfChar c (u +:+ EmptyString) = None.
Proof. now rewrite app_empty_r. Qed.

Lemma indexOfChar_split (c : ascii) (s : string) (i : nat) :
  indexOfChar c s = Some i ->
  exists u w, s = u +:+ String c w /\ indexOfChar c u = None /\ String.length u = i.
Proof.
  revert i. induction s as [|d s IH]; intros i H; [discriminate H|].
  cbn in H. destruct (Ascii.eqb d c) eqn:E.
  - apply Ascii.eqb_eq in E as ->. injection H as <-.
    exists EmptyString, s. now repeat split.
  - destruct (indexOfChar c s) as [j|] eqn:Ej; [|discriminate H].
    injection H as <-. destruct (IH j eq_refl) as (u & w & -> & Hu & Hl).
    exists (String d u), w. split; [reflexivity|]. split.
    + cbn. now rewrite E, Hu.
    + cbn. now rewrite Hl.
Qed.

Lemma truthy_iff (s : string) : JsString.truthy s = true <-> s <> EmptyString.
Proof. destruct s; cbn; split; congruence. Qed.

End ParseMappingFacts.

(** X2. A mapping argument written as [URL=IDENTITY], with a non-empty URL
    that holds no [=], is parsed back into that URL and that identity, and
    appended to the mappings parsed so far; the identity may itself hold
    [=] signs. A bare URL is parsed with the empty identity. *)
Theorem parseMapping_round_trip (url ident : string) (previous : list ClusterMapping) :
  url <> EmptyString ->
  indexOfChar equalsSign url = None ->
  parseMapping (url +:+ String equalsSign ident) previous
  = Some (previous ++ [ {| clusterUrl := url; identity := ident |} ])
  /\ parseMapping url previous
     = Some (previous ++ [ {| clusterUrl := url; identity := EmptyString |} ]).
Proof.
  intros Hne Hnone. unfold parseMapping. split.
  - rewrite (indexOfChar_app _ _ _ Hnone), substring_app_l, substring_app_r.
    apply truthy_iff in Hne. now rewrite Hne.
  - rewrite Hnone. apply truthy_iff in Hne. now rewrite Hne.
Qed.

Lemma parseMapping_round_trip_witness :
  parseMapping "https://c.example=/sub/rg/id=with=equals" []
  = Some [ {| clusterUrl := "https://c.example"; identity := "/sub/rg/id=with=equals" |} ]
  /\ parseMapping "https://c.example" []
     = Some [ {| clusterUrl := "https://c.example"; identity := EmptyString |} ].
Proof.
  apply (parseMapping_round_trip "https://c.example" "/sub/rg/id=with=equals" []);
    [discriminate | reflexivity].
Defined.

(** X3. [parseMapping] throws exactly on the empty argument and on an
    argument that starts with [=]. In every other case it appends one mapping
    and leaves the earlier ones in place; the URL of that mapping is not
    empty and holds no [=], and the argument is that URL, alone or followed
    by [=] and the identity. *)
Theorem parseMapping_cases (value : string) (previous : list ClusterMapping) :
  match parseMapping value previous with
  | None => value = EmptyString \/ exists rest, value = String equalsSign rest
  | Some l =>
      exists mp,
        l = previous ++ [mp]
        /\ clusterUrl mp <> EmptyString
        /\ indexOfChar equalsSign (clusterUrl mp) = None
        /\ ((value = clusterUrl mp /\ identity mp = EmptyString)
            \/ value = clusterUrl mp +:+ String equalsSign (identity mp))
  end.
Proof.
  unfold parseMapping.
  destruct (indexOfChar equalsSign value) as [i|] eqn:E.
  - destruct (indexOfChar_split _ _ _ E) as (u & w & -> & Hu & <-).
    rewrite substring_app_l, substring_app_r.
    destruct u as [|c u]; cbn [JsString.truthy negb].
    + right. exists w. reflexivity.
    + eexists. split; [reflexivity|]. cbn [clusterUrl identity].
      split; [discriminate|]. split; [exact Hu|]. now right.
  - destruct value as [|c v]; cbn [JsString.truthy negb].
    + now left.
    + eexists. split; [reflexivity|]. cbn [clusterUrl identity].
      split; [discriminate|]. split; [exact E|]. now left.
Qed.

(** ** The records of the manager *)

Section RecordFacts.

Lemma get_set {V} (key : string) (v : V) (m : JsMap.t V) (k : string) :
  JsMap.get k (JsMap.set key v m)
  = if String.eqb key k then Some v else JsMap.get k m.
Proof.
  induction m as [|[k0 v0] m IH]; cbn [JsMap.set JsMap.get].
  - destruct (String.eqb key k); reflexivity.
  - destruct (String.eqb k0 key) eqn:E0; cbn [JsMap.get].
    + apply String.eqb_eq in E0 as ->. destruct (String.eqb key k); reflexivity.
    + destruct (String.eqb k0 k) eqn:E1; [|exact IH].
      apply String.eqb_eq in E1 as ->. now rewrite String.eqb_sym, E0.
Qed.

Lemma has_get {V} (key : string) (m : JsMap.t V) :
  JsMap.has key m = false <-> JsMap.get key m = None.
Proof. unfold JsMap.has. destruct (JsMap.get key m); split; congruence. Qed.

Lemma initializeOne_get connect now m mp key :
  JsMap.get key (_downstreams (initializeOne connect now m mp))
  = match JsMap.get key (_downstreams m) with
    | Some st => Some st
    | None =>
        if String.eqb (normalizeClusterUrl (clusterUrl mp)) key
        then Some (initialRecord connect now mp)
        else None
    end.
Proof.
  unfold initializeOne, initialRecord.
  set (k := normalizeClusterUrl (clusterUrl mp)).
  destruct (JsMap.has k (_downstreams m)) eqn:Hhas.
  - destruct (JsMap.get key (_downstreams m)) eqn:Hget; [reflexivity|].
    destruct (String.eqb k key) eqn:E; [|reflexivity].
    apply String.eqb_eq in E as <-. apply has_get in Hget. congruence.
  - apply has_get in Hhas.
    destruct (connect k); cbn [_downstreams with_downstreams];
      rewrite get_update, get_set;
      (destruct (String.eqb k key) eqn:E;
       [apply String.eqb_eq in E as <-; now rewrite Hhas
       | now destruct (JsMap.get key (_downstreams m))]).
Qed.

Lemma initialize_fold_get connect now (l : list ClusterMapping) m key :
  JsMap.get key (_downstreams (fold_left (initializeOne connect now) l m))
  = match JsMap.get key (_downstreams m) with
    | Some st => Some st
    | None =>
        initialRecord connect now
          <$> List.find (fun mp => String.eqb (normalizeClusterUrl (clusterUrl mp)) key) l
    end.
Proof.
  revert m. induction l as [|mp l IH]; intros m; cbn [fold_left List.find].
  - now destruct (JsMap.get key (_downstreams m)).
  - rewrite IH, initializeOne_get.
    destruct (JsMap.get key (_downstreams m)); [reflexivity|].
    now destruct (String.eqb _ key).
Qed.

End RecordFacts.

(** X4. After [initializeAll] on a new manager, the record stored under a
    key is the one built from the first mapping of the configuration whose
    URL normalizes to that key: [Connected], with the client, the tools and a
    zero failure count, if the connection attempt for the key succeeded, and
    [Failed] with no client if it threw. A later mapping with the same
    normalized URL leaves no trace, and a key that no mapping normalizes to
    has no record. *)
Theorem initializeAll_records (connectDownstream : string -> ConnectOutcome)
    (now : string) (cfg : RouterConfig) (key : string) :
  JsMap.get key
    (_downstreams (initializeAll connectDownstream now (newDownstreamManager cfg)))
  = initialRecord connectDownstream now <$> firstMappingFor key cfg.
Proof. unfold initializeAll. now rewrite initialize_fold_get. Qed.

Section InitializeTwice.

Lemma initializeOne_has connect now m mp key :
  JsMap.has key (_downstreams m) = true ->
  JsMap.has key (_downstreams (initializeOne connect now m mp)) = true.
Proof.
  unfold JsMap.has. rewrite initializeOne_get.
  now destruct (JsMap.get key (_downstreams m)).
Qed.

Lemma initializeOne_has_own connect now m mp :
  JsMap.has (normalizeClusterUrl (clusterUrl mp))
    (_downstreams (initializeOne connect now m mp)) = true.
Proof.
  unfold JsMap.has. rewrite initializeOne_get, String.eqb_refl.
  now destruct (JsMap.get _ (_downstreams m)).
Qed.

Lemma initialize_fold_has connect now (l : list ClusterMapping) m key :
  JsMap.has key (_downstreams m) = true ->
  JsMap.has key (_downstreams (fold_left (initializeOne connect now) l m)) = true.
Proof.
  revert m. induction l as [|mp l IH]; intros m H; [exact H|].
  cbn [fold_left]. apply IH, initializeOne_has, H.
Qed.

Lemma initialize_fold_covers connect now (l : list ClusterMapping) m mp :
  In mp l ->
  JsMap.has (normalizeClusterUrl (clusterUrl mp))
    (_downstreams (fold_left (initializeOne connect now) l m)) = true.
Proof.
  revert m. induction l as [|mp0 l IH]; intros m Hin; [destruct Hin|].
  cbn [fold_left]. destruct Hin as [-> | Hin]; [|now apply IH].
  apply initialize_fold_has, initializeOne_has_own.
Qed.

Lemma initialize_fold_present connect now (l : list ClusterMapping) m :
  (forall mp, In mp l ->
     JsMap.has (normalizeClusterUrl (clusterUrl mp)) (_downstreams m) = true) ->
  fold_left (initializeOne connect now) l m = m.
Proof.
  induction l as [|mp l IH]; intros H; [reflexivity|].
  cbn [fold_left].
  assert (initializeOne connect now m mp = m) as ->
    by (unfold initializeOne; rewrite H by (now left); reflexivity).
  apply IH. intros mp' Hin. apply H. now right.
Qed.

End InitializeTwice.

(** X5. [initializeAll] is idempotent: run again on the manager it has
    produced, with whatever the connection attempts would now answer, it
    finds every key present and changes nothing, neither a record nor the
    order of the keys. *)
Theorem initializeAll_idempotent (connect connect' : string -> ConnectOutcome)
    (now now' : string) (m : DownstreamManager) :
  initializeAll connect' now' (initializeAll connect now m)
  = initializeAll connect now m.
Proof.
  unfold initializeAll. rewrite initialize_fold_config.
  apply initialize_fold_present. intros mp Hin.
  apply initialize_fold_covers, Hin.
Qed.

Section SoundRecords.

Lemma update_Forall_entry {V} (Q : string -> V -> Prop) (key : string) (f : V -> V)
    (m : JsMap.t V) :
  (forall k v, Q k v -> Q k (f v)) ->
  Forall (fun e => Q e.1 e.2) m -> Forall (fun e => Q e.1 e.2) (JsMap.update key f m).
Proof.
  intros Hf. induction 1 as [|[k v] m Hv Hm IH]; cbn [JsMap.update]; [constructor|].
  destruct (String.eqb k key); constructor; try assumption.
  cbn [fst snd] in *. now apply Hf.
Qed.

Lemma set_Forall_entry {V} (Q : string -> V -> Prop) (key : string) (v : V)
    (m : JsMap.t V) :
  Q key v ->
  Forall (fun e => Q e.1 e.2) m -> Forall (fun e => Q e.1 e.2) (JsMap.set key v m).
Proof.
  intros Hv. induction 1 as [|[k v'] m Hv' Hm IH]; cbn [JsMap.set].
  - now repeat constructor.
  - destruct (String.eqb k key) eqn:E; constructor; try assumption.
    apply String.eqb_eq in E as ->. exact Hv.
Qed.

Lemma get_Forall_entry {V} (Q : string -> V -> Prop) (key : string) (v : V)
    (m : JsMap.t V) :
  Forall (fun e => Q e.1 e.2) m -> JsMap.get key m = Some v -> Q key v.
Proof.
  induction 1 as [|[k v'] m Hv' _ IH]; cbn [JsMap.get]; [discriminate|].
  destruct (String.eqb k key) eqn:E; [|exact IH].
  apply String.eqb_eq in E as ->. now intros [= <-].
Qed.

Lemma sound_connected c tr pr ts now k d :
  normalizeClusterUrl (clusterUrl (mapping d)) = k ->
  reconnecting d = false ->
  soundRecord k (connected_with c tr pr ts now d).
Proof.
  intros Hk Hr. unfold soundRecord, connected_with; cbn.
  split; [exact Hk|]. split; [discriminate|]. split; [exact Hr|].
  intros _. repeat split; eauto.
Qed.

Lemma sound_not_connected k d st :
  st <> Connected -> st <> Connecting ->
  normalizeClusterUrl (clusterUrl (mapping d)) = k ->
  reconnecting d = false ->
  soundRecord k (set_status st d).
Proof.
  intros H1 H2 Hk Hr. unfold soundRecord, set_status; cbn.
  split; [exact Hk|]. split; [exact H2|]. split; [exact Hr|].
  intros Hs. contradiction.
Qed.

Lemma initializeOne_sound connect now m mp :
  Forall soundEntry (_downstreams m) ->
  Forall soundEntry (_downstreams (initializeOne connect now m mp)).
Proof.
  intros H. unfold initializeOne.
  set (k := normalizeClusterUrl (clusterUrl mp)).
  destruct (JsMap.has k (_downstreams m)) eqn:Hhas; [exact H|].
  apply has_get in Hhas.
  assert (forall f, soundRecord k (f (initialState mp)) ->
            Forall soundEntry
              (JsMap.update k f (JsMap.set k (initialState mp) (_downstreams m)))) as Hgo.
  { intros f Hf. clear -H Hhas Hf.
    induction H as [|[k0 v0] ds Hv Hds IH]; cbn [JsMap.set JsMap.update].
    - rewrite String.eqb_refl. constructor; [exact Hf | constructor].
    - cbn [JsMap.get] in Hhas. destruct (String.eqb k0 k) eqn:E; [discriminate Hhas|].
      cbn [JsMap.update]. rewrite E. constructor; [exact Hv | now apply IH]. }
  destruct (connect k); cbn [_downstreams with_downstreams]; apply Hgo.
  - now apply sound_connected.
  - apply sound_not_connected; try discriminate; reflexivity.
Qed.

Lemma managerStep_sound m m' :
  managerStep m m' ->
  Forall soundEntry (_downstreams m) -> Forall soundEntry (_downstreams m').
Proof.
  intros [now url answered m0 | connect now url m0 | key m0] H.
  - unfold pingSettled. cbn [_downstreams with_downstreams].
    destruct answered; apply (update_Forall_entry soundRecord); try exact H;
      intros k v (Hk & Hc & Hr & Hconn).
    + split; [exact Hk|]. split; [exact Hc|]. split; [exact Hr|].
      intros Hs. destruct (Hconn Hs) as (H1 & H2 & _ & _).
      cbn. repeat split; eauto.
    + split; [exact Hk|]. split; [|split; [exact Hr|]];
        unfold ping_failed; cbn [status];
        destruct (3 <=? S (consecutiveFailures v))%nat; discriminate.
  - unfold reconnect.
    destruct (JsMap.get _ _) as [st|]; [|exact H].
    destruct (reconnecting st); [exact H|].
    assert (forall f,
              (forall k v, normalizeClusterUrl (clusterUrl (mapping v)) = k ->
                           soundRecord k (f v)) ->
              Forall soundEntry
                (JsMap.update (normalizeClusterUrl url) f
                   (JsMap.update (normalizeClusterUrl url)
                      (fun d => drop_references (set_reconnecting true d))
                      (_downstreams m0)))) as Hgo.
    { intros f Hf. clear -H Hf.
      induction H as [|[k0 v0] ds Hv Hds IH]; cbn [JsMap.update]; [constructor|].
      destruct (String.eqb k0 (normalizeClusterUrl url)) eqn:E; cbn [JsMap.update];
        rewrite E; constructor; try assumption.
      apply Hf. apply Hv. }
    destruct (connect _); cbn [fst snd _downstreams with_downstreams]; apply Hgo.
    + intros k v Hk. split; [exact Hk|]. split; [discriminate|]. split; [reflexivity|].
      intros _. cbn. repeat split; eauto.
    + intros k v Hk. split; [exact Hk|]. split; [discriminate|]. split; [reflexivity|].
      intros Hs. discriminate Hs.
  - unfold onProcessExit. cbn [_downstreams with_downstreams].
    apply (update_Forall_entry soundRecord); [|exact H].
    intros k v (Hk & Hc & Hr & _). split; [exact Hk|]. split; [discriminate|].
    split; [exact Hr|]. intros Hs. discriminate Hs.
Qed.

Lemma reachable_sound cfg m : reachable cfg m -> Forall soundEntry (_downstreams m).
Proof.
  induction 1 as [connect now | m m' _ IH Hstep].
  - unfold initializeAll.
    assert (forall l m0, Forall soundEntry (_downstreams m0) ->
              Forall soundEntry
                (_downstreams (fold_left (initializeOne connect now) l m0))) as Hfold.
    { induction l as [|mp l IHl]; intros m0 H0; [exact H0|].
      apply IHl, initializeOne_sound, H0. }
    apply Hfold. constructor.
  - eapply managerStep_sound; eassumption.
Qed.

End SoundRecords.

(** X6. In every manager of a run, from [initializeAll] through any pings,
    reconnects and child exits, each record is stored under the normalized
    URL of its own mapping, is never [Connecting], is not marked
    [reconnecting] once a reconnect has finished, and, when it is
    [Connected], has a client, a transport, a heartbeat time and a failure
    count of zero. *)
Theorem reachable_records_sound (cfg : RouterConfig) (m : DownstreamManager)
    (key : string) (st : DownstreamState) :
  reachable cfg m ->
  JsMap.get key (_downstreams m) = Some st ->
  normalizeClusterUrl (clusterUrl (mapping st)) = key
  /\ status st <> Connecting
  /\ reconnecting st = false
  /\ (status st = Connected ->
      is_Some (client st) /\ is_Some (transport st) /\ is_Some (lastHeartbeat st)
      /\ consecutiveFailures st = 0).
Proof.
  intros Hreach Hget.
  exact (get_Forall_entry soundRecord key st _ (reachable_sound cfg m Hreach) Hget).
Qed.

Lemma reachable_records_sound_witness :
  exists st,
    JsMap.get Sample.c2
      (_downstreams (initializeAll Sample.connects "t0"
                       (newDownstreamManager Sample.dupCfg))) = Some st
    /\ normalizeClusterUrl (clusterUrl (mapping st)) = Sample.c2
    /\ (status st = Connected -> consecutiveFailures st = 0).
Proof.
  eexists. split; [reflexivity|].
  destruct (reachable_records_sound Sample.dupCfg
              (initializeAll Sample.connects "t0" (newDownstreamManager Sample.dupCfg))
              Sample.c2 _ (reach_init _ _ _) eq_refl) as (Hk & _ & _ & Hc).
  split; [exact Hk|]. intros Hs. apply Hc, Hs.
Defined.

Lemma overlapping_pings_disconnect_witness :
  let m := initializeAll Sample.connects "t0" (newDownstreamManager Sample.dupCfg) in
  let m3 := pingSettled "t1" Sample.c1 false
              (pingSettled "t1" Sample.c1 false (pingSettled "t1" Sample.c1 false m)) in
  pingBegin Sample.c1 m = Some 1
  /\ exists st3, JsMap.get Sample.c1 (_downstreams m3) = Some st3
                 /\ status st3 = Disconnected /\ consecutiveFailures st3 = 3.
Proof.
  intros m m3.
  destruct (overlapping_pings_disconnect Sample.dupCfg m "t1" Sample.c1
              (connected_with 1 1 (Some 1) [] "t0"
                 (initialState {| clusterUrl := Sample.c1; identity := "id1" |})) 1
              (reach_init _ _ _) eq_refl eq_refl eq_refl)
    as (Hb & _ & _ & _ & H3 & _).
  split; [exact Hb | exact H3].
Defined.

(** ** Reconnect, child exit, call-on-one *)

(** X8. [reconnect] on an unknown endpoint, or on one whose reconnect is in
    flight, returns [false] and changes nothing. Otherwise it returns [true]
    exactly when the new connection attempt succeeds, and then the record is
    [Connected] with the new client, the newly listed tools, a fresh
    heartbeat and a failure count of zero; when the attempt throws, the
    record is [Failed], has lost its client, transport and process, and keeps
    its former tools, heartbeat and failure count. Either way [reconnecting]
    is cleared, the mapping is kept, and no other record changes. *)
Theorem reconnect_spec (connectDownstream : string -> ConnectOutcome) (now : string)
    (m : DownstreamManager) (clusterUrl : string) :
  let key := normalizeClusterUrl clusterUrl in
  match JsMap.get key (_downstreams m) with
  | None => reconnect connectDownstream now clusterUrl m = (false, m)
  | Some st =>
      if reconnecting st
      then reconnect connectDownstream now clusterUrl m = (false, m)
      else
        exists ok m' st',
          reconnect connectDownstream now clusterUrl m = (ok, m')
          /\ JsMap.get key (_downstreams m') = Some st'
          /\ getClusterUrls m' = getClusterUrls m
          /\ (forall k, k <> key ->
                JsMap.get k (_downstreams m') = JsMap.get k (_downstreams m))
          /\ reconnecting st' = false
          /\ mapping st' = mapping st
          /\ match connectDownstream key with
             | ConnectOk c tr pr ts =>
                 ok = true /\ status st' = Connected
                 /\ client st' = Some c /\ transport st' = Some tr /\ process st' = pr
                 /\ tools st' = ts /\ lastHeartbeat st' = Some now
                 /\ consecutiveFailures st' = 0
             | ConnectThrew _ =>
                 ok = false /\ status st' = Failed
                 /\ client st' = None /\ transport st' = None /\ process st' = None
                 /\ tools st' = tools st /\ lastHeartbeat st' = lastHeartbeat st
                 /\ consecutiveFailures st' = consecutiveFailures st
             end
  end.
Proof.
  intros key. unfold reconnect. fold key.
  destruct (JsMap.get key (_downstreams m)) as [st|] eqn:Hget; [|reflexivity].
  destruct (reconnecting st) eqn:Hr; [reflexivity|].
  assert (forall f g k, k <> key ->
            JsMap.get k (JsMap.update key f (JsMap.update key g (_downstreams m)))
            = JsMap.get k (_downstreams m)) as Hframe.
  { intros f g k Hk. rewrite !get_update_ne by congruence. reflexivity. }
  destruct (connectDownstream key) as [c tr pr ts | msg].
  - exists true. eexists. eexists. split; [reflexivity|].
    cbn [_downstreams with_downstreams]. rewrite !get_update_eq, Hget.
    split; [reflexivity|].
    split; [unfold getClusterUrls; cbn [_downstreams with_downstreams];
            now rewrite !keys_update|].
    split; [apply Hframe|]. now repeat split.
  - exists false. eexists. eexists. split; [reflexivity|].
    cbn [_downstreams with_downstreams]. rewrite !get_update_eq, Hget.
    split; [reflexivity|].
    split; [unfold getClusterUrls; cbn [_downstreams with_downstreams];
            now rewrite !keys_update|].
    split; [apply Hframe|]. now repeat split.
Qed.

(** X9. When a child exits, its record becomes [Disconnected] and loses its
    client, transport and process; its tools, heartbeat and failure count
    stay, and no other record changes. From then on a call-on-one to that
    endpoint is refused with the status in the message and reaches no
    child. *)
Theorem onProcessExit_spec (clientCallTool : handle -> string -> Args -> CallOutcome)
    (m : DownstreamManager) (key : string) (st : DownstreamState)
    (toolName : string) (args : Args) :
  JsMap.get key (_downstreams m) = Some st ->
  let m' := onProcessExit key m in
  (exists st',
     JsMap.get key (_downstreams m') = Some st'
     /\ status st' = Disconnected
     /\ client st' = None /\ transport st' = None /\ process st' = None
     /\ tools st' = tools st /\ lastHeartbeat st' = lastHeartbeat st
     /\ consecutiveFailures st' = consecutiveFailures st)
  /\ getClusterUrls m' = getClusterUrls m
  /\ (forall k, k <> key ->
        JsMap.get k (_downstreams m') = JsMap.get k (_downstreams m))
  /\ liveAt m' key = false
  /\ (forall url, normalizeClusterUrl url = key ->
        callTool clientCallTool url toolName args m'
        = (textError (notConnectedText url Disconnected),
           [EvCallTool url toolName args])).
Proof.
  intros Hget m'.
  assert (JsMap.get key (_downstreams m')
          = Some (drop_references (set_status Disconnected st))) as Hget'.
  { unfold m', onProcessExit. cbn [_downstreams with_downstreams].
    now rewrite get_update_eq, Hget. }
  split; [eexists; split; [exact Hget' | now repeat split]|].
  split; [unfold m', onProcessExit, getClusterUrls;
          cbn [_downstreams with_downstreams]; apply keys_update|].
  split; [intros k Hk; unfold m', onProcessExit;
          cbn [_downstreams with_downstreams]; apply get_update_ne; congruence|].
  split; [unfold liveAt; now rewrite Hget'|].
  intros url Hurl. unfold callTool. rewrite Hurl, Hget'. reflexivity.
Qed.

Lemma onProcessExit_spec_witness :
  liveAt (onProcessExit Sample.c1 (Sample.bothUp [])) Sample.c1 = false
  /\ callTool Sample.answering "https://C1.example/" "kusto_query" ∅
       (onProcessExit Sample.c1 (Sample.bothUp []))
     = (textError (notConnectedText "https://C1.example/" Disconnected),
        [EvCallTool "https://C1.example/" "kusto_query" ∅]).
Proof.
  destruct (onProcessExit_spec Sample.answering (Sample.bothUp []) Sample.c1
              (Sample.record Sample.c1 (Some 1) Connected 0 []) "kusto_query" ∅ eq_refl)
    as (_ & _ & _ & Hlive & Hcall).
  split; [exact Hlive|]. apply Hcall. reflexivity.
Defined.



(** X11. [getToolDefinitions] answers with the tool list of the first
    record, in insertion order, that is [Connected] and has discovered at
    least one tool; records before it are skipped even when connected. Its
    answer is empty exactly when no connected record has a tool. *)
Theorem getToolDefinitions_first (m : DownstreamManager) :
  (getToolDefinitions m = [] <->
   forall e, In e (_downstreams m) -> status e.2 = Connected -> tools e.2 = [])
  /\ (getToolDefinitions m <> [] ->
      exists before e after,
        _downstreams m = before ++ e :: after
        /\ status e.2 = Connected
        /\ tools e.2 = getToolDefinitions m
        /\ forall e', In e' before -> status e'.2 = Connected -> tools e'.2 = []).
Proof.
  unfold getToolDefinitions, JsMap.values.
  induction (_downstreams m) as [|[k d] ds [IH1 IH2]]; cbn [map List.find snd].
  - split; [split; [intros _ e [] | reflexivity] | intros H; now destruct H].
  - destruct (bool_decide (status d = Connected) && (0 <? length (tools d))%nat) eqn:E.
    + apply andb_true_iff in E as [Hs Hl].
      apply bool_decide_eq_true in Hs. apply Nat.ltb_lt in Hl.
      split.
      * split.
        -- intros Ht. rewrite Ht in Hl. cbn in Hl. lia.
        -- intros Hall. apply (Hall (k, d)); [now left | exact Hs].
      * intros _. exists [], (k, d), ds. repeat split; [exact Hs | intros e' []].
    + assert (status d = Connected -> tools d = []) as Hd.
      { intros Hs. apply andb_false_iff in E as [E | E].
        - apply bool_decide_eq_false in E. contradiction.
        - apply Nat.ltb_ge in E. destruct (tools d); [reflexivity | cbn in E; lia]. }
      split.
      * rewrite IH1. split.
        -- intros Hall e [<- | Hin]; [exact Hd | now apply Hall].
        -- intros Hall e Hin. apply Hall. now right.
      * intros Hne. destruct (IH2 Hne) as (before & e & after & -> & Hs & Ht & Hb).
        exists ((k, d) :: before), e, after. repeat split; try assumption.
        intros e' [<- | Hin]; [exact Hd | now apply Hb].
Qed.

Lemma getToolDefinitions_first_witness :
  exists before e after,
    _downstreams (Sample.firstDown Sample.tools) = before ++ e :: after
    /\ e.1 = Sample.c2
    /\ tools e.2 = getToolDefinitions (Sample.firstDown Sample.tools).
Proof.
  destruct (getToolDefinitions_first (Sample.firstDown Sample.tools)) as [_ H].
  destruct H as (before & e & after & Hds & Hs & Ht & Hb); [discriminate|].
  exists before, e, after. split; [exact Hds|]. split; [|exact Ht].
  destruct before as [|b before].
  - injection Hds as <- _. discriminate Hs.
  - injection Hds as _ Hrest. destruct before as [|b' before].
    + now injection Hrest as <- _.
    + injection Hrest as _ Hnil. now destruct before.
Defined.

(** ** The merged tool list *)

Lemma enhanceFanOutValue_cluster (clusterUrls : list string) (v : SchemaValue) :
  exists props p d,
    v_properties (enhanceFanOutValue clusterUrls v) = Some props
    /\ props !! "cluster" = Some p
    /\ p_type p = Some "string"
    /\ p_enum p = Some clusterUrls
    /\ p_description p = Some d
    /\ mentionsAll d clusterUrls
    /\ p_rest p = []
    /\ (forall k : string, k <> "cluster" ->
          props !! k = default ∅ (v_properties v) !! k).
Proof.
  unfold enhanceFanOutValue. cbn [v_properties].
  eexists _, _, _. split; [reflexivity|].
  split; [apply lookup_insert_eq|].
  split; [reflexivity|]. split; [reflexivity|]. split; [reflexivity|].
  split; [apply mentionsAll_join|]. split; [reflexivity|].
  intros k Hk. apply lookup_insert_ne. congruence.
Qed.

(** X12. For every source tool that a refresh classifies as fan-out (its
    name is not in the routable set), the merged tool at the same position
    has a schema made of new objects in which [cluster] is a property of type
    ["string"] whose [enum] is the list of configured endpoint URLs and whose
    description mentions each of them; every other property is as in the
    source, and [required] is exactly the source's, so the rewrite never
    makes [cluster] required. The description is the source description
    followed by " (Queries all available clusters unless a specific cluster
    is specified)", or a fixed text when the source has none. The source
    schema keeps its value. *)
Theorem refreshTools_fanOut_rewrite (m : DownstreamManager) (r : ToolRouter)
    (h : heap) :
  toolsIn h (getToolDefinitions m) ->
  exists r' h',
    refreshTools m r h = Some (r', h')
    /\ preserves h h'
    /\ (forall tool, tool ∈ getToolDefinitions m -> ~ declaresCluster h tool ->
          name tool ∈ _fanOutTools r')
    /\ forall i tool,
         getToolDefinitions m !! i = Some tool ->
         name tool ∉ _routableTools r' ->
         exists t' v v' props p d,
           _mergedTools r' !! i = Some t'
           /\ name t' = name tool
           /\ schemaAt h (inputSchema tool) v
           /\ schemaAt h' (inputSchema tool) v
           /\ madeAfter h h' (inputSchema t')
           /\ schemaAt h' (inputSchema t') v'
           /\ v_properties v' = Some props
           /\ props !! "cluster" = Some p
           /\ p_type p = Some "string"
           /\ p_enum p = Some (getClusterUrls m)
           /\ p_description p = Some d
           /\ mentionsAll d (getClusterUrls m)
           /\ (forall k : string, k <> "cluster" ->
                 props !! k = default ∅ (v_properties v) !! k)
           /\ v_required v' = v_required v
           /\ v_additionalProperties v' = v_additionalProperties v
           /\ (forall t, description tool = Some t -> t <> EmptyString ->
                 description t'
                 = Some (t +:+ " (Queries all available clusters unless a specific cluster is specified)"))
           /\ (description tool = None \/ description tool = Some EmptyString ->
                 description t'
                 = Some "Lists Kusto clusters across all available connections").
Proof.
  intros Hin.
  destruct (getToolDefinitions m) as [|t0 ts] eqn:Ets.
  { eexists _, h. split; [apply refreshTools_empty, Ets|].
    split; [apply preserves_refl|]. split.
    - intros tool Ht. now apply elem_of_nil in Ht.
    - intros i tool Hi. now destruct i. }
  rewrite <- Ets in *.
  assert (getToolDefinitions m <> []) as Hne by (rewrite Ets; discriminate).
  destruct (refreshTools_nonempty m r h Hne Hin) as (r' & h' & E & Hp & _ & Hcl & Hall).
  exists r', h'. split; [exact E|]. split; [exact Hp|]. split.
  { intros tool Ht Hd. apply Hcl. exists tool. now repeat split. }
  intros i tool Hi Hro.
  destruct (Forall2_lookup_l _ _ _ _ _ Hall Hi) as (t' & Hi' & Hn & Hnew & v & Hv & He).
  rewrite bool_decide_eq_false_2 in He by exact Hro. destruct He as [Hs' Hd].
  destruct (enhanceFanOutValue_cluster (getClusterUrls m) v)
    as (props & p & d & Hps & Hc & Hty & Hen & Hde & Hm & _ & Hk).
  destruct (describe_cases (description tool)
              " (Queries all available clusters unless a specific cluster is specified)"
              "Lists Kusto clusters across all available connections") as [Hd1 Hd2].
  exists t', v, (enhanceFanOutValue (getClusterUrls m) v), props, p, d.
  split; [exact Hi'|]. split; [exact Hn|]. split; [exact Hv|].
  split; [eapply schemaAt_preserved; eassumption|].
  split; [exact Hnew|]. split; [exact Hs'|].
  repeat split; try assumption.
  - intros t Ht Hnon. rewrite Hd. f_equal. now apply Hd1.
  - intros Hnone. rewrite Hd. f_equal. now apply Hd2.
Qed.

Lemma refreshTools_fanOut_rewrite_witness :
  exists r' h' t' v',
    refreshTools (Sample.bothUp Sample.tools) newToolRouter Sample.heap0 = Some (r', h')
    /\ _mergedTools r' !! 1 = Some t'
    /\ name t' = "kusto_cluster_list"
    /\ schemaAt h' (inputSchema t') v'
    /\ v_required v' = Some ["subscriptionId"]
    /\ description t'
       = Some "List available Kusto clusters (Queries all available clusters unless a specific cluster is specified)".
Proof.
  destruct (refreshTools_fanOut_rewrite (Sample.bothUp Sample.tools) newToolRouter
              Sample.heap0 sample_tools_in) as (r' & h' & E & _ & _ & H).
  destruct (refreshTools_nonempty (Sample.bothUp Sample.tools) newToolRouter Sample.heap0)
    as (r1 & h1 & E1 & _ & Hro & _ & _); [discriminate | exact sample_tools_in |].
  rewrite E in E1. injection E1 as <- <-.
  destruct (H 1 Sample.kusto_cluster_list eq_refl)
    as (t' & v & v' & props & p & d & Hi & Hn & Hv & Hrest).
  - intros Hin. apply Hro in Hin as (t & Ht & Hname & Hd).
    apply elem_of_cons in Ht as [-> | Ht]; [discriminate Hname|].
    apply list_elem_of_singleton in Ht as ->. now apply sample_list_declares_not.
  - assert (v = Sample.listValue) as ->.
    { eapply schemaAt_functional; [exact Hv|].
      eexists. split; [reflexivity|]. now repeat split. }
    exists r', h', t', v'. split; [exact E|]. split; [exact Hi|]. split; [exact Hn|].
    decompose [and] Hrest. repeat split; try assumption.
    match goal with
    | Hd : forall t, description Sample.kusto_cluster_list = Some t -> _ |- _ =>
        apply (Hd _ eq_refl); discriminate
    end.
Defined.

(** X13. After every refresh, over an empty or a non-empty source list, the
    merged list has the names of the source tools, in the same order, and
    each name of the merged list is in the routable set or in the fan-out
    set. *)
Theorem refreshTools_merged_names (m : DownstreamManager) (r : ToolRouter) (h : heap) :
  toolsIn h (getToolDefinitions m) ->
  exists r' h',
    refreshTools m r h = Some (r', h')
    /\ map name (_mergedTools r') = map name (getToolDefinitions m)
    /\ forall t', t' ∈ _mergedTools r' ->
         name t' ∈ _routableTools r' \/ name t' ∈ _fanOutTools r'.
Proof.
  intros Hin.
  destruct (getToolDefinitions m) as [|t0 ts] eqn:Ets.
  { eexists _, h. split; [apply refreshTools_empty, Ets|].
    split; [reflexivity|]. intros t' Ht. now apply elem_of_nil in Ht. }
  rewrite <- Ets in *.
  assert (getToolDefinitions m <> []) as Hne by (rewrite Ets; discriminate).
  destruct (refreshTools_nonempty m r h Hne Hin) as (r' & h' & E & _ & Hro & Hfo & Hall).
  exists r', h'. split; [exact E|].
  assert (map name (_mergedTools r') = map name (getToolDefinitions m)) as Hnames.
  { clear -Hall. induction Hall as [|tool t' ts ts' (Hn & _) _ IH]; [reflexivity|].
    cbn. now rewrite Hn, IH. }
  split; [exact Hnames|].
  intros t' Ht'.
  assert (name t' ∈ map name (getToolDefinitions m)) as Hsrc.
  { rewrite <- Hnames. apply list_elem_of_fmap. now exists t'. }
  apply list_elem_of_fmap in Hsrc as (tool & Hn & Htool).
  assert (exists v, schemaAt h (inputSchema tool) v) as [v Hv].
  { unfold toolsIn in Hin. rewrite Forall_forall in Hin. now apply Hin. }
  destruct (decide (is_Some (default ∅ (v_properties v) !! "cluster"))) as [Hd | Hd];
    rewrite <- (declaresCluster_iff h tool v Hv) in Hd; [left | right];
    [apply Hro | apply Hfo]; exists tool; now repeat split.
Qed.

Lemma refreshTools_merged_names_witness :
  exists r' h',
    refreshTools (Sample.bothUp Sample.tools) newToolRouter Sample.heap0 = Some (r', h')
    /\ map name (_mergedTools r') = ["kusto_query"; "kusto_cluster_list"].
Proof.
  destruct (refreshTools_merged_names (Sample.bothUp Sample.tools) newToolRouter
              Sample.heap0 sample_tools_in) as (r' & h' & E & Hn & _).
  exists r', h'. split; [exact E | exact Hn].
Defined.

Lemma refreshTools_classification_witness :
  exists r' h',
    refreshTools (Sample.bothUp Sample.tools) newToolRouter Sample.heap0 = Some (r', h')
    /\ _routableTools r' ## _fanOutTools r'
    /\ "kusto_query" ∈ _routableTools r'
    /\ "kusto_cluster_list" ∈ _fanOutTools r'.
Proof.
  destruct (refreshTools_classification (Sample.bothUp Sample.tools) newToolRouter
              Sample.heap0) as (r' & h' & E & Hcl & Hdisj & _);
    [discriminate | exact sample_tools_in | |].
  - repeat constructor; [|apply not_elem_of_nil].
    intros Hin. apply list_elem_of_singleton in Hin. discriminate Hin.
  - exists r', h'. split; [exact E|]. split; [exact Hdisj|]. split.
    + apply (Hcl Sample.kusto_query); [left | now apply sample_query_declares].
    + apply (Hcl Sample.kusto_cluster_list); [right; left | apply sample_list_declares_not].
Defined.

(** ** Route-to-one *)

Section RouteToOne.
Variable clientCallTool : handle -> string -> Args -> CallOutcome.

Lemma findCluster_spec (key : string) (urls : list string) :
  findCluster key urls = if bool_decide (key ∈ urls) then Some key else None.
Proof.
  unfold findCluster. induction urls as [|u urls IH]; cbn [List.find].
  - rewrite bool_decide_eq_false_2; [reflexivity | apply not_elem_of_nil].
  - destruct (String.eqb u key) eqn:E.
    + apply String.eqb_eq in E as ->.
      rewrite bool_decide_eq_true_2; [reflexivity | left].
    + apply String.eqb_neq in E. rewrite IH.
      destruct (bool_decide (key ∈ urls)) eqn:B.
      * apply bool_decide_eq_true in B.
        rewrite bool_decide_eq_true_2; [reflexivity | now right].
      * apply bool_decide_eq_false in B.
        rewrite bool_decide_eq_false_2; [reflexivity|].
        intros Hin. apply elem_of_cons in Hin as [-> | Hin]; contradiction.
Qed.

End RouteToOne.

(** X14. Route-to-one refuses, without calling the manager: with a text
    that says the [cluster] parameter is required and lists the endpoints,
    when [cluster] is absent or falsy; with a text that quotes the value as
    the caller wrote it, says that it is not configured and lists the
    endpoints, when [cluster] is a string whose normal form is no configured
    endpoint. A [cluster] that is truthy and not a string makes the call
    reject with a [TypeError]. *)
Theorem routeToCluster_refusals
    (clientCallTool : handle -> string -> Args -> CallOutcome)
    (toolName : string) (args : Args) (m : DownstreamManager) :
  (truthy_opt (args !! "cluster") = false ->
   _routeToCluster clientCallTool toolName args m
   = (Normal (textError (clusterRequiredText toolName m)), [])
   /\ mentionsAll (clusterRequiredText toolName m) (getClusterUrls m))
  /\ (forall c, args !! "cluster" = Some (JStr c) -> c <> EmptyString ->
        normalizeClusterUrl c ∉ getClusterUrls m ->
        _routeToCluster clientCallTool toolName args m
        = (Normal (notConfigured c (getClusterUrls m)), [])
        /\ exists text, content (notConfigured c (getClusterUrls m)) = [textContent text]
                        /\ JsString.includes text c = true
                        /\ mentionsAll text (getClusterUrls m))
  /\ (forall v, args !! "cluster" = Some v -> js_truthy v = true ->
        (forall c, v <> JStr c) ->
        exists msg, _routeToCluster clientCallTool toolName args m
                    = (ThrewTypeError msg, [])).
Proof.
  split; [|split].
  - intros Hc. unfold _routeToCluster. rewrite Hc. cbn [negb].
    split; [reflexivity|].
    apply Forall_forall. intros u Hu. unfold clusterRequiredText.
    do 9 apply includes_app_r. apply join_mentions, list_elem_of_In, Hu.
  - intros c Hcl Hne Hnot. unfold _routeToCluster. rewrite Hcl.
    cbn [truthy_opt js_truthy]. apply truthy_iff in Hne. rewrite Hne. cbn [negb].
    rewrite findCluster_spec, bool_decide_eq_false_2 by exact Hnot.
    split; [reflexivity|]. eexists. split; [reflexivity|]. split.
    + do 2 apply includes_app_r. apply includes_here.
    + apply Forall_forall. intros u Hu.
      do 5 apply includes_app_r. apply join_mentions, list_elem_of_In, Hu.
  - intros v Hcl Hv Hns. unfold _routeToCluster. rewrite Hcl.
    cbn [truthy_opt]. rewrite Hv. cbn [negb].
    destruct v; try (eexists; reflexivity). now destruct (Hns s).
Qed.

Lemma routeToCluster_refusals_witness :
  _routeToCluster Sample.answering "kusto_query" Sample.listArgs (Sample.bothUp [])
  = (Normal (textError (clusterRequiredText "kusto_query" (Sample.bothUp []))), [])
  /\ _routeToCluster Sample.answering "kusto_query"
       (Sample.listArgsOn "https://unknown.example") (Sample.bothUp [])
     = (Normal (notConfigured "https://unknown.example" [Sample.c1; Sample.c2]), [])
  /\ exists msg,
       _routeToCluster Sample.answering "kusto_query"
         (<["cluster" := JNum 5]> Sample.listArgs) (Sample.bothUp [])
       = (ThrewTypeError msg, []).
Proof.
  destruct (routeToCluster_refusals Sample.answering "kusto_query" Sample.listArgs
              (Sample.bothUp [])) as [H1 _].
  destruct (routeToCluster_refusals Sample.answering "kusto_query"
              (Sample.listArgsOn "https://unknown.example") (Sample.bothUp []))
    as (_ & H2 & _).
  destruct (routeToCluster_refusals Sample.answering "kusto_query"
              (<["cluster" := JNum 5]> Sample.listArgs) (Sample.bothUp []))
    as (_ & _ & H3).
  split; [apply H1; reflexivity|]. split.
  - apply (H2 "https://unknown.example"); [reflexivity | discriminate |].
    intros Hin. apply elem_of_cons in Hin as [Hin | Hin]; [discriminate Hin|].
    apply list_elem_of_singleton in Hin. discriminate Hin.
  - apply (H3 (JNum 5)); [reflexivity | reflexivity | discriminate].
Defined.

(** X15. Route-to-one selects the endpoint by the normal form of [cluster]:
    when [cluster] is a non-empty string whose normal form is a configured
    endpoint, the call goes to [callTool] for exactly that normal form, with
    the arguments as given, and the answer of [callTool] is the answer of
    the route. Two spellings of [cluster] with the same normal form reach the
    same endpoint. *)
Theorem routeToCluster_selects_normal_form
    (clientCallTool : handle -> string -> Args -> CallOutcome)
    (toolName : string) (args : Args) (m : DownstreamManager) (c : string) :
  args !! "cluster" = Some (JStr c) -> c <> EmptyString ->
  normalizeClusterUrl c ∈ getClusterUrls m ->
  _routeToCluster clientCallTool toolName args m
  = (Normal (callTool clientCallTool (normalizeClusterUrl c) toolName args m).1,
     (callTool clientCallTool (normalizeClusterUrl c) toolName args m).2)
  /\ exists rest,
       (_routeToCluster clientCallTool toolName args m).2
       = EvCallTool (normalizeClusterUrl c) toolName args :: rest.
Proof.
  intros Hcl Hne Hin.
  assert (_routeToCluster clientCallTool toolName args m
          = (Normal (callTool clientCallTool (normalizeClusterUrl c) toolName args m).1,
             (callTool clientCallTool (normalizeClusterUrl c) toolName args m).2)) as E.
  { unfold _routeToCluster. rewrite Hcl. cbn [truthy_opt js_truthy].
    apply truthy_iff in Hne. rewrite Hne. cbn [negb].
    rewrite findCluster_spec, bool_decide_eq_true_2 by exact Hin.
    now rewrite normalize_truthy. }
  split; [exact E|]. rewrite E. cbn [snd].
  destruct (callTool_events clientCallTool (normalizeClusterUrl c) toolName args m)
    as (rest & Hev & _).
  exists rest. exact Hev.
Qed.

Lemma routeToCluster_selects_normal_form_witness :
  exists rest,
    (_routeToCluster Sample.answering "kusto_query" Sample.queryArgs
       (Sample.bothUp [])).2
    = EvCallTool Sample.c1 "kusto_query" Sample.queryArgs :: rest.
Proof.
  destruct (routeToCluster_selects_normal_form Sample.answering "kusto_query"
              Sample.queryArgs (Sample.bothUp []) "https://C1.EXAMPLE/")
    as [_ H]; [reflexivity | discriminate | left |].
  exact H.
Defined.

(** ** The health monitor *)

(** X16. [start] and [stop] are idempotent, and the running flag is that of
    the last call. [start] leaves timers and backoffs alone. [stop] on a
    running monitor drops the ticker, every pending reconnect timer and every
    stored backoff; on a monitor that is not running it changes nothing,
    timers included. *)
Theorem start_stop_laws (h : HealthMonitor) :
  start (start h) = start h
  /\ stop (stop h) = stop h
  /\ _running (start h) = true
  /\ _running (stop h) = false
  /\ _reconnectTimers (start h) = _reconnectTimers h
  /\ _reconnectBackoffs (start h) = _reconnectBackoffs h
  /\ (_running h = true ->
      _interval (stop h) = None
      /\ _reconnectTimers (stop h) = ∅
      /\ _reconnectBackoffs (stop h) = ∅)
  /\ (_running h = false -> stop h = h)
  /\ (_running h = true -> start h = h).
Proof.
  unfold start, stop. destruct (_running h) eqn:E; cbn [negb _running].
  - rewrite E. cbn [negb _running]. now repeat split.
  - rewrite E. cbn [negb]. repeat split; discriminate.
Qed.

Section Stopped.

Lemma schedule_running url h :
  _running (_scheduleReconnect url h) = _running h.
Proof. unfold _scheduleReconnect. now destruct (_reconnectTimers h !! url). Qed.

Lemma monitorStep_stopped h h' :
  monitorStep h h' -> _running h = false -> _running h' = false.
Proof.
  intros [url h0 | url h0 | url cur ok h0 | url h0 | url st ok h0 | h0] Hr.
  - now rewrite schedule_running.
  - unfold timerFired. destruct (_reconnectTimers h0 !! url); [|exact Hr].
    cbn [_running with_timers]. rewrite Hr. exact Hr.
  - unfold reconnectSettled. destruct ok; [exact Hr|].
    cbn [_running with_backoffs]. rewrite Hr. exact Hr.
  - unfold onDownstreamExit. now rewrite Hr.
  - unfold checkOne. destruct st; try exact Hr.
    + destruct ok; cbn [negb]; [exact Hr | now rewrite schedule_running].
    + destruct (_reconnectTimers h0 !! url); [exact Hr | now rewrite schedule_running].
    + destruct (_reconnectTimers h0 !! url); [exact Hr | now rewrite schedule_running].
  - unfold stop. now rewrite Hr.
Qed.

End Stopped.

(** X17. After [stop], and until [start] is called again, no reconnect is
    attempted: whatever is still in progress (a tick handling its
    connections, timers armed by it, attempts settling, child exits being
    reported), a timer that fires goes no further than removing itself, and a
    reported child exit schedules nothing. *)
Theorem stopped_never_reconnects (h0 h : HealthMonitor) (clusterUrl : string) :
  rtc monitorStep (stop h0) h ->
  _running h = false
  /\ (timerFired clusterUrl h).1 = None
  /\ onDownstreamExit clusterUrl h = h.
Proof.
  intros Hrun.
  assert (_running h = false) as Hr.
  { remember (stop h0) as hs eqn:Hs.
    assert (_running hs = false) as H0
      by (rewrite Hs; unfold stop; destruct (_running h0) eqn:E; [reflexivity | exact E]).
    clear Hs. induction Hrun as [|x y z Hstep _ IH]; [exact H0|].
    apply IH. eapply monitorStep_stopped; eassumption. }
  split; [exact Hr|]. split.
  - unfold timerFired. destruct (_reconnectTimers h !! clusterUrl); [|reflexivity].
    cbn [_running with_timers]. now rewrite Hr.
  - unfold onDownstreamExit. now rewrite Hr.
Qed.

Lemma stopped_never_reconnects_witness :
  (timerFired Sample.c1
     (checkOne Sample.c1 Failed false (stop Sample.scheduled))).1 = None
  /\ is_Some (_reconnectTimers
                (checkOne Sample.c1 Failed false (stop Sample.scheduled)) !! Sample.c1).
Proof.
  split.
  - apply (stopped_never_reconnects Sample.scheduled
             (checkOne Sample.c1 Failed false (stop Sample.scheduled)) Sample.c1).
    eapply rtc_l; [apply ms_check | apply rtc_refl].
  - eexists. reflexivity.
Defined.

(** X18. Scheduling a reconnect is idempotent: a second call for the same
    endpoint changes nothing, so at most one timer is pending per endpoint.
    It never touches the timer of another endpoint or any stored backoff. *)
Theorem scheduleReconnect_idempotent (url : string) (h : HealthMonitor) :
  _scheduleReconnect url (_scheduleReconnect url h) = _scheduleReconnect url h
  /\ is_Some (_reconnectTimers (_scheduleReconnect url h) !! url)
  /\ (forall u, u <> url ->
        _reconnectTimers (_scheduleReconnect url h) !! u = _reconnectTimers h !! u)
  /\ _reconnectBackoffs (_scheduleReconnect url h) = _reconnectBackoffs h.
Proof.
  destruct (_reconnectTimers h !! url) as [t|] eqn:E.
  - rewrite (schedule_pending url h t E). rewrite (schedule_pending url h t E).
    repeat split. rewrite E. eauto.
  - destruct (schedule_arms url h E) as (Ht & Hb & _ & _).
    split; [eapply schedule_pending; exact Ht|]. split; [rewrite Ht; eauto|].
    split; [|exact Hb].
    intros u Hu. unfold _scheduleReconnect. rewrite E.
    cbn [_reconnectTimers with_timers]. apply lookup_insert_ne. congruence.
Qed.

(** X19. Starting from a running monitor with no timer and no stored
    backoff for an endpoint, and with a ceiling of at least one second: after
    [n] reconnect attempts in a row have failed, the timer that is pending
    is the one armed for [min (2^n) ceiling] seconds, provided that, before
    each timer fires and while each attempt is awaited, nothing else arms or
    fires a timer for the endpoint and the monitor is not stopped (no child
    of the endpoint exits and no tick handles the endpoint during an
    attempt). If moreover the ceiling is at most 2147483 seconds, that timer
    waits [min (2^n) ceiling * 1000] milliseconds. *)
Theorem backoff_after_failures (clusterUrl : string) (h hn : HealthMonitor) (n : nat) :
  _running h = true ->
  _reconnectTimers h !! clusterUrl = None ->
  _reconnectBackoffs h !! clusterUrl = None ->
  (1 <= maxReconnectBackoffSeconds (h_config h))%Z ->
  nsteps (failedAttempt clusterUrl) n (_scheduleReconnect clusterUrl h) hn ->
  let seconds := Z.min (2 ^ Z.of_nat n) (maxReconnectBackoffSeconds (h_config h)) in
  _reconnectTimers hn !! clusterUrl = Some (timerFor seconds)
  /\ ((maxReconnectBackoffSeconds (h_config h) <= 2147483)%Z ->
      delayMs (timerFor seconds) = (seconds * 1000)%Z).
Proof.
  intros Hrun Ht Hb Hmax Hsteps seconds.
  destruct (schedule_arms clusterUrl h Ht) as (Harm & _ & Hr & Hc).
  rewrite Hb in Harm.
  pose proof (backoff_sequence clusterUrl n _ hn Hsteps 0
                (maxReconnectBackoffSeconds (h_config h))) as Hseq.
  rewrite Hr, Hc in Hseq. specialize (Hseq Hrun eq_refl Harm).
  rewrite Nat.add_0_l, backoffAfter_closed in Hseq by exact Hmax.
  split; [exact Hseq|].
  intros Hceil. cbn [delayMs timerFor]. apply timeoutDelay_in_range.
  assert (0 < 2 ^ Z.of_nat n)%Z by (apply Z.pow_pos_nonneg; lia).
  unfold seconds. lia.
Qed.

Lemma backoff_after_failures_witness :
  let h := start (newHealthMonitor Sample.testCfg) in
  let h1 := reconnectSettled Sample.c1 1 false
              (timerFired Sample.c1 (_scheduleReconnect Sample.c1 h)).2 in
  let h2 := reconnectSettled Sample.c1 2 false (timerFired Sample.c1 h1).2 in
  _reconnectTimers h2 !! Sample.c1 = Some (timerFor 4)
  /\ delayMs (timerFor 4) = 4000%Z.
Proof.
  intros h h1 h2.
  destruct (backoff_after_failures Sample.c1 h h2 2) as [Ht Hd].
  - reflexivity.
  - reflexivity.
  - reflexivity.
  - vm_compute. discriminate.
  - apply (nsteps_l _ _ _ h1).
    + exact (failed_attempt Sample.c1 (_scheduleReconnect Sample.c1 h)
               (_scheduleReconnect Sample.c1 h) 1%Z
               (timerFired Sample.c1 (_scheduleReconnect Sample.c1 h)).2
               (timerFired Sample.c1 (_scheduleReconnect Sample.c1 h)).2
               (rtc_refl _ _) eq_refl (rtc_refl _ _)).
    + apply nsteps_once.
      exact (failed_attempt Sample.c1 h1 h1 2%Z
               (timerFired Sample.c1 h1).2 (timerFired Sample.c1 h1).2
               (rtc_refl _ _) eq_refl (rtc_refl _ _)).
  - split; [exact Ht|]. apply Hd. vm_compute. discriminate.
Defined.

Section Tick.

Lemma checkOne_keeps url st ok h :
  (forall u t, _reconnectTimers h !! u = Some t ->
               _reconnectTimers (checkOne url st ok h) !! u = Some t)
  /\ (forall u, _reconnectBackoffs h !! u = None ->
                _reconnectBackoffs (checkOne url st ok h) !! u = None)
  /\ _running (checkOne url st ok h) = _running h.
Proof.
  assert (forall u t, _reconnectTimers h !! u = Some t ->
                      _reconnectTimers (_scheduleReconnect url h) !! u = Some t) as Hs.
  { intros u t Hu. unfold _scheduleReconnect.
    destruct (_reconnectTimers h !! url) eqn:E; [exact Hu|].
    cbn [_reconnectTimers with_timers]. rewrite lookup_insert_ne; [exact Hu|].
    intros ->. congruence. }
  assert (_reconnectBackoffs (_scheduleReconnect url h) = _reconnectBackoffs h) as Hsb.
  { unfold _scheduleReconnect. now destruct (_reconnectTimers h !! url). }
  unfold checkOne. destruct st.
  - destruct ok; cbn [negb].
    + repeat split; [tauto|]. intros u Hu. cbn [_reconnectBackoffs with_backoffs].
      destruct (decide (url = u)) as [->|Hne];
        [apply lookup_delete_eq | now rewrite lookup_delete_ne].
    + split; [exact Hs|]. split; [now rewrite Hsb | apply schedule_running].
  - now repeat split.
  - destruct (_reconnectTimers h !! url) eqn:E; [now repeat split|].
    split; [exact Hs|]. split; [now rewrite Hsb | apply schedule_running].
  - destruct (_reconnectTimers h !! url) eqn:E; [now repeat split|].
    split; [exact Hs|]. split; [now rewrite Hsb | apply schedule_running].
Qed.

Lemma schedule_is_pending url h :
  is_Some (_reconnectTimers (_scheduleReconnect url h) !! url).
Proof.
  destruct (_reconnectTimers h !! url) as [t|] eqn:E.
  - rewrite (schedule_pending url h t E), E. eauto.
  - destruct (schedule_arms url h E) as [-> _]. eauto.
Qed.

Lemma checkOne_handles url st ok h :
  (st = Failed \/ st = Disconnected ->
   is_Some (_reconnectTimers (checkOne url st ok h) !! url))
  /\ (st = Connected ->
      if ok then _reconnectBackoffs (checkOne url st ok h) !! url = None
      else is_Some (_reconnectTimers (checkOne url st ok h) !! url)).
Proof.
  unfold checkOne. split.
  - intros [-> | ->];
      (destruct (_reconnectTimers h !! url) eqn:E;
       [rewrite E; eauto | apply schedule_is_pending]).
  - intros ->. destruct ok; cbn [negb].
    + cbn [_reconnectBackoffs with_backoffs]. apply lookup_delete_eq.
    + apply schedule_is_pending.
Qed.

End Tick.

(** X20. One turn of the loop of [_checkAll], in whatever state the monitor
    is when the turn runs (the loop awaits each ping, and timers fire and
    attempts settle between its turns). A connection that the snapshot shows
    [Failed] or [Disconnected] has a reconnect timer pending when its turn
    ends; one that it shows [Connected] has a timer pending if its ping
    failed, and no stored backoff and its timers untouched if the ping
    succeeded; one that it shows [Connecting] changes nothing. A turn never
    removes or replaces a pending timer, never stores a backoff, touches no
    timer and no backoff of another endpoint, and leaves the running flag as
    it is. *)
Theorem checkAll_turn_spec (clusterUrl : string) (st : ConnectionStatus) (ok : bool)
    (h : HealthMonitor) :
  let h' := checkOne clusterUrl st ok h in
  (st = Failed \/ st = Disconnected ->
   is_Some (_reconnectTimers h' !! clusterUrl))
  /\ (st = Connected ->
      if ok
      then _reconnectBackoffs h' !! clusterUrl = None
           /\ _reconnectTimers h' = _reconnectTimers h
      else is_Some (_reconnectTimers h' !! clusterUrl))
  /\ (st = Connecting -> h' = h)
  /\ (forall u t, _reconnectTimers h !! u = Some t ->
                  _reconnectTimers h' !! u = Some t)
  /\ (forall u, _reconnectBackoffs h !! u = None ->
                _reconnectBackoffs h' !! u = None)
  /\ (forall u, u <> clusterUrl ->
        _reconnectTimers h' !! u = _reconnectTimers h !! u
        /\ _reconnectBackoffs h' !! u = _reconnectBackoffs h !! u)
  /\ _running h' = _running h.
Proof.
  intros h'. subst h'.
  destruct (checkOne_keeps clusterUrl st ok h) as (Kt & Kb & Kr).
  destruct (checkOne_handles clusterUrl st ok h) as (Hu & Hc).
  split; [exact Hu|]. split.
  { intros Hs. specialize (Hc Hs). destruct ok; [|exact Hc].
    split; [exact Hc|]. now rewrite Hs. }
  split; [now intros ->|].
  split; [exact Kt|]. split; [exact Kb|]. split; [|exact Kr].
  intros u Hu'.
  assert (_reconnectTimers (_scheduleReconnect clusterUrl h) !! u
          = _reconnectTimers h !! u
          /\ _reconnectBackoffs (_scheduleReconnect clusterUrl h) !! u
             = _reconnectBackoffs h !! u) as Hs.
  { unfold _scheduleReconnect. destruct (_reconnectTimers h !! clusterUrl); [now split|].
    cbn [_reconnectTimers _reconnectBackoffs with_timers].
    split; [|reflexivity]. apply lookup_insert_ne. congruence. }
  unfold checkOne. destruct st.
  - destruct ok; cbn [negb]; [|exact Hs].
    cbn [_reconnectTimers _reconnectBackoffs with_backoffs].
    split; [reflexivity|]. apply lookup_delete_ne. congruence.
  - now split.
  - destruct (_reconnectTimers h !! clusterUrl); [now split | exact Hs].
  - destruct (_reconnectTimers h !! clusterUrl); [now split | exact Hs].
Qed.

(** ** The launch of a child *)

Lemma forward_same (name : string) (processEnv env : Env) (k : string) :
  env !! name = processEnv !! name ->
  match processEnv !! name with
  | Some v => if JsString.truthy v then <[name := v]> env else env
  | None => env
  end !! k = env !! k.
Proof.
  intros Hsame. destruct (processEnv !! name) as [v|] eqn:E; [|reflexivity].
  destruct (JsString.truthy v); [|reflexivity].
  destruct (decide (name = k)) as [<-|Hne].
  - now rewrite lookup_insert_eq.
  - now rewrite lookup_insert_ne.
Qed.

(** X21. A child is launched with the parent's environment, changed in at
    most two variables. [AZURE_TOKEN_CREDENTIALS] is the parent's value when
    the parent has one (an empty one included), and
    [managedidentitycredential] otherwise. [AZURE_CLIENT_ID] is the trimmed
    identity of the mapping when that is not blank; for a blank identity
    the child inherits whatever [AZURE_CLIENT_ID] the parent has. Every other
    variable is passed on as it is. The argument list ends in [--read-only]
    exactly when the configuration asks for it. *)
Theorem child_launch_spec (cfg : RouterConfig) (processEnv : Env) (mp : ClusterMapping) :
  (forall k, k <> "AZURE_TOKEN_CREDENTIALS" -> k <> "AZURE_CLIENT_ID" ->
             childEnv processEnv mp !! k = processEnv !! k)
  /\ childEnv processEnv mp !! "AZURE_TOKEN_CREDENTIALS"
     = Some (default "managedidentitycredential"
               (processEnv !! "AZURE_TOKEN_CREDENTIALS"))
  /\ childEnv processEnv mp !! "AZURE_CLIENT_ID"
     = (if JsString.truthy (JsString.trim (identity mp))
        then Some (JsString.trim (identity mp))
        else processEnv !! "AZURE_CLIENT_ID")
  /\ (In "--read-only" (childArgs cfg) <-> readOnly cfg = true)
  /\ firstn 8 (childArgs cfg) = ["-y"; "@azure/mcp@latest"; "server"; "start";
                                 "--mode"; "all"; "--namespace"; "kusto"].
Proof.
  set (env0 := <["AZURE_TOKEN_CREDENTIALS" :=
                   default "managedidentitycredential"
                     (processEnv !! "AZURE_TOKEN_CREDENTIALS")]> processEnv).
  set (env1 := match processEnv !! "IDENTITY_ENDPOINT" with
               | Some v => if JsString.truthy v
                           then <["IDENTITY_ENDPOINT" := v]> env0 else env0
               | None => env0
               end).
  set (env2 := match processEnv !! "IDENTITY_HEADER" with
               | Some v => if JsString.truthy v
                           then <["IDENTITY_HEADER" := v]> env1 else env1
               | None => env1
               end).
  assert (forall k, env1 !! k = env0 !! k) as H1.
  { intros k. apply forward_same. unfold env0. now rewrite lookup_insert_ne. }
  assert (forall k, env2 !! k = env0 !! k) as H2.
  { intros k. rewrite <- H1. apply forward_same. rewrite H1. unfold env0.
    now rewrite lookup_insert_ne. }
  assert (childEnv processEnv mp
          = if JsString.truthy (JsString.trim (identity mp))
            then <["AZURE_CLIENT_ID" := JsString.trim (identity mp)]> env2
            else env2) as Henv.
  { unfold childEnv, extractClientIdFromIdentity. fold env0. fold env1. fold env2.
    destruct (identity mp) as [|c s] eqn:Ei; [reflexivity|].
    cbn [JsString.truthy].
    now destruct (JsString.truthy (JsString.trim (String c s))). }
  split; [|split; [|split; [|split]]].
  - intros k Hk1 Hk2. rewrite Henv.
    destruct (JsString.truthy _).
    + rewrite lookup_insert_ne by congruence. rewrite H2. unfold env0.
      now rewrite lookup_insert_ne by congruence.
    + rewrite H2. unfold env0. now rewrite lookup_insert_ne by congruence.
  - rewrite Henv. destruct (JsString.truthy _).
    + rewrite lookup_insert_ne by discriminate. rewrite H2. unfold env0.
      apply lookup_insert_eq.
    + rewrite H2. unfold env0. apply lookup_insert_eq.
  - rewrite Henv. destruct (JsString.truthy _).
    + apply lookup_insert_eq.
    + rewrite H2. unfold env0. now rewrite lookup_insert_ne by discriminate.
  - unfold childArgs. destruct (readOnly cfg); cbn.
    + split; [reflexivity | intros _]. do 8 right. now left.
    + split; [|discriminate]. intros H.
      repeat (destruct H as [H | H]; [discriminate H|]). destruct H.
  - unfold childArgs. now destruct (readOnly cfg).
Qed.

(** ** Startup *)

Lemma no_connection_no_tools (m : DownstreamManager) :
  filter (fun c => dc_status c = Connected) (getConnections m) = [] ->
  getToolDefinitions m = [].
Proof.
  unfold getToolDefinitions, getConnections, JsMap.values.
  induction (_downstreams m) as [|[k d] ds IH]; [reflexivity|].
  cbn [map List.find fst snd]. intros Hf.
  destruct (decide (status d = Connected)) as [Hc | Hc].
  - rewrite filter_cons_True in Hf by exact Hc. discriminate.
  - rewrite filter_cons_False in Hf by exact Hc.
    rewrite bool_decide_eq_false_2 by exact Hc. cbn [andb]. now apply IH.
Qed.

(** X22. How startup ends. With no mapping the process exits with 1 before
    anything is built. Otherwise, when no connected endpoint reports a tool,
    it exits with 1 after emptying the registry (the count of connected
    endpoints decides nothing beyond that). Otherwise the router serves the
    tools of the first such endpoint under their own names, with the monitor
    running; unless the upstream server fails to start, in which case the
    process exits with 1 and the registry is left as initialization made
    it. *)
Theorem main_outcome (connectDownstream : string -> ConnectOutcome) (now : string)
    (createAndStartServer : ToolRouter -> bool) (config : RouterConfig) (h : heap) :
  let m0 := initializeAll connectDownstream now (newDownstreamManager config) in
  toolsIn h (getToolDefinitions m0) ->
  exists out h',
    main connectDownstream now createAndStartServer config h = Some (out, h')
    /\ match mappings config, getToolDefinitions m0 with
       | [], _ => out = ProcessExit 1 None
       | _ :: _, [] =>
           out = ProcessExit 1 (Some (shutdownAll m0))
           /\ getClusterUrls (shutdownAll m0) = []
       | _ :: _, _ :: _ =>
           exists toolRouter,
             map name (getTools toolRouter) = map name (getToolDefinitions m0)
             /\ out = (if createAndStartServer toolRouter
                       then Serving m0 toolRouter (start (newHealthMonitor config))
                       else ProcessExit 1 (Some m0))
             /\ _running (start (newHealthMonitor config)) = true
       end.
Proof.
  intros m0 Hin. unfold main. fold m0.
  destruct (mappings config) as [|mp mps] eqn:Em.
  { exists (ProcessExit 1 None), h. now split. }
  cbn [length Nat.eqb].
  destruct (getToolDefinitions m0) as [|t0 ts] eqn:Et.
  - destruct (length (filter _ (getConnections m0)) =? 0)%nat.
    + exists (ProcessExit 1 (Some (shutdownAll m0))), h. now split.
    + rewrite (hbind_Some _ _ _ _ _ (refreshTools_empty m0 newToolRouter h Et)).
      cbn [getTools _mergedTools length Nat.eqb].
      exists (ProcessExit 1 (Some (shutdownAll m0))), h. now split.
  - destruct (length (filter _ (getConnections m0)) =? 0)%nat eqn:Ec.
    { apply Nat.eqb_eq, length_zero_iff_nil, no_connection_no_tools in Ec.
      rewrite Et in Ec. discriminate. }
    rewrite <- Et in *.
    assert (getToolDefinitions m0 <> []) as Hne by (rewrite Et; discriminate).
    destruct (refreshTools_nonempty m0 newToolRouter h Hne Hin)
      as (r' & h' & E & _ & _ & _ & Hall).
    rewrite (hbind_Some _ _ _ _ _ E).
    assert (map name (_mergedTools r') = map name (getToolDefinitions m0)) as Hnames.
    { clear -Hall. induction Hall as [|tool t' l l' (Hn & _) _ IH]; [reflexivity|].
      cbn. now rewrite Hn, IH. }
    assert ((length (getTools r') =? 0)%nat = false) as Hl.
    { apply Nat.eqb_neq. unfold getTools.
      rewrite <- (length_map name), Hnames, Et. discriminate. }
    rewrite Hl.
    destruct (createAndStartServer r') eqn:Es.
    + exists (Serving m0 r' (start (newHealthMonitor config))), h'.
      split; [reflexivity|]. exists r'. rewrite Es. now repeat split.
    + exists (ProcessExit 1 (Some m0)), h'.
      split; [reflexivity|]. exists r'. rewrite Es. now repeat split.
Qed.

Lemma main_outcome_witness :
  exists toolRouter h',
    main secondUp "t0" (fun _ => true) Sample.cfg Sample.heap0
    = Some (Serving (initializeAll secondUp "t0" (newDownstreamManager Sample.cfg))
              toolRouter (start (newHealthMonitor Sample.cfg)), h')
    /\ map name (getTools toolRouter) = ["kusto_query"; "kusto_cluster_list"].
Proof.
  destruct (main_outcome secondUp "t0" (fun _ => true) Sample.cfg Sample.heap0)
    as (out & h' & E & Hout).
  - change (toolsIn Sample.heap0 Sample.tools). exact sample_tools_in.
  - change (mappings Sample.cfg) with
      [ {| clusterUrl := Sample.c1; identity := "id1" |};
        {| clusterUrl := Sample.c2; identity := EmptyString |} ] in Hout.
    change (getToolDefinitions
              (initializeAll secondUp "t0" (newDownstreamManager Sample.cfg)))
      with Sample.tools in Hout.
    cbv beta iota in Hout. unfold Sample.tools in Hout at 1.
    destruct Hout as (r & Hn & -> & _).
    exists r, h'. split; [exact E | exact Hn].
Defined.

(** ** The upstream tool handler *)

Section Handler.
Variable clientCallTool : handle -> string -> Args -> CallOutcome.

Lemma toReply_plain (result : ToolCallResult) :
  forallb isPlainText (content result) = true -> toReply result = result.
Proof.
  destruct result as [cs err]. unfold toReply. cbn [content isError]. intros Hp.
  f_equal. induction cs as [|c cs IH]; [reflexivity|].
  cbn [forallb] in Hp. apply andb_true_iff in Hp as [Hc Hcs].
  cbn [map]. rewrite (IH Hcs). f_equal.
  destruct c as [ty [t|] [d|] [mt|]]; destruct ty; try discriminate Hc. reflexivity.
Qed.

Lemma textError_routerMade (t : string) : routerMade (textError t).
Proof. repeat split. discriminate. Qed.

Lemma callTool_quiet (url toolName : string) (args : Args) (m : DownstreamManager) :
  filter isClientCall (callTool clientCallTool url toolName args m).2 = [] ->
  exists t, (callTool clientCallTool url toolName args m).1 = textError t.
Proof.
  unfold callTool.
  destruct (JsMap.get _ _) as [st|]; [|eauto].
  destruct (client st) as [c|]; [|eauto].
  destruct (bool_decide _); [|eauto].
  destruct (clientCallTool c toolName args); cbn [snd].
  - rewrite filter_cons_False by (cbn; tauto).
    rewrite filter_cons_True by (cbn; tauto). discriminate.
  - eauto.
Qed.

Lemma calls_quiet (toolName : string) (args : Args) (m : DownstreamManager)
    (es : list (string * DownstreamState)) :
  filter isClientCall
    (concat (map snd (map (fun e => callTool clientCallTool e.1 toolName args m) es)))
  = [] ->
  Forall (fun r => exists t, r = textError t)
    (map (fun e => (callTool clientCallTool e.1 toolName args m).1) es).
Proof.
  induction es as [|e es IH]; [constructor|].
  cbn [map concat]. rewrite filter_app. intros Hf.
  apply app_eq_nil in Hf as [H1 H2].
  constructor; [now apply callTool_quiet | now apply IH].
Qed.

Lemma textErrors_routerMade (rs : list ToolCallResult) :
  rs <> [] ->
  Forall (fun r => exists t, r = textError t) rs ->
  routerMade {| content := concat (map content rs);
                isError := Some (existsb flagged rs) |}.
Proof.
  intros Hne Hall. destruct rs as [|r rs]; [contradiction|].
  apply Forall_cons in Hall as [[t ->] Hall].
  split; [reflexivity|]. split; [discriminate|].
  cbn [content map concat textError app forallb]. 
  change (isPlainText (textContent t)) with true. cbn [andb].
  clear Hne. induction Hall as [|r' rs' [t' ->] _ IH]; [reflexivity|].
  cbn [map concat content textError app forallb].
  change (isPlainText (textContent t')) with true. exact IH.
Qed.

Lemma callToolOnAll_quiet (toolName : string) (args : Args) (m : DownstreamManager) :
  filter isClientCall (callToolOnAll clientCallTool toolName args m).2 = [] ->
  routerMade (callToolOnAll clientCallTool toolName args m).1.
Proof.
  intros Hf.
  destruct (connectedDownstreams m) as [|e es] eqn:E.
  - unfold callToolOnAll. rewrite E. apply textError_routerMade.
  - assert (connectedDownstreams m <> []) as Hne by (rewrite E; discriminate).
    rewrite (callToolOnAll_nonempty clientCallTool toolName args m Hne).
    unfold perEndpoint.
    apply textErrors_routerMade; [rewrite E; discriminate|].
    apply calls_quiet.
    unfold callToolOnAll in Hf. rewrite E in Hf. rewrite <- E in Hf.
    destruct (mergeResults _ _ _) as [merged hasError]. cbn [snd] in Hf.
    rewrite filter_cons_False in Hf by (cbn; tauto). exact Hf.
Qed.

Lemma routeToCluster_quiet (toolName : string) (args : Args) (m : DownstreamManager)
    (result : ToolCallResult) (evs : list Event) :
  _routeToCluster clientCallTool toolName args m = (Normal result, evs) ->
  filter isClientCall evs = [] -> routerMade result.
Proof.
  unfold _routeToCluster, notConfigured.
  destruct (negb (truthy_opt (args !! "cluster"))).
  { intros [= <- <-] _. apply textError_routerMade. }
  destruct (args !! "cluster") as [[| | |c| |]|]; try discriminate.
  destruct (findCluster _ _) as [matched|].
  - destruct (JsString.truthy matched).
    + intros [= <- <-] Hf. destruct (callTool_quiet _ _ _ _ Hf) as [t ->].
      apply textError_routerMade.
    + intros [= <- <-] _. apply textError_routerMade.
  - intros [= <- <-] _. apply textError_routerMade.
Qed.

Lemma routeFanOut_quiet (toolName : string) (args : Args) (m : DownstreamManager)
    (result : ToolCallResult) (evs : list Event) :
  _routeFanOut clientCallTool toolName args m = (Normal result, evs) ->
  filter isClientCall evs = [] -> routerMade result.
Proof.
  unfold _routeFanOut, notConfigured.
  destruct (truthy_opt (args !! "cluster")).
  - destruct (args !! "cluster") as [[| | |c| |]|]; try discriminate.
    destruct (findCluster _ _) as [matched|].
    + destruct (JsString.truthy matched).
      * intros [= <- <-] Hf. destruct (callTool_quiet _ _ _ _ Hf) as [t ->].
        apply textError_routerMade.
      * intros [= <- <-] _. apply textError_routerMade.
    + intros [= <- <-] _. apply textError_routerMade.
  - intros [= <- <-] Hf. now apply callToolOnAll_quiet.
Qed.

End Handler.

(** X23. What the client receives when no child was called. Whenever the
    router settles a call without reaching any child (an unknown tool, a
    missing or unconfigured [cluster], an endpoint that is not connected, no
    endpoint connected at all), its result is flagged as an error and made
    of text items only, and the upstream handler passes it on unchanged. *)
Theorem toolHandler_refusals_verbatim
    (clientCallTool : handle -> string -> Args -> CallOutcome)
    (toolRouter : ToolRouter) (tool : ToolDefinition) (args : Args)
    (m : DownstreamManager) (result : ToolCallResult) (evs : list Event) :
  routeCall clientCallTool toolRouter (name tool) args m = (Normal result, evs) ->
  filter isClientCall evs = [] ->
  toolHandler clientCallTool toolRouter tool args m = (Normal result, evs)
  /\ routerMade result.
Proof.
  intros Hr Hf.
  assert (routerMade result) as Hm.
  { revert Hr. unfold routeCall.
    destruct (bool_decide (name tool ∈ _routableTools toolRouter)).
    { intros Hr. eapply routeToCluster_quiet; eassumption. }
    destruct (bool_decide (name tool ∈ _fanOutTools toolRouter)).
    { intros Hr. eapply routeFanOut_quiet; eassumption. }
    destruct (truthy_opt (args !! "cluster")).
    { intros Hr. eapply routeToCluster_quiet; eassumption. }
    intros [= <- <-]. apply textError_routerMade. }
  split; [|exact Hm].
  unfold toolHandler. rewrite Hr. f_equal. f_equal.
  apply toReply_plain. apply Hm.
Qed.

Lemma toolHandler_refusals_verbatim_witness :
  toolHandler Sample.answering Sample.router Sample.kusto_query
    (<["database" := JStr "d"]> ∅) (Sample.bothUp [])
  = (Normal (textError (clusterRequiredText "kusto_query" (Sample.bothUp []))), [])
  /\ routerMade (textError (clusterRequiredText "kusto_query" (Sample.bothUp []))).
Proof.
  apply (toolHandler_refusals_verbatim Sample.answering Sample.router
           Sample.kusto_query (<["database" := JStr "d"]> ∅) (Sample.bothUp [])
           (textError (clusterRequiredText "kusto_query" (Sample.bothUp []))) []);
    reflexivity.
Defined.

